(** * Split-biller server: the expense engine

    A shallow embedding of [src/utils/expenseCalculator.js] (both revisions
    kept in that file), of the two revisions of [getUserStats], of
    [getGroupBalanceSummary] in [src/controllers/groupController.js], of the
    two revisions of [addExpense], of [settleExpense] and [settleSplit], and
    of [src/utils/currencyConverter.js].

    Numbers.  A JavaScript number that holds money is embedded as an exact
    rational [Q]; [NaN], which the balance object can hold, is a separate
    constructor of [number].  [x.toFixed(2)] followed by [parseFloat] is the
    rational rounding of ECMAScript's [Number.prototype.toFixed]: the integer
    [n] with [n / 100] closest to [|x|], the larger [n] on a tie, with the
    sign of [x] (fixed notation, i.e. magnitudes below 10^21).  The amounts
    are finite: the infinities of a double have no counterpart here.

    Exact arithmetic and the doubles of the engine agree up to an error far
    below a cent, which the rounding to two decimals removes, except where a
    value sits on a boundary: a quotient or product that falls exactly on
    half a cent, a total that is off its target by exactly 0.01, a residual
    of exactly one cent.  Where a statement would depend on the side such a
    value falls, it is phrased so that it does not: a share is said to be
    the value rounded to two decimals by [roundsTo], which leaves the
    direction of a tie open; acceptance of a total is stated strictly inside
    the tolerance; and the plan of [simplifyDebts] is said to settle every
    balance exactly for balances that are [multiplesOfUnit], where no
    residual of one cent can arise.

    Objects.  A JavaScript object used as a map from user ids to numbers is an
    association list in insertion order: user ids are ObjectId strings, which
    [for ... in] and [Object.values] enumerate in insertion order. *)

From Stdlib Require Import QArith Qround Qabs Lqa Lia ZArith List String Bool Permutation Sorted.
Import ListNotations.

Open Scope string_scope.
Open Scope Q_scope.

(** ** Numbers *)

Definition Qlt_bool (x y : Q) : bool := negb (Qle_bool y x).

(** [cents x], for [0 <= x]: the integer [n] for which [n / 100 - x] is as
    close to zero as possible, the larger one when there are two. *)
Definition cents (x : Q) : Z := Qfloor (x * 100 + (1 # 2)).

(** [parseFloat(x.toFixed(2))]. *)
Definition toFixed2 (x : Q) : Q :=
  if Qlt_bool x 0
  then Qred (- (inject_Z (cents (- x)) / 100))
  else Qred (inject_Z (cents x) / 100).

(** [Math.min]. *)
Definition Math_min (x y : Q) : Q := if Qle_bool x y then x else y.

(** [Math.abs]. *)
Definition Math_abs (x : Q) : Q := Qabs x.

(** A number stored in an object: finite, or [NaN] (what [undefined + x]
    evaluates to). *)
Inductive number : Type :=
| Num (q : Q)
| NaN.

Definition number_add (a : number) (b : Q) : number :=
  match a with Num q => Num (q + b) | NaN => NaN end.

Definition number_sub (a : number) (b : Q) : number :=
  match a with Num q => Num (q - b) | NaN => NaN end.

(** ** Objects keyed by user id *)

Definition object (V : Type) : Type := list (string * V).

Fixpoint obj_get {V : Type} (k : string) (o : object V) : option V :=
  match o with
  | [] => None
  | (k', v) :: rest => if String.eqb k k' then Some v else obj_get k rest
  end.

(** [o[k] = v]: an existing key keeps its place, a new key goes last. *)
Fixpoint obj_set {V : Type} (k : string) (v : V) (o : object V) : object V :=
  match o with
  | [] => [(k, v)]
  | (k', v') :: rest =>
      if String.eqb k k' then (k', v) :: rest else (k', v') :: obj_set k v rest
  end.

Definition obj_keys {V : Type} (o : object V) : list string := map fst o.
Definition obj_values {V : Type} (o : object V) : list V := map snd o.

(** [array.map((x, index) => ...)]. *)
Fixpoint mapi_from {A B : Type} (i : nat) (f : A -> nat -> B) (l : list A) : list B :=
  match l with
  | [] => []
  | x :: rest => f x i :: mapi_from (S i) f rest
  end.

Definition mapi {A B : Type} (f : A -> nat -> B) (l : list A) : list B :=
  mapi_from 0 f l.

(** ** Data *)

(** What [calculateSplits] returns for one participant. *)
Record split : Type := mkSplit { user : string; share : Q }.

(** The messages the allocator throws; a constructor per message, carrying
    the values a template message interpolates. *)
Inductive error : Type :=
| InvalidExpenseAmount            (* 'Invalid expense amount' *)
| NoUsersProvided                 (* 'No users provided for split calculation' *)
| TotalPercentage                 (* 'Total percentage must equal 100%' *)
| TotalPercentageOf (total : Q)   (* `Total percentage (${total}%) must equal 100%` *)
| TotalExact                      (* 'Total of exact shares must equal expense amount' *)
| TotalSharesOf (total amount : Q)(* `Total shares (${total}) must equal expense amount (${amount})` *)
| InvalidSplitType                (* 'Invalid split type' *)
| InvalidSplitTypeOf (ty : string)(* `Invalid split type: ${ty}` *)
| InvalidPercentageFor (u : string) (* `Invalid percentage for user ${u}` *)
| InvalidShareFor (u : string).   (* `Invalid share amount for user ${u}` *)

Inductive result (A : Type) : Type :=
| Threw (e : error)
| Returned (a : A).
Arguments Threw {A} e.
Arguments Returned {A} a.

Definition count (users : list string) : Q := inject_Z (Z.of_nat (List.length users)).

(** [Object.values(splitDetails).reduce((sum, val) => sum + parseFloat(val), 0)];
    the details hold numbers, on which [parseFloat] is the identity. *)
Definition sumValues (splitDetails : object Q) : Q :=
  fold_left (fun sum val => sum + val) (obj_values splitDetails) 0.

(** ** The allocator, revision with the strategies inline
    (expenseCalculator.js, lines 9-68) *)
Module Inline.

Definition calculateSplits (amount : Q) (splitType : string)
    (users : list string) (splitDetails : object Q) : result (list split) :=
  if Qle_bool amount 0 then Threw InvalidExpenseAmount
  else if Nat.eqb (List.length users) 0 then Threw NoUsersProvided
  else if String.eqb splitType "equal" then
    let share := amount / count users in
    Returned (map (fun userId => mkSplit userId (toFixed2 share)) users)
  else if String.eqb splitType "percentage" then
    let totalPercentage := sumValues splitDetails in
    if Qlt_bool (1 # 100) (Math_abs (totalPercentage - 100)) then Threw TotalPercentage
    else
      Returned (map (fun '(userId, percentage) =>
                       let share := (percentage / 100) * amount in
                       mkSplit userId (toFixed2 share)) splitDetails)
  else if String.eqb splitType "exact" then
    let totalExact := sumValues splitDetails in
    if Qlt_bool (1 # 100) (Math_abs (totalExact - amount)) then Threw TotalExact
    else
      Returned (map (fun '(userId, val) => mkSplit userId (toFixed2 val)) splitDetails)
  else Threw InvalidSplitType.

End Inline.

(** ** The allocator, revision with one helper per strategy
    (expenseCalculator.js, lines 263-354) *)
Module Helpers.

Definition calculateEqualSplit (amount : Q) (users : list string) : list split :=
  let perUserAmount := toFixed2 (amount / count users) in
  mapi (fun userId index =>
          let share := perUserAmount in
          let share :=
            if Nat.eqb index 0 then
              let roundingDiff := amount - perUserAmount * count users in
              if negb (Qeq_bool roundingDiff 0)
              then toFixed2 (share + roundingDiff)
              else share
            else share in
          mkSplit userId share) users.

(** The [for ... in] loop of [calculatePercentageSplit], with the running
    [totalPercentage] and [splits].  The details hold numbers, so of the test
    [typeof percentage !== 'number' || percentage < 0] the sign is what
    decides. *)
Fixpoint percentageLoop (amount : Q) (entries : object Q)
    (totalPercentage : Q) (splits : list split) : result (Q * list split) :=
  match entries with
  | [] => Returned (totalPercentage, splits)
  | (userId, percentage) :: rest =>
      if Qlt_bool percentage 0 then Threw (InvalidPercentageFor userId)
      else
        let totalPercentage := totalPercentage + percentage in
        let share := toFixed2 ((amount * percentage) / 100) in
        percentageLoop amount rest totalPercentage (splits ++ [mkSplit userId share])
  end.

Definition calculatePercentageSplit (amount : Q) (splitDetails : object Q)
    : result (list split) :=
  match percentageLoop amount splitDetails 0 [] with
  | Threw e => Threw e
  | Returned (totalPercentage, splits) =>
      if Qlt_bool (1 # 100) (Math_abs (totalPercentage - 100))
      then Threw (TotalPercentageOf totalPercentage)
      else Returned splits
  end.

(** The [for ... in] loop of [validateExactSplit]. *)
Fixpoint exactLoop (entries : object Q) (totalShares : Q) (splits : list split)
    : result (Q * list split) :=
  match entries with
  | [] => Returned (totalShares, splits)
  | (userId, share) :: rest =>
      if Qlt_bool share 0 then Threw (InvalidShareFor userId)
      else exactLoop rest (totalShares + share) (splits ++ [mkSplit userId share])
  end.

Definition validateExactSplit (amount : Q) (splitDetails : object Q)
    : result (list split) :=
  match exactLoop splitDetails 0 [] with
  | Threw e => Threw e
  | Returned (totalShares, splits) =>
      if Qlt_bool (1 # 100) (Math_abs (totalShares - amount))
      then Threw (TotalSharesOf totalShares amount)
      else Returned splits
  end.

Definition calculateSplits (amount : Q) (splitType : string)
    (users : list string) (splitDetails : object Q) : result (list split) :=
  if Qle_bool amount 0 then Threw InvalidExpenseAmount
  else if Nat.eqb (List.length users) 0 then Threw NoUsersProvided
  else if String.eqb splitType "equal" then Returned (calculateEqualSplit amount users)
  else if String.eqb splitType "percentage" then calculatePercentageSplit amount splitDetails
  else if String.eqb splitType "exact" then validateExactSplit amount splitDetails
  else Threw (InvalidSplitTypeOf splitType).

End Helpers.

(** ** Expenses as stored (the Expense model) *)

Record splitDoc : Type := mkSplitDoc { s_user : string; s_share : Q; settled : bool }.

Record expense : Type := mkExpense {
  paidBy : string;
  amount : Q;
  splits : list splitDoc
}.

(** ** The debt simplifier (expenseCalculator.js, lines 110-157) *)

Record entry : Type := mkEntry { id : string; e_amount : Q }.

Record transaction : Type := mkTransaction { from : string; to : string; t_amount : Q }.

(** The [for ... in] loop of [simplifyDebts], read once for each of the two
    arrays it fills. *)
Fixpoint creditorsOf (balances : object number) : list entry :=
  match balances with
  | [] => []
  | (userId, NaN) :: rest => creditorsOf rest
  | (userId, Num b) :: rest =>
      let balance := toFixed2 b in
      if Qlt_bool 0 balance then mkEntry userId balance :: creditorsOf rest
      else creditorsOf rest
  end.

Fixpoint debtorsOf (balances : object number) : list entry :=
  match balances with
  | [] => []
  | (userId, NaN) :: rest => debtorsOf rest
  | (userId, Num b) :: rest =>
      let balance := toFixed2 b in
      if Qlt_bool 0 balance then debtorsOf rest
      else if Qlt_bool balance 0 then mkEntry userId (Math_abs balance) :: debtorsOf rest
      else debtorsOf rest
  end.

(** [array.sort((a, b) => b.amount - a.amount)]: a stable sort, largest
    amount first. *)
Fixpoint insertDesc (x : entry) (sorted : list entry) : list entry :=
  match sorted with
  | [] => [x]
  | y :: rest =>
      if Qlt_bool (e_amount x) (e_amount y) then y :: insertDesc x rest
      else x :: y :: rest
  end.

Definition sortDesc (l : list entry) : list entry := fold_right insertDesc [] l.

(** The [while] loop of [simplifyDebts]; [None] when the fuel runs out before
    the loop ends. *)
Fixpoint simplifyLoop (fuel : nat) (debtors creditors : list entry)
    : option (list transaction) :=
  match debtors, creditors with
  | debtor :: debtorsRest, creditor :: creditorsRest =>
      match fuel with
      | O => None
      | S fuel =>
          let amount := Math_min (e_amount debtor) (e_amount creditor) in
          let pushed :=
            if Qlt_bool 0 amount
            then [mkTransaction (id debtor) (id creditor) (toFixed2 amount)]
            else [] in
          let debtor := mkEntry (id debtor) (e_amount debtor - amount) in
          let creditor := mkEntry (id creditor) (e_amount creditor - amount) in
          let debtors :=
            if Qlt_bool (e_amount debtor) (1 # 100) then debtorsRest
            else debtor :: debtorsRest in
          let creditors :=
            if Qlt_bool (e_amount creditor) (1 # 100) then creditorsRest
            else creditor :: creditorsRest in
          option_map (app pushed) (simplifyLoop fuel debtors creditors)
      end
  | _, _ => Some []
  end.

Definition simplifyDebts (balances : object number) : option (list transaction) :=
  let creditors := sortDesc (creditorsOf balances) in
  let debtors := sortDesc (debtorsOf balances) in
  simplifyLoop (List.length debtors + List.length creditors) debtors creditors.

(** ** The balance aggregator (expenseCalculator.js, lines 76-103) *)

(** [balances[k] += x] and [balances[k] -= x]; an absent key reads
    [undefined], and [undefined + x] is [NaN]. *)
Definition addTo (k : string) (x : Q) (balances : object number) : object number :=
  match obj_get k balances with
  | Some n => obj_set k (number_add n x) balances
  | None => obj_set k NaN balances
  end.

Definition subFrom (k : string) (x : Q) (balances : object number) : object number :=
  match obj_get k balances with
  | Some n => obj_set k (number_sub n x) balances
  | None => obj_set k NaN balances
  end.

Definition initBalances (groupMembers : list string) : object number :=
  fold_left (fun balances member => obj_set member (Num 0) balances) groupMembers [].

Definition processExpense (balances : object number) (e : expense) : object number :=
  let balances := addTo (paidBy e) (amount e) balances in
  fold_left (fun balances s => subFrom (s_user s) (s_share s) balances) (splits e) balances.

Record groupBalances : Type := mkGroupBalances {
  balances : object number;
  transactions : list transaction
}.

Definition calculateGroupBalances (expenses : list expense) (groupMembers : list string)
    : option groupBalances :=
  let balances := initBalances groupMembers in
  let balances := fold_left processExpense expenses balances in
  match simplifyDebts balances with
  | Some transactions => Some (mkGroupBalances balances transactions)
  | None => None
  end.

(** ** [calculateUserBalance] (expenseCalculator.js, lines 165-186) *)

Record userBalance : Type := mkUserBalance { userOwes : Q; userIsOwed : Q }.

Definition calculateUserBalance (expenses : list expense) (userId : string) : userBalance :=
  fold_left
    (fun acc expense =>
       let userIsOwed :=
         if String.eqb (paidBy expense) userId
         then userIsOwed acc + amount expense else userIsOwed acc in
       let userOwes :=
         match find (fun s => String.eqb (s_user s) userId) (splits expense) with
         | Some userSplit => userOwes acc + s_share userSplit
         | None => userOwes acc
         end in
       mkUserBalance userOwes userIsOwed)
    expenses (mkUserBalance 0 0).

(** ** [calculatePaymentPlan] (expenseCalculator.js, lines 193-248) *)

Fixpoint planCreditors (balances : object number) : list entry :=
  match balances with
  | [] => []
  | (userId, NaN) :: rest => planCreditors rest
  | (userId, Num balance) :: rest =>
      if Qlt_bool 0 balance then mkEntry userId balance :: planCreditors rest
      else planCreditors rest
  end.

Fixpoint planDebtors (balances : object number) : list entry :=
  match balances with
  | [] => []
  | (userId, NaN) :: rest => planDebtors rest
  | (userId, Num balance) :: rest =>
      if Qlt_bool 0 balance then planDebtors rest
      else if Qlt_bool balance 0 then mkEntry userId (Math_abs balance) :: planDebtors rest
      else planDebtors rest
  end.

(** The [while] loop over the indices [i] and [j]: the lists are
    [creditors.slice(i)] and [debtors.slice(j)], and [i++] drops a head. *)
Fixpoint planLoop (fuel : nat) (creditors debtors : list entry)
    : option (list transaction) :=
  match creditors, debtors with
  | creditor :: creditorsRest, debtor :: debtorsRest =>
      match fuel with
      | O => None
      | S fuel =>
          let paymentAmount := Math_min (e_amount creditor) (e_amount debtor) in
          let pushed :=
            if Qlt_bool 0 paymentAmount
            then [mkTransaction (id debtor) (id creditor) (toFixed2 paymentAmount)]
            else [] in
          let creditor := mkEntry (id creditor) (e_amount creditor - paymentAmount) in
          let debtor := mkEntry (id debtor) (e_amount debtor - paymentAmount) in
          let creditors :=
            if Qle_bool (e_amount creditor) (1 # 100) then creditorsRest
            else creditor :: creditorsRest in
          let debtors :=
            if Qle_bool (e_amount debtor) (1 # 100) then debtorsRest
            else debtor :: debtorsRest in
          option_map (app pushed) (planLoop fuel creditors debtors)
      end
  | _, _ => Some []
  end.

Definition calculatePaymentPlan (balances : object number) : option (list transaction) :=
  let creditors := sortDesc (planCreditors balances) in
  let debtors := sortDesc (planDebtors balances) in
  planLoop (List.length creditors + List.length debtors) creditors debtors.

(** ** User statistics and the group balance summary

    The handlers read the expenses from the database and answer with JSON;
    here the expenses read are arguments ([groups]: the expenses of each of
    the user's groups, in the order of [user.groups]) and the JSON object is
    a record.  The model starts once the user or group has been found. *)

(** [const formatValue = (value) => parseFloat(parseFloat(value).toFixed(2))]. *)
Definition formatValue (value : Q) : Q := toFixed2 value.

Definition isUser (userId : string) (u : string) : bool := String.eqb u userId.
Definition paidByUser (userId : string) (e : expense) : bool := isUser userId (paidBy e).

(** [getUserStats], the revision that sums [calculateUserBalance] per group. *)
Module BasicStats.

Record stats : Type := mkStats {
  totalGroups : nat;
  totalExpenses : nat;
  totalOwed : Q;
  totalOwing : Q;
  overallBalance : Q
}.

Definition getUserStats (userId : string) (userExpenses : list expense)
    (groups : list (list expense)) : stats :=
  let '(totalOwed, totalOwing) :=
    fold_left
      (fun '(totalOwed, totalOwing) groupExpenses =>
         let b := calculateUserBalance groupExpenses userId in
         (totalOwed + toFixed2 (userIsOwed b), totalOwing + toFixed2 (userOwes b)))
      groups (0, 0) in
  let overallBalance := toFixed2 (totalOwed - totalOwing) in
  mkStats (List.length groups) (List.length userExpenses)
          (toFixed2 totalOwed) (toFixed2 totalOwing) overallBalance.

End BasicStats.

(** The per-expense amounts the detailed handlers add up. *)

(** [expense.splits.reduce(...)] over the splits of others with the given
    settled flag. *)
Definition othersSplits (userId : string) (wantSettled : bool) (e : expense) : Q :=
  fold_left
    (fun sum s =>
       if negb (isUser userId (s_user s)) && Bool.eqb (settled s) wantSettled
       then sum + s_share s else sum)
    (splits e) 0.

(** [expense.splits.find(...)?.share || 0] for the first split of others that
    is settled. *)
Definition firstSettledOther (userId : string) (e : expense) : Q :=
  match find (fun s => negb (isUser userId (s_user s)) && settled s) (splits e) with
  | Some userSplit => s_share userSplit
  | None => 0
  end.

(** [expense.splits.find(...)?.share || 0] for the user's own first split with
    the given settled flag. *)
Definition ownSplit (userId : string) (wantSettled : bool) (e : expense) : Q :=
  match find (fun s => isUser userId (s_user s) && Bool.eqb (settled s) wantSettled)
             (splits e) with
  | Some userSplit => s_share userSplit
  | None => 0
  end.

Definition youPaidOf (userId : string) (expenses : list expense) : Q :=
  fold_left
    (fun total e => if paidByUser userId e then total + amount e else total)
    expenses 0.

Definition othersYetToPayOf (userId : string) (expenses : list expense) : Q :=
  fold_left (fun total e => total + othersSplits userId false e)
            (filter (paidByUser userId) expenses) 0.

Definition youNeedToPayOf (userId : string) (expenses : list expense) : Q :=
  fold_left (fun total e => total + ownSplit userId false e)
            (filter (fun e => negb (paidByUser userId e)) expenses) 0.

(** [getUserStats], the revision with the settlement breakdown. *)
Module DetailedStats.

Record totals : Type := mkTotals {
  totalYourShare : Q;
  totalYouPaid : Q;
  totalOthersPaidYou : Q;
  totalYouNeedToPay : Q;
  totalOthersYetToPay : Q
}.

Record stats : Type := mkStats {
  totalGroups : nat;
  totalExpenses : nat;
  totalOwed : Q;
  totalOwing : Q;
  totalPaid : Q;
  othersPaidYou : Q;
  youNeedToPay : Q;
  othersYetToPay : Q;
  overallBalance : Q
}.

(** One turn of the loop over [user.groups]. *)
Definition groupStep (userId : string) (t : totals) (groupExpenses : list expense) : totals :=
  if Nat.eqb (List.length groupExpenses) 0 then t
  else
    let b := calculateUserBalance groupExpenses userId in
    let totalYourShare := totalYourShare t + userOwes b in
    let totalYouPaid := totalYouPaid t + youPaidOf userId groupExpenses in
    (* assigned, not added to *)
    let totalOthersPaidYou :=
      fold_left (fun total e => total + firstSettledOther userId e)
        (filter (fun e =>
                   paidByUser userId e &&
                   existsb (fun s => negb (isUser userId (s_user s)) && settled s) (splits e))
                groupExpenses) 0 in
    let totalOthersYetToPay := totalOthersYetToPay t + othersYetToPayOf userId groupExpenses in
    let totalYouNeedToPay := totalYouNeedToPay t + youNeedToPayOf userId groupExpenses in
    mkTotals totalYourShare totalYouPaid totalOthersPaidYou
             totalYouNeedToPay totalOthersYetToPay.

Definition getUserStats (userId : string) (userExpenses : list expense)
    (groups : list (list expense)) : stats :=
  let t := fold_left (groupStep userId) groups (mkTotals 0 0 0 0 0) in
  let overallBalance := totalOthersYetToPay t - totalYouNeedToPay t in
  mkStats (List.length groups) (List.length userExpenses)
          (formatValue (totalOthersYetToPay t))
          (formatValue (totalYourShare t))
          (formatValue (totalYouPaid t))
          (formatValue (totalOthersPaidYou t))
          (formatValue (totalYouNeedToPay t))
          (formatValue (totalOthersYetToPay t))
          (formatValue overallBalance).

End DetailedStats.

(** [getGroupBalanceSummary] (groupController.js, lines 557-677). *)
Record summary : Type := mkSummary {
  yourShare : Q;
  youPaid : Q;
  othersPaidYou : Q;
  youNeedToPay : Q;
  othersYetToPay : Q
}.

Definition getGroupBalanceSummary (expenses : list expense) (userId : string) : summary :=
  if Nat.eqb (List.length expenses) 0 then mkSummary 0 0 0 0 0
  else
    let b := calculateUserBalance expenses userId in
    let youPaid := youPaidOf userId expenses in
    let othersPaidYouSettled :=
      fold_left (fun total e => total + ownSplit userId true e)
        (filter (fun e =>
                   negb (paidByUser userId e) &&
                   existsb (fun s => isUser userId (s_user s) && settled s) (splits e))
                expenses) 0 in
    let youPaidOthersSettled :=
      fold_left (fun total e => total + othersSplits userId true e)
        (filter (paidByUser userId) expenses) 0 in
    let othersPaidYou := othersPaidYouSettled + youPaidOthersSettled in
    let othersYetToPay := othersYetToPayOf userId expenses in
    let youNeedToPay := youNeedToPayOf userId expenses in
    mkSummary (formatValue (userOwes b)) (formatValue youPaid)
              (formatValue othersPaidYou) (formatValue youNeedToPay)
              (formatValue othersYetToPay).

(** ** Vocabulary of the statements *)

(** A whole number of hundredths. *)
Definition is_cents (x : Q) : Prop := exists n : Z, x == inject_Z n / 100.

Definition sumShares (splits : list split) : Q :=
  fold_right (fun s acc => share s + acc) 0 splits.

(** What the two loops of the helper revision push, entry by entry. *)
Definition percentageSplits (amount : Q) (entries : object Q) : list split :=
  map (fun '(userId, percentage) => mkSplit userId (toFixed2 ((amount * percentage) / 100)))
      entries.

Definition exactSplits (entries : object Q) : list split :=
  map (fun '(userId, val) => mkSplit userId val) entries.

Definition nonnegValues (entries : object Q) : Prop :=
  forall k v, In (k, v) entries -> 0 <= v.

(** [r] is [x] rounded to two decimals: a whole number of cents at most half
    a cent away from [x], whichever way a tie goes. *)
Definition roundsTo (x r : Q) : Prop := is_cents r /\ Qabs (r - x) <= 1 # 200.

(** What a participant paid and owes over a list of expenses, whatever the
    settled flags say. *)
Definition paidTotal (X : string) (expenses : list expense) : Q :=
  fold_right (fun e acc => (if String.eqb (paidBy e) X then amount e else 0) + acc)
             0 expenses.

Definition owedIn (X : string) (e : expense) : Q :=
  fold_right (fun s acc => (if String.eqb (s_user s) X then s_share s else 0) + acc)
             0 (splits e).

Definition owedTotal (X : string) (expenses : list expense) : Q :=
  fold_right (fun e acc => owedIn X e + acc) 0 expenses.

(** Money flowing to and from a participant in a list of transactions. *)
Definition inflow (X : string) (txs : list transaction) : Q :=
  fold_right (fun t acc => (if String.eqb (to t) X then t_amount t else 0) + acc) 0 txs.

Definition outflow (X : string) (txs : list transaction) : Q :=
  fold_right (fun t acc => (if String.eqb (from t) X then t_amount t else 0) + acc) 0 txs.




(** The amount a list of creditors or debtors holds for a participant, and
    in total. *)
Definition amountOf (X : string) (l : list entry) : Q :=
  fold_right (fun e acc => (if String.eqb (id e) X then e_amount e else 0) + acc) 0 l.

Definition totalOf (l : list entry) : Q :=
  fold_right (fun e acc => e_amount e + acc) 0 l.

(** An entry the loop can work on exactly: a positive whole number of cents. *)
Definition positiveCents (e : entry) : Prop := 0 < e_amount e /\ is_cents (e_amount e).

(** Sums over lists of expenses, written independently of the handlers. *)
Definition Qsum (l : list Q) : Q := fold_right Qplus 0 l.

(** The share of the user's first split in an expense, settled or not. *)
Definition ownShare (userId : string) (e : expense) : Q :=
  match find (fun s => String.eqb (s_user s) userId) (splits e) with
  | Some userSplit => s_share userSplit
  | None => 0
  end.

(** The shares of every settled split of other participants, over all the
    expenses the user paid. *)
Definition settledBackTo (userId : string) (expenses : list expense) : Q :=
  Qsum (map s_share
            (filter (fun s => negb (isUser userId (s_user s)) && settled s)
                    (flat_map splits (filter (paidByUser userId) expenses)))).

(** The user's own settled share (the first one) on every expense somebody
    else paid. *)
Definition ownSettledShares (userId : string) (expenses : list expense) : Q :=
  Qsum (map (ownSplit userId true)
            (filter (fun e => negb (paidByUser userId e)) expenses)).


(** Largest amount first. *)
Definition descending (a b : entry) : Prop := e_amount b <= e_amount a.

(** An expense with every settled flag cleared. *)
Definition clearSettled (e : expense) : expense :=
  mkExpense (paidBy e) (amount e)
            (map (fun s => mkSplitDoc (s_user s) (s_share s) false) (splits e)).

(** The users an expense names: its payer and the users of its splits. *)
Definition mentions (e : expense) : list string := paidBy e :: map s_user (splits e).

(** The sum of the finite balances an object holds. *)
Definition objTotal (o : object number) : Q :=
  fold_right (fun kv acc => match snd kv with Num q => q + acc | NaN => acc end) 0 o.

(** The sum of the shares of an expense. *)
Definition sharesOf (e : expense) : Q := Qsum (map s_share (splits e)).

(** ** [addExpense] (expenseController.js, two revisions)

    The handler reads the group from the database, stores the expense and
    creates notifications; here the group read is an argument ([None] when
    [Group.findById] finds nothing) and what is stored and who is notified
    is the outcome.  Of the stored document the outcome keeps the fields of
    [expense]; title, category, notes and currency are stored as received.
    An absent string field and the empty string are falsy alike, and so are
    an absent amount and 0. *)

Record addRequest : Type := mkAddRequest {
  r_title : string;
  r_amount : Q;
  r_groupId : string;
  r_splitType : string;
  r_splits : option (object Q);
  r_selectedMembers : list string
}.

(** What the [catch] block receives. *)
Inductive thrown : Type :=
| Raised (e : error)   (* an [Error] thrown by [calculateSplits] *)
| TypeError.           (* a property read of [undefined] *)

Inductive rejection : Type :=
| MissingFields                     (* 400 'Please provide all required fields' *)
| GroupNotFound                     (* 404 'Group not found' *)
| NotAuthorized                     (* 403 'Not authorized to add expenses to this group' *)
| NotAMember (u : string)           (* 400 `User ${u} is not a member of this group` *)
| MissingSplitDetails (ty : string) (* 400 `Please provide split details for ${ty} split` *)
| UnknownSplitType                  (* 400 'Invalid split type' *)
| ServerError (t : thrown).         (* 500 'Server error' *)

Definition status (r : rejection) : nat :=
  match r with
  | MissingFields | NotAMember _ | MissingSplitDetails _ | UnknownSplitType => 400
  | GroupNotFound => 404
  | NotAuthorized => 403
  | ServerError _ => 500
  end.

Inductive addOutcome : Type :=
| Rejected (r : rejection)
| Created (e : expense) (notified : list string).   (* 201 *)

(** [members.includes(u)]. *)
Definition includes (members : list string) (u : string) : bool :=
  existsb (String.eqb u) members.

(** The loops that answer 400 for the first id that is not a member. *)
Fixpoint firstNonMember (members : list string) (ids : list string) : option string :=
  match ids with
  | [] => None
  | u :: rest => if includes members u then firstNonMember members rest else Some u
  end.

(** A split as [Expense.create] stores it: [settled] defaults to [false]. *)
Definition stored (s : split) : splitDoc := mkSplitDoc (user s) (share s) false.

Definition missingFields (req : addRequest) : bool :=
  String.eqb (r_title req) "" || Qeq_bool (r_amount req) 0
  || String.eqb (r_groupId req) "" || String.eqb (r_splitType req) "".

Definition isDetailed (splitType : string) : bool :=
  String.eqb splitType "percentage" || String.eqb splitType "exact".

Definition allocator : Type := Q -> string -> list string -> object Q -> result (list split).

(** The revision that leaves every strategy to [calculateSplits]
    (expenseController.js, lines 12-121); it notifies every other member. *)
Module ViaCalculator.

Definition addExpense (calculateSplits : allocator) (req : addRequest)
    (userId : string) (group : option (list string)) : addOutcome :=
  if missingFields req then Rejected MissingFields
  else
    match group with
    | None => Rejected GroupNotFound
    | Some members =>
        if negb (includes members userId) then Rejected NotAuthorized
        else
          let finish (processed : result (list split)) :=
            match processed with
            | Threw e => Rejected (ServerError (Raised e))
            | Returned processedSplits =>
                Created (mkExpense userId (r_amount req) (map stored processedSplits))
                        (filter (fun memberId => negb (String.eqb memberId userId)) members)
            end in
          if String.eqb (r_splitType req) "equal" then
            finish (calculateSplits (r_amount req) (r_splitType req) members [])
          else if isDetailed (r_splitType req) then
            match r_splits req with
            | None | Some [] => Rejected (MissingSplitDetails (r_splitType req))
            | Some splits =>
                match firstNonMember members (obj_keys splits) with
                | Some u => Rejected (NotAMember u)
                | None => finish (calculateSplits (r_amount req) (r_splitType req) members splits)
                end
            end
          else Rejected UnknownSplitType
    end.

End ViaCalculator.

(** The revision with [selectedMembers], which splits among selected members
    and by percentage itself (src/unnamed/part_002, lines 145-286); it
    notifies the other users of the splits. *)
Module WithSelection.

(** "Adjust for rounding errors": the remainder goes to [processedSplits[0]]
    when the total is off by more than 0.01; [None] is the [TypeError] of
    reading [processedSplits[0].share] in an empty array. *)
Definition adjustFirst (amount : Q) (processedSplits : list split) : option (list split) :=
  let totalAllocated := fold_left (fun sum s => sum + share s) processedSplits 0 in
  if Qlt_bool (1 # 100) (Math_abs (totalAllocated - amount)) then
    let remainder := amount - totalAllocated in
    match processedSplits with
    | first :: rest => Some (mkSplit (user first) (toFixed2 (share first + remainder)) :: rest)
    | [] => None
    end
  else Some processedSplits.

Definition addExpense (calculateSplits : allocator) (req : addRequest)
    (userId : string) (group : option (list string)) : addOutcome :=
  if missingFields req then Rejected MissingFields
  else
    match group with
    | None => Rejected GroupNotFound
    | Some members =>
        if negb (includes members userId) then Rejected NotAuthorized
        else
          let amount := r_amount req in
          let create (processedSplits : list split) :=
            Created (mkExpense userId amount (map stored processedSplits))
                    (filter (fun memberId => negb (String.eqb memberId userId))
                            (map user processedSplits)) in
          let createAdjusted (processedSplits : list split) :=
            match adjustFirst amount processedSplits with
            | Some adjusted => create adjusted
            | None => Rejected (ServerError TypeError)
            end in
          if String.eqb (r_splitType req) "equal" then
            match r_selectedMembers req with
            | _ :: _ =>
                match firstNonMember members (r_selectedMembers req) with
                | Some u => Rejected (NotAMember u)
                | None =>
                    let members := r_selectedMembers req in
                    createAdjusted
                      (map (fun memberId =>
                              mkSplit memberId (toFixed2 (amount / count members)))
                           members)
                end
            | [] =>
                match calculateSplits amount (r_splitType req) members [] with
                | Threw e => Rejected (ServerError (Raised e))
                | Returned processedSplits => create processedSplits
                end
            end
          else if isDetailed (r_splitType req) then
            match r_splits req with
            | None | Some [] => Rejected (MissingSplitDetails (r_splitType req))
            | Some splits =>
                match firstNonMember members (obj_keys splits) with
                | Some u => Rejected (NotAMember u)
                | None =>
                    if String.eqb (r_splitType req) "percentage" then
                      createAdjusted
                        (map (fun '(userId, share) =>
                                mkSplit userId (toFixed2 (amount * share / 100)))
                             splits)
                    else
                      create (map (fun '(userId, share) => mkSplit userId share) splits)
                end
            end
          else Rejected UnknownSplitType
    end.

End WithSelection.

(** What both revisions of [addExpense] keep true of an expense they create. *)
Definition wellFormedCreation
    (req : addRequest) (userId : string) (group : option (list string))
    (e : expense) (notified : list string) : Prop :=
  exists members,
    group = Some members /\ In userId members /\
    paidBy e = userId /\ amount e = r_amount req /\
    incl (map s_user (splits e)) members /\
    (forall s, In s (splits e) -> settled s = false) /\
    ~ In userId notified /\ incl notified members.

(** ** [settleExpense] and [settleSplit] (src/unnamed/part_002, lines 414-521)

    The expense read by [Expense.findById] is an argument ([None] when there
    is none), [new Date()] is the argument [now], and what [expense.save()]
    writes, the notifications created and the answer are the outcome. *)

(** A split as stored, with its settlement timestamp. *)
Record splitRecord : Type := mkSplitRecord { doc : splitDoc; settledAt : option Z }.

Record expenseRecord : Type := mkExpenseRecord {
  x_title : string;
  x_currency : string;
  x_paidBy : string;
  x_amount : Q;
  x_splits : list splitRecord
}.

(** The part of a stored expense the calculators read. *)
Definition expenseOf (x : expenseRecord) : expense :=
  mkExpense (x_paidBy x) (x_amount x) (map doc (x_splits x)).

(** The two notification messages, with the values they interpolate. *)
Inductive notification : Type :=
| ShareSettled (recipient name title : string) (share : Q)
    (* `${name} has settled their share of expense "${title}" (${share})` *)
| PaymentMarked (recipient name title currency : string) (share : Q).
    (* `${name} has marked your payment for expense "${title}"
        (${currency} ${share.toFixed(2)}) as settled` *)

Inductive settleRejection : Type :=
| MissingUserId        (* 400 'Please provide userId for the split to settle' *)
| ExpenseNotFound      (* 404 'Expense not found' *)
| NotPartOfExpense     (* 400 'User is not part of this expense' *)
| OnlyCreator          (* 403 'Only the expense creator can mark splits as settled' *)
| SplitNotFound        (* 404 'User split not found in this expense' *)
| AlreadySettled       (* 400 'This split is already settled' *)
| SettleServerError.   (* 500 'Server error' *)

Record settleOutcome : Type := mkSettleOutcome {
  saved : option expenseRecord;
  created : list notification;
  answer : settleRejection + expenseRecord
}.

Definition rejectSettle (r : settleRejection) : settleOutcome :=
  mkSettleOutcome None [] (inl r).

(** [expense.splits.findIndex(split => split.user.toString() === userId)];
    [None] for -1. *)
Fixpoint findIndex (userId : string) (l : list splitRecord) : option nat :=
  match l with
  | [] => None
  | s :: rest =>
      if String.eqb (s_user (doc s)) userId then Some O
      else option_map S (findIndex userId rest)
  end.

(** [splits[i].settled = true; splits[i].settledAt = now]. *)
Fixpoint markSettled (i : nat) (now : Z) (l : list splitRecord) : list splitRecord :=
  match l, i with
  | [], _ => []
  | s :: rest, O =>
      mkSplitRecord (mkSplitDoc (s_user (doc s)) (s_share (doc s)) true) (Some now) :: rest
  | s :: rest, S i => s :: markSettled i now rest
  end.

Definition withSplits (x : expenseRecord) (l : list splitRecord) : expenseRecord :=
  mkExpenseRecord (x_title x) (x_currency x) (x_paidBy x) (x_amount x) l.

(** [bodyUserId] is the [userId] of the request body, empty when absent;
    [userName] is [User.findById(...).name]. *)
Definition settleExpense (found : option expenseRecord) (bodyUserId requesterId : string)
    (now : Z) (userName : string -> option string) : settleOutcome :=
  match found with
  | None => rejectSettle ExpenseNotFound
  | Some expense =>
      let settlingUserId := if String.eqb bodyUserId "" then requesterId else bodyUserId in
      match findIndex settlingUserId (x_splits expense) with
      | None => rejectSettle NotPartOfExpense
      | Some splitIndex =>
          let expense' := withSplits expense (markSettled splitIndex now (x_splits expense)) in
          if negb (String.eqb (x_paidBy expense) settlingUserId) then
            match userName settlingUserId, nth_error (x_splits expense') splitIndex with
            | Some name, Some s =>
                mkSettleOutcome (Some expense')
                  [ShareSettled (x_paidBy expense) name (x_title expense) (s_share (doc s))]
                  (inr expense')
            | _, _ => mkSettleOutcome (Some expense') [] (inl SettleServerError)
            end
          else mkSettleOutcome (Some expense') [] (inr expense')
      end
  end.

(** [requesterName] is [req.user.name]. *)
Definition settleSplit (found : option expenseRecord)
    (userId requesterId requesterName : string) (now : Z) : settleOutcome :=
  if String.eqb userId "" then rejectSettle MissingUserId
  else
    match found with
    | None => rejectSettle ExpenseNotFound
    | Some expense =>
        if negb (String.eqb (x_paidBy expense) requesterId) then rejectSettle OnlyCreator
        else
          match findIndex userId (x_splits expense) with
          | None => rejectSettle SplitNotFound
          | Some splitIndex =>
              match nth_error (x_splits expense) splitIndex with
              | None => rejectSettle SettleServerError
              | Some s =>
                  if settled (doc s) then rejectSettle AlreadySettled
                  else
                    let expense' :=
                      withSplits expense (markSettled splitIndex now (x_splits expense)) in
                    mkSettleOutcome (Some expense')
                      [PaymentMarked userId requesterName (x_title expense)
                                     (x_currency expense) (toFixed2 (s_share (doc s)))]
                      (inr expense')
              end
          end
    end.

(** ** The currency converter (src/utils/currencyConverter.js)

    The module-level cache and [lastFetchTime] are a state that is passed
    along; [Date.now()] is the argument [currentTime], and the exchange-rate
    service is the argument [api]: the rates it answers for a base currency,
    [None] when the request fails or the answer holds no rates. *)

Record converterState : Type := mkConverterState {
  exchangeRatesCache : object (object Q);
  lastFetchTime : Z
}.

Definition initialConverterState : converterState := mkConverterState [] 0.

(** One hour in milliseconds. *)
Definition CACHE_TTL : Z := 60 * 60 * 1000.

Inductive convertError : Type :=
| FailedToFetch                   (* 'Failed to fetch exchange rates' *)
| RateNotFound (currency : string). (* `Exchange rate not found for ${currency}` *)

Definition fetchExchangeRates (st : converterState) (currentTime : Z)
    (api : string -> option (object Q)) (baseCurrency : string)
    : (convertError + object Q) * converterState :=
  let request :=
    match api baseCurrency with
    | Some rates =>
        (inr rates,
         mkConverterState (obj_set baseCurrency rates (exchangeRatesCache st)) currentTime)
    | None => (inl FailedToFetch, st)
    end in
  match obj_get baseCurrency (exchangeRatesCache st) with
  | Some cached =>
      if (currentTime - lastFetchTime st <? CACHE_TTL)%Z then (inr cached, st) else request
  | None => request
  end.

Definition convertCurrency (st : converterState) (currentTime : Z)
    (api : string -> option (object Q)) (amount : Q) (fromCurrency toCurrency : string)
    : (convertError + Q) * converterState :=
  if String.eqb fromCurrency toCurrency then (inr amount, st)
  else
    match fetchExchangeRates st currentTime api fromCurrency with
    | (inl e, st') => (inl e, st')
    | (inr rates, st') =>
        match obj_get toCurrency rates with
        | Some rate =>
            if Qeq_bool rate 0 then (inl (RateNotFound toCurrency), st')
            else (inr (toFixed2 (amount * rate)), st')
        | None => (inl (RateNotFound toCurrency), st')
        end
    end.

(** Linear arithmetic with division by the constant 100 written as a product. *)
Ltac lra100 := unfold Qdiv in *; change (/ 100) with (1 # 100) in *; lra.

(** * Properties *)

(** ** Comparisons *)

Lemma Qlt_bool_true (x y : Q) : Qlt_bool x y = true <-> x < y.
Proof.
  unfold Qlt_bool. rewrite negb_true_iff.
  split; intro H.
  - apply Qnot_le_lt. intro Hle. apply Qle_bool_iff in Hle. congruence.
  - destruct (Qle_bool y x) eqn:E; [|reflexivity].
    apply Qle_bool_iff in E. exfalso. apply (Qlt_not_le _ _ H E).
Qed.

Lemma Qlt_bool_false (x y : Q) : Qlt_bool x y = false <-> y <= x.
Proof.
  unfold Qlt_bool. rewrite negb_false_iff. apply Qle_bool_iff.
Qed.

Lemma Qle_bool_false (x y : Q) : Qle_bool x y = false <-> y < x.
Proof.
  split; intro H.
  - apply Qnot_le_lt. intro Hle. apply Qle_bool_iff in Hle. congruence.
  - destruct (Qle_bool x y) eqn:E; [|reflexivity].
    apply Qle_bool_iff in E. exfalso. apply (Qlt_not_le _ _ H E).
Qed.

Lemma Qlt_bool_comp (x x' y y' : Q) : x == x' -> y == y' -> Qlt_bool x y = Qlt_bool x' y'.
Proof.
  intros Hx Hy.
  destruct (Qlt_bool x y) eqn:E; symmetry.
  - apply Qlt_bool_true. apply Qlt_bool_true in E. rewrite <- Hx, <- Hy. exact E.
  - apply Qlt_bool_false. apply Qlt_bool_false in E. rewrite <- Hx, <- Hy. exact E.
Qed.

(** ** Rounding to two decimals *)

Lemma Qfloor_unique (q : Q) (m : Z) :
  inject_Z m <= q -> q < inject_Z m + 1 -> Qfloor q = m.
Proof.
  intros Hlo Hhi.
  assert (H1 : (m <= Qfloor q)%Z).
  { rewrite <- (Qfloor_Z m). apply Qfloor_resp_le. exact Hlo. }
  assert (H2 : (Qfloor q < m + 1)%Z).
  { rewrite Zlt_Qlt. eapply Qle_lt_trans; [apply Qfloor_le|].
    rewrite inject_Z_plus. exact Hhi. }
  lia.
Qed.

Lemma cents_bounds (x : Q) :
  inject_Z (cents x) <= x * 100 + (1 # 2) /\ x * 100 + (1 # 2) < inject_Z (cents x) + 1.
Proof.
  unfold cents. split; [apply Qfloor_le|].
  pose proof (Qlt_floor (x * 100 + (1 # 2))) as H.
  rewrite inject_Z_plus in H. exact H.
Qed.

Lemma toFixed2_nonneg_eq (x : Q) : 0 <= x -> toFixed2 x == inject_Z (cents x) / 100.
Proof.
  intro H. unfold toFixed2.
  replace (Qlt_bool x 0) with false by (symmetry; apply Qlt_bool_false; exact H).
  apply Qred_correct.
Qed.

Lemma toFixed2_neg_eq (x : Q) : x < 0 -> toFixed2 x == - (inject_Z (cents (- x)) / 100).
Proof.
  intro H. unfold toFixed2.
  replace (Qlt_bool x 0) with true by (symmetry; apply Qlt_bool_true; exact H).
  apply Qred_correct.
Qed.

Lemma toFixed2_comp (x y : Q) : x == y -> toFixed2 x = toFixed2 y.
Proof.
  intro H. unfold toFixed2.
  rewrite (Qlt_bool_comp x y 0 0 H (Qeq_refl 0)).
  assert (Hc : cents x = cents y).
  { unfold cents. apply Qfloor_comp. rewrite H. reflexivity. }
  assert (Hn : cents (- x) = cents (- y)).
  { unfold cents. apply Qfloor_comp. rewrite H. reflexivity. }
  rewrite Hc, Hn. reflexivity.
Qed.

Lemma toFixed2_is_cents (x : Q) : is_cents (toFixed2 x).
Proof.
  destruct (Qlt_le_dec x 0) as [H | H].
  - exists (- cents (- x))%Z. rewrite (toFixed2_neg_eq x H).
    rewrite inject_Z_opp. field.
  - exists (cents x). apply toFixed2_nonneg_eq. exact H.
Qed.

Lemma cents_of_cents (n : Z) : cents (inject_Z n / 100) = n.
Proof.
  unfold cents. apply Qfloor_unique.
  - assert (E : inject_Z n / 100 * 100 == inject_Z n) by field. rewrite E. lra.
  - assert (E : inject_Z n / 100 * 100 == inject_Z n) by field. rewrite E. lra.
Qed.

Lemma toFixed2_of_cents (x : Q) : is_cents x -> toFixed2 x == x.
Proof.
  intros [n Hn].
  destruct (Qlt_le_dec x 0) as [H | H].
  - rewrite (toFixed2_neg_eq x H).
    assert (E : - x == inject_Z (- n) / 100).
    { rewrite Hn, inject_Z_opp. field. }
    assert (Hc : cents (- x) = (- n)%Z).
    { rewrite <- (cents_of_cents (- n)). unfold cents. apply Qfloor_comp.
      rewrite E. reflexivity. }
    rewrite Hc, inject_Z_opp, Hn. field.
  - rewrite (toFixed2_nonneg_eq x H).
    assert (Hc : cents x = n).
    { rewrite <- (cents_of_cents n). unfold cents. apply Qfloor_comp.
      rewrite Hn. reflexivity. }
    rewrite Hc, Hn. reflexivity.
Qed.

Lemma toFixed2_error (x : Q) : Qabs (toFixed2 x - x) <= 1 # 200.
Proof.
  apply Qabs_Qle_condition.
  destruct (Qlt_le_dec x 0) as [H | H].
  - rewrite (toFixed2_neg_eq x H).
    destruct (cents_bounds (- x)) as [Hlo Hhi].
    split; lra100.
  - rewrite (toFixed2_nonneg_eq x H).
    destruct (cents_bounds x) as [Hlo Hhi].
    split; lra100.
Qed.

Lemma toFixed2_nonneg (x : Q) : 0 <= x -> 0 <= toFixed2 x.
Proof.
  intro H. rewrite (toFixed2_nonneg_eq x H).
  assert (Hc : (0 <= cents x)%Z).
  { unfold cents. rewrite <- (Qfloor_Z 0). apply Qfloor_resp_le.
    change (inject_Z 0) with 0. lra. }
  rewrite Zle_Qle in Hc. change (inject_Z 0) with 0 in Hc. lra100.
Qed.

(** A magnitude below half a hundredth rounds to zero. *)
Lemma toFixed2_small (x : Q) : Qabs x < 1 # 200 -> toFixed2 x == 0.
Proof.
  intro H.
  assert (Hb : - (1 # 200) < x /\ x < 1 # 200).
  { apply Qabs_Qlt_condition. exact H. }
  destruct Hb as [Hlo Hhi].
  destruct (Qlt_le_dec x 0) as [Hn | Hp].
  - rewrite (toFixed2_neg_eq x Hn).
    assert (Hc : cents (- x) = 0%Z).
    { unfold cents. apply Qfloor_unique; change (inject_Z 0) with 0; lra. }
    rewrite Hc. reflexivity.
  - rewrite (toFixed2_nonneg_eq x Hp).
    assert (Hc : cents x = 0%Z).
    { unfold cents. apply Qfloor_unique; change (inject_Z 0) with 0; lra. }
    rewrite Hc. reflexivity.
Qed.

(** ** The allocator *)

Lemma count_cons (u : string) (us : list string) : count (u :: us) == 1 + count us.
Proof.
  unfold count. cbn [List.length]. rewrite Nat2Z.inj_succ, <- Z.add_1_l, inject_Z_plus.
  reflexivity.
Qed.

Lemma count_nonneg (us : list string) : 0 <= count us.
Proof.
  unfold count. change 0 with (inject_Z 0). rewrite <- Zle_Qle. lia.
Qed.

Lemma count_is_int (us : list string) : exists n : Z, count us == inject_Z n.
Proof. exists (Z.of_nat (List.length us)). reflexivity. Qed.

Lemma mapi_from_succ {A B : Type} (f : A -> nat -> B) (g : A -> B) :
  (forall x i, f x (S i) = g x) ->
  forall l i, mapi_from (S i) f l = map g l.
Proof.
  intros Hfg l. induction l as [| x l IH]; intro i; cbn.
  - reflexivity.
  - rewrite Hfg, IH. reflexivity.
Qed.

Lemma sumShares_const (p : Q) (us : list string) :
  sumShares (map (fun u => mkSplit u p) us) == p * count us.
Proof.
  induction us as [| u us IH].
  - change (0 == p * 0). ring.
  - rewrite count_cons. cbn [map sumShares fold_right share].
    fold (sumShares (map (fun u => mkSplit u p) us)). rewrite IH. ring.
Qed.

Lemma is_cents_plus (x y : Q) : is_cents x -> is_cents y -> is_cents (x + y).
Proof.
  intros [n Hn] [m Hm]. exists (n + m)%Z.
  rewrite Hn, Hm, inject_Z_plus. field.
Qed.

Lemma is_cents_opp (x : Q) : is_cents x -> is_cents (- x).
Proof.
  intros [n Hn]. exists (- n)%Z. rewrite Hn, inject_Z_opp. field.
Qed.

Lemma is_cents_minus (x y : Q) : is_cents x -> is_cents y -> is_cents (x - y).
Proof.
  intros Hx Hy. unfold Qminus. apply is_cents_plus; [exact Hx | apply is_cents_opp; exact Hy].
Qed.

Lemma is_cents_mult_int (x : Q) (k : Z) : is_cents x -> is_cents (x * inject_Z k).
Proof.
  intros [n Hn]. exists (n * k)%Z. rewrite Hn, inject_Z_mult. field.
Qed.

Lemma is_cents_comp (x y : Q) : x == y -> is_cents x -> is_cents y.
Proof.
  intros E [n Hn]. exists n. rewrite <- E. exact Hn.
Qed.

(** The shape of what [calculateEqualSplit] returns on a non-empty list: the
    first share, then the rounded per-user share for everybody else. *)
Lemma calculateEqualSplit_cons (amount : Q) (u : string) (us : list string) :
  let p := toFixed2 (amount / count (u :: us)) in
  let d := amount - p * count (u :: us) in
  Helpers.calculateEqualSplit amount (u :: us) =
    mkSplit u (if negb (Qeq_bool d 0) then toFixed2 (p + d) else p)
    :: map (fun v => mkSplit v p) us.
Proof.
  intros p d. unfold Helpers.calculateEqualSplit, mapi.
  cbn [mapi_from Nat.eqb]. f_equal.
  apply mapi_from_succ. intros x i. reflexivity.
Qed.

(** C1 (amended).  For an [equal] allocation of a positive amount that is a
    whole number of cents among a non-empty list of participants, the helper
    revision returns one split per participant, in order; every participant
    after the first gets the same share, the amount divided by the head count
    rounded to two decimals (a whole number of cents at most half a cent from
    the quotient); the first gets that share plus the entire remainder
    (amount minus the share times the head count); and the shares sum to the
    amount exactly. *)
Theorem equal_split_reconciles (amount : Q) (users : list string) (details : object Q) :
  0 < amount -> users <> [] -> is_cents amount ->
  exists perUserAmount first rest,
    Helpers.calculateSplits amount "equal" users details = Returned (first :: rest) /\
    List.length (first :: rest) = List.length users /\
    map user (first :: rest) = users /\
    roundsTo (amount / count users) perUserAmount /\
    (forall s, In s rest -> share s == perUserAmount) /\
    share first == perUserAmount + (amount - perUserAmount * count users) /\
    sumShares (first :: rest) == amount.
Proof.
  intros Hpos Hne Hc.
  destruct users as [| u us]; [congruence|].
  unfold Helpers.calculateSplits.
  replace (Qle_bool amount 0) with false by (symmetry; apply Qle_bool_false; exact Hpos).
  cbn [List.length Nat.eqb String.eqb Ascii.eqb Bool.eqb].
  rewrite calculateEqualSplit_cons.
  set (p := toFixed2 (amount / count (u :: us))).
  set (d := amount - p * count (u :: us)).
  assert (Hfirst : (if negb (Qeq_bool d 0) then toFixed2 (p + d) else p) == p + d).
  { destruct (Qeq_bool d 0) eqn:E; cbn [negb].
    - apply Qeq_bool_iff in E. rewrite E. ring.
    - apply toFixed2_of_cents. apply is_cents_plus; [apply toFixed2_is_cents|].
      subst d. apply is_cents_minus; [exact Hc|].
      destruct (count_is_int (u :: us)) as [k Hk].
      apply (is_cents_comp (p * inject_Z k)); [rewrite Hk; reflexivity|].
      apply is_cents_mult_int. apply toFixed2_is_cents. }
  exists p. eexists. eexists. split; [reflexivity|].
  split; [cbn [List.length]; rewrite length_map; reflexivity|].
  split.
  { cbn [map user]. f_equal. rewrite map_map. cbn [user]. apply map_id. }
  split; [split; [apply toFixed2_is_cents | apply toFixed2_error]|].
  split.
  { intros s Hs. apply in_map_iff in Hs. destruct Hs as [v [Hv _]]. subst s. reflexivity. }
  split; [exact Hfirst|].
  cbn [sumShares fold_right share].
  fold (sumShares (map (fun v => mkSplit v p) us)).
  rewrite Hfirst, sumShares_const. subst d. rewrite count_cons. ring.
Qed.

Lemma equal_split_reconciles_witness :
  exists perUserAmount first rest,
    Helpers.calculateSplits 100 "equal" ["a"; "b"; "c"] [] = Returned (first :: rest) /\
    List.length (first :: rest) = List.length ["a"; "b"; "c"] /\
    map user (first :: rest) = ["a"; "b"; "c"] /\
    roundsTo (100 / count ["a"; "b"; "c"]) perUserAmount /\
    (forall s, In s rest -> share s == perUserAmount) /\
    share first == perUserAmount + (100 - perUserAmount * count ["a"; "b"; "c"]) /\
    sumShares (first :: rest) == 100.
Proof.
  apply (equal_split_reconciles 100 ["a"; "b"; "c"] []).
  - reflexivity.
  - discriminate.
  - exists 10000%Z. reflexivity.
Defined.

(** C1, as stated, fails: with an amount that is not a whole number of cents
    the helper revision returns rounded shares that cannot sum to it, and the
    inline revision assigns no remainder at all. *)
Lemma equal_split_counterexample :
  (exists splits,
     Helpers.calculateSplits (10001 # 1000) "equal" ["a"; "b"] [] = Returned splits /\
     ~ sumShares splits == 10001 # 1000) /\
  (exists splits,
     Inline.calculateSplits 100 "equal" ["a"; "b"; "c"] [] = Returned splits /\
     ~ sumShares splits == 100).
Proof.
  split; eexists; (split; [vm_compute; reflexivity | vm_compute; discriminate]).
Qed.

Lemma percentageLoop_returned (amount : Q) (entries : object Q) :
  forall total splits total' splits',
    Helpers.percentageLoop amount entries total splits = Returned (total', splits') ->
    total' = fold_left (fun sum val => sum + val) (obj_values entries) total /\
    splits' = (splits ++ percentageSplits amount entries)%list /\
    nonnegValues entries.
Proof.
  induction entries as [| [k p] rest IH]; intros total splits total' splits' H.
  - cbn in H. injection H as <- <-. cbn. rewrite app_nil_r.
    repeat split. intros k v [].
  - cbn [Helpers.percentageLoop] in H.
    destruct (Qlt_bool p 0) eqn:E; [discriminate|].
    apply IH in H. destruct H as [Ht [Hs Hn]].
    split; [exact Ht|]. split.
    + rewrite Hs, <- app_assoc. reflexivity.
    + intros k' v [Heq | Hin].
      * injection Heq as <- <-. apply Qlt_bool_false. exact E.
      * apply (Hn k' v Hin).
Qed.

Lemma percentageLoop_nonneg (amount : Q) (entries : object Q) :
  nonnegValues entries ->
  forall total splits,
    Helpers.percentageLoop amount entries total splits =
      Returned (fold_left (fun sum val => sum + val) (obj_values entries) total,
                (splits ++ percentageSplits amount entries)%list).
Proof.
  induction entries as [| [k p] rest IH]; intros Hn total splits.
  - cbn. rewrite app_nil_r. reflexivity.
  - cbn [Helpers.percentageLoop].
    replace (Qlt_bool p 0) with false
      by (symmetry; apply Qlt_bool_false; apply (Hn k p); left; reflexivity).
    rewrite IH.
    + cbn. rewrite <- app_assoc. reflexivity.
    + intros k' v Hin. apply (Hn k' v). right. exact Hin.
Qed.

Lemma exactLoop_returned (entries : object Q) :
  forall total splits total' splits',
    Helpers.exactLoop entries total splits = Returned (total', splits') ->
    total' = fold_left (fun sum val => sum + val) (obj_values entries) total /\
    splits' = (splits ++ exactSplits entries)%list /\
    nonnegValues entries.
Proof.
  induction entries as [| [k p] rest IH]; intros total splits total' splits' H.
  - cbn in H. injection H as <- <-. cbn. rewrite app_nil_r.
    repeat split. intros k v [].
  - cbn [Helpers.exactLoop] in H.
    destruct (Qlt_bool p 0) eqn:E; [discriminate|].
    apply IH in H. destruct H as [Ht [Hs Hn]].
    split; [exact Ht|]. split.
    + rewrite Hs, <- app_assoc. reflexivity.
    + intros k' v [Heq | Hin].
      * injection Heq as <- <-. apply Qlt_bool_false. exact E.
      * apply (Hn k' v Hin).
Qed.

Lemma exactLoop_nonneg (entries : object Q) :
  nonnegValues entries ->
  forall total splits,
    Helpers.exactLoop entries total splits =
      Returned (fold_left (fun sum val => sum + val) (obj_values entries) total,
                (splits ++ exactSplits entries)%list).
Proof.
  induction entries as [| [k p] rest IH]; intros Hn total splits.
  - cbn. rewrite app_nil_r. reflexivity.
  - cbn [Helpers.exactLoop].
    replace (Qlt_bool p 0) with false
      by (symmetry; apply Qlt_bool_false; apply (Hn k p); left; reflexivity).
    rewrite IH.
    + cbn. rewrite <- app_assoc. reflexivity.
    + intros k' v Hin. apply (Hn k' v). right. exact Hin.
Qed.

Lemma percentageSplits_users (amount : Q) (entries : object Q) :
  map user (percentageSplits amount entries) = obj_keys entries.
Proof.
  induction entries as [| [k p] rest IH]; cbn; [reflexivity|].
  f_equal. exact IH.
Qed.

Lemma exactSplits_users (entries : object Q) :
  map user (exactSplits entries) = obj_keys entries.
Proof.
  induction entries as [| [k p] rest IH]; cbn; [reflexivity|].
  f_equal. exact IH.
Qed.

Lemma calculatePercentageSplit_returned (amount : Q) (details : object Q) (splits : list split) :
  Helpers.calculatePercentageSplit amount details = Returned splits ->
  splits = percentageSplits amount details /\ nonnegValues details /\
  Qabs (sumValues details - 100) <= 1 # 100.
Proof.
  unfold Helpers.calculatePercentageSplit. intro H.
  destruct (Helpers.percentageLoop amount details 0 []) as [e | [total splits']] eqn:E;
    [discriminate|].
  apply percentageLoop_returned in E. destruct E as [Ht [Hs Hn]].
  destruct (Qlt_bool (1 # 100) (Math_abs (total - 100))) eqn:Ec; [discriminate|].
  injection H as <-. subst total. cbn [app] in Hs.
  split; [exact Hs|]. split; [exact Hn|].
  apply Qlt_bool_false in Ec. exact Ec.
Qed.

Lemma validateExactSplit_returned (amount : Q) (details : object Q) (splits : list split) :
  Helpers.validateExactSplit amount details = Returned splits ->
  splits = exactSplits details /\ nonnegValues details /\
  Qabs (sumValues details - amount) <= 1 # 100.
Proof.
  unfold Helpers.validateExactSplit. intro H.
  destruct (Helpers.exactLoop details 0 []) as [e | [total splits']] eqn:E;
    [discriminate|].
  apply exactLoop_returned in E. destruct E as [Ht [Hs Hn]].
  destruct (Qlt_bool (1 # 100) (Math_abs (total - amount))) eqn:Ec; [discriminate|].
  injection H as <-. subst total. cbn [app] in Hs.
  split; [exact Hs|]. split; [exact Hn|].
  apply Qlt_bool_false in Ec. exact Ec.
Qed.

(** C2, at the failing input: both revisions return the three rounded shares
    33.33, which sum to 99.99; the cent that is missing from 100 is assigned
    to nobody. *)
Theorem percentage_split_leaves_remainder :
  let details := [("a", 33333 # 1000); ("b", 33333 # 1000); ("c", 33334 # 1000)] in
  let returned := [mkSplit "a" (3333 # 100); mkSplit "b" (3333 # 100); mkSplit "c" (3333 # 100)] in
  sumValues details == 100 /\
  Helpers.calculateSplits 100 "percentage" ["a"; "b"; "c"] details = Returned returned /\
  Inline.calculateSplits 100 "percentage" ["a"; "b"; "c"] details = Returned returned /\
  sumShares returned == 9999 # 100.
Proof.
  cbv zeta. repeat split; vm_compute; reflexivity.
Qed.

Lemma users_nonempty_eqb (users : list string) :
  users <> [] -> Nat.eqb (List.length users) 0 = false.
Proof. destruct users; [congruence | reflexivity]. Qed.

(** C8 (amended).  A [percentage] allocation with a positive amount, a
    non-empty participant list and no negative percentage, whose percentages
    deviate from 100 by more than 0.01, throws the total-percentage error and
    returns no splits; in the helper revision the error carries the invalid
    total. *)
Theorem percentage_total_rejected (amount : Q) (users : list string) (details : object Q) :
  0 < amount -> users <> [] -> nonnegValues details ->
  1 # 100 < Qabs (sumValues details - 100) ->
  Helpers.calculateSplits amount "percentage" users details
    = Threw (TotalPercentageOf (sumValues details)) /\
  Inline.calculateSplits amount "percentage" users details = Threw TotalPercentage.
Proof.
  intros Hpos Hne Hnn Hdev.
  apply Qle_bool_false in Hpos. apply users_nonempty_eqb in Hne.
  apply Qlt_bool_true in Hdev.
  unfold Helpers.calculateSplits, Inline.calculateSplits.
  rewrite Hpos, Hne. cbn [String.eqb Ascii.eqb Bool.eqb].
  unfold Helpers.calculatePercentageSplit.
  rewrite (percentageLoop_nonneg amount details Hnn).
  fold (sumValues details). unfold Math_abs. rewrite Hdev.
  split; reflexivity.
Qed.

Lemma percentage_total_rejected_witness :
  Helpers.calculateSplits 100 "percentage" ["a"; "b"] [("a", 40); ("b", 50)]
    = Threw (TotalPercentageOf (sumValues [("a", 40); ("b", 50)])) /\
  Inline.calculateSplits 100 "percentage" ["a"; "b"] [("a", 40); ("b", 50)]
    = Threw TotalPercentage.
Proof.
  apply (percentage_total_rejected 100 ["a"; "b"] [("a", 40); ("b", 50)]).
  - reflexivity.
  - discriminate.
  - intros k v [H | [H | []]]; injection H as _ <-; discriminate.
  - reflexivity.
Defined.

(** C8, as stated, fails: percentages that sum to 90 with a negative entry
    are rejected by the helper revision for the entry, not for the total. *)
Lemma percentage_total_counterexample :
  1 # 100 < Qabs (sumValues [("a", - (10)); ("b", 100)] - 100) /\
  Helpers.calculateSplits 100 "percentage" ["a"; "b"] [("a", - (10)); ("b", 100)]
    = Threw (InvalidPercentageFor "a").
Proof.
  split; reflexivity.
Qed.

Lemma amount_div_count_nonneg (amount : Q) (users : list string) :
  0 <= amount -> 0 <= amount / count users.
Proof.
  intro H. unfold Qdiv. apply Qmult_le_0_compat; [exact H|].
  apply Qinv_le_0_compat. apply count_nonneg.
Qed.

Lemma map_user_const (p : Q) (us : list string) :
  map user (map (fun v => mkSplit v p) us) = us.
Proof.
  rewrite map_map. cbn [user]. apply map_id.
Qed.

Lemma Helpers_returned
    (amount : Q) (splitType : string) (users : list string) (details : object Q)
    (splits : list split) :
  Helpers.calculateSplits amount splitType users details = Returned splits ->
  (splitType = "equal" /\ map user splits = users /\
   forall s, In s (tl splits) -> 0 <= share s) \/
  ((splitType = "percentage" \/ splitType = "exact") /\
   map user splits = obj_keys details /\
   forall s, In s splits -> 0 <= share s).
Proof.
  unfold Helpers.calculateSplits. intro H.
  destruct (Qle_bool amount 0) eqn:Ea; [discriminate|].
  apply Qle_bool_false in Ea.
  destruct (Nat.eqb (List.length users) 0) eqn:En; [discriminate|].
  destruct (String.eqb splitType "equal") eqn:E1.
  { apply String.eqb_eq in E1. left. injection H as <-.
    destruct users as [| u us]; [discriminate|].
    rewrite calculateEqualSplit_cons. cbn [map user tl].
    rewrite map_user_const.
    split; [exact E1|]. split; [reflexivity|].
    intros s Hs. apply in_map_iff in Hs. destruct Hs as [v [<- _]]. cbn [share].
    apply toFixed2_nonneg. apply amount_div_count_nonneg. lra. }
  destruct (String.eqb splitType "percentage") eqn:E2.
  { apply String.eqb_eq in E2. right.
    apply calculatePercentageSplit_returned in H. destruct H as [-> [Hn _]].
    split; [left; exact E2|]. split; [apply percentageSplits_users|].
    intros s Hs. apply in_map_iff in Hs. destruct Hs as [[k p] [<- Hin]]. cbn [share].
    apply toFixed2_nonneg. unfold Qdiv.
    apply Qmult_le_0_compat; [|discriminate].
    apply Qmult_le_0_compat; [lra | apply (Hn k p Hin)]. }
  destruct (String.eqb splitType "exact") eqn:E3; [|discriminate].
  apply String.eqb_eq in E3. right.
  apply validateExactSplit_returned in H. destruct H as [-> [Hn _]].
  split; [right; exact E3|]. split; [apply exactSplits_users|].
  intros s Hs. apply in_map_iff in Hs. destruct Hs as [[k p] [<- Hin]]. cbn [share].
  apply (Hn k p Hin).
Qed.

Lemma Inline_returned
    (amount : Q) (splitType : string) (users : list string) (details : object Q)
    (splits : list split) :
  Inline.calculateSplits amount splitType users details = Returned splits ->
  (splitType = "equal" /\ map user splits = users /\
   forall s, In s splits -> 0 <= share s) \/
  ((splitType = "percentage" \/ splitType = "exact") /\
   map user splits = obj_keys details).
Proof.
  unfold Inline.calculateSplits. intro H.
  destruct (Qle_bool amount 0) eqn:Ea; [discriminate|].
  apply Qle_bool_false in Ea.
  destruct (Nat.eqb (List.length users) 0) eqn:En; [discriminate|].
  destruct (String.eqb splitType "equal") eqn:E1.
  { apply String.eqb_eq in E1. left. injection H as <-.
    split; [exact E1|]. split; [apply map_user_const|].
    intros s Hs. apply in_map_iff in Hs. destruct Hs as [v [<- _]]. cbn [share].
    apply toFixed2_nonneg. apply amount_div_count_nonneg. lra. }
  destruct (String.eqb splitType "percentage") eqn:E2.
  { apply String.eqb_eq in E2. right.
    destruct (Qlt_bool (1 # 100) (Math_abs (sumValues details - 100))); [discriminate|].
    injection H as <-. split; [left; exact E2|].
    rewrite map_map. unfold obj_keys. apply map_ext. intros [k p]. reflexivity. }
  destruct (String.eqb splitType "exact") eqn:E3; [|discriminate].
  apply String.eqb_eq in E3. right.
  destruct (Qlt_bool (1 # 100) (Math_abs (sumValues details - amount))); [discriminate|].
  injection H as <-. split; [right; exact E3|].
  rewrite map_map. unfold obj_keys. apply map_ext. intros [k p]. reflexivity.
Qed.

(** C9 (amended).  A successful allocation returns one split per entry of the
    collection it iterates, in order: the participants list for [equal], the
    keys of the details for [percentage] and [exact].  In the helper revision
    every [percentage] or [exact] share is non-negative, and so is every
    [equal] share after the first; in the inline revision every [equal] share
    is non-negative. *)
Theorem allocation_participants_and_signs
    (amount : Q) (splitType : string) (users : list string) (details : object Q)
    (splits : list split) :
  (Helpers.calculateSplits amount splitType users details = Returned splits ->
   (splitType = "equal" /\ map user splits = users /\
    forall s, In s (tl splits) -> 0 <= share s) \/
   ((splitType = "percentage" \/ splitType = "exact") /\
    map user splits = obj_keys details /\
    forall s, In s splits -> 0 <= share s)) /\
  (Inline.calculateSplits amount splitType users details = Returned splits ->
   (splitType = "equal" /\ map user splits = users /\
    forall s, In s splits -> 0 <= share s) \/
   ((splitType = "percentage" \/ splitType = "exact") /\
    map user splits = obj_keys details)).
Proof.
  split; [apply Helpers_returned | apply Inline_returned].
Qed.

Lemma allocation_participants_and_signs_witness :
  ("percentage" = "equal" /\
   map user [mkSplit "a" 60; mkSplit "b" 40] = ["a"; "b"; "c"] /\
   forall s, In s (tl [mkSplit "a" 60; mkSplit "b" 40]) -> 0 <= share s) \/
  (("percentage" = "percentage" \/ "percentage" = "exact") /\
   map user [mkSplit "a" 60; mkSplit "b" 40] = obj_keys [("a", 60); ("b", 40)] /\
   forall s, In s [mkSplit "a" 60; mkSplit "b" 40] -> 0 <= share s).
Proof.
  apply (proj1 (allocation_participants_and_signs
                  100 "percentage" ["a"; "b"; "c"] [("a", 60); ("b", 40)]
                  [mkSplit "a" 60; mkSplit "b" 40])).
  reflexivity.
Defined.

(** C9, as stated, fails: a participant who is absent from the details gets no
    split in a successful [percentage] allocation, and the first share of a
    successful [equal] allocation can be negative. *)
Lemma allocation_counterexample :
  (Helpers.calculateSplits 100 "percentage" ["a"; "b"] [("a", 100)]
     = Returned [mkSplit "a" 100] /\
   In "b" ["a"; "b"] /\ ~ In "b" (map user [mkSplit "a" 100])) /\
  (exists first rest,
     Helpers.calculateSplits (6 # 100) "equal"
       ["a"; "b"; "c"; "d"; "e"; "f"; "g"; "h"; "i"; "j"] [] = Returned (first :: rest) /\
     share first < 0).
Proof.
  split.
  - split; [reflexivity|]. split; [right; left; reflexivity|].
    intros [H | []]. discriminate.
  - eexists. eexists. split; [vm_compute; reflexivity | reflexivity].
Qed.

(** C10.  For [percentage] and [exact], in both revisions, the participants
    of the returned splits are the keys of the details, in order, and the
    result is the same for any two non-empty participant lists; and splits
    are returned, one per key of the details, whenever the amount is
    positive, no entry of the details is negative and the entries total 100
    ([percentage]) or the amount ([exact]), whoever the participants are. *)
Theorem details_decide_participants
    (amount : Q) (splitType : string) (users users' : list string) (details : object Q) :
  splitType = "percentage" \/ splitType = "exact" ->
  users <> [] -> users' <> [] ->
  (forall splits,
     Helpers.calculateSplits amount splitType users details = Returned splits ->
     map user splits = obj_keys details) /\
  (forall splits,
     Inline.calculateSplits amount splitType users details = Returned splits ->
     map user splits = obj_keys details) /\
  Helpers.calculateSplits amount splitType users details
    = Helpers.calculateSplits amount splitType users' details /\
  Inline.calculateSplits amount splitType users details
    = Inline.calculateSplits amount splitType users' details /\
  (0 < amount -> nonnegValues details ->
   sumValues details == (if String.eqb splitType "percentage" then 100 else amount) ->
   exists splits splits',
     Helpers.calculateSplits amount splitType users details = Returned splits /\
     Inline.calculateSplits amount splitType users details = Returned splits' /\
     map user splits = obj_keys details /\
     map user splits' = obj_keys details).
Proof.
  intros Hty Hne Hne'.
  assert (Hneq : splitType <> "equal").
  { destruct Hty as [-> | ->]; discriminate. }
  assert (Hh : forall splits,
             Helpers.calculateSplits amount splitType users details = Returned splits ->
             map user splits = obj_keys details).
  { intros splits H.
    destruct (Helpers_returned amount splitType users details splits H)
      as [[E _] | [_ [Hk _]]]; [contradiction | exact Hk]. }
  assert (Hi : forall splits,
             Inline.calculateSplits amount splitType users details = Returned splits ->
             map user splits = obj_keys details).
  { intros splits H.
    destruct (Inline_returned amount splitType users details splits H)
      as [[E _] | [_ Hk]]; [contradiction | exact Hk]. }
  split; [exact Hh|]. split; [exact Hi|].
  split; [|split].
  - unfold Helpers.calculateSplits.
    rewrite (users_nonempty_eqb users Hne), (users_nonempty_eqb users' Hne').
    apply String.eqb_neq in Hneq. rewrite Hneq. reflexivity.
  - unfold Inline.calculateSplits.
    rewrite (users_nonempty_eqb users Hne), (users_nonempty_eqb users' Hne').
    apply String.eqb_neq in Hneq. rewrite Hneq. reflexivity.
  - intros Hpos Hnn Htot.
    assert (Hret : exists splits splits',
               Helpers.calculateSplits amount splitType users details = Returned splits /\
               Inline.calculateSplits amount splitType users details = Returned splits').
    { unfold Helpers.calculateSplits, Inline.calculateSplits.
      replace (Qle_bool amount 0) with false
        by (symmetry; apply Qle_bool_false; exact Hpos).
      rewrite (users_nonempty_eqb users Hne).
      destruct Hty as [-> | ->]; cbn [String.eqb Ascii.eqb Bool.eqb] in *.
      - unfold Helpers.calculatePercentageSplit.
        rewrite (percentageLoop_nonneg amount details Hnn).
        fold (sumValues details). unfold Math_abs.
        replace (Qlt_bool (1 # 100) (Qabs (sumValues details - 100))) with false.
        + eexists. eexists. split; reflexivity.
        + symmetry. apply Qlt_bool_false.
          assert (E : sumValues details - 100 == 0) by (rewrite Htot; ring).
          rewrite E. discriminate.
      - unfold Helpers.validateExactSplit.
        rewrite (exactLoop_nonneg details Hnn).
        fold (sumValues details). unfold Math_abs.
        replace (Qlt_bool (1 # 100) (Qabs (sumValues details - amount))) with false.
        + eexists. eexists. split; reflexivity.
        + symmetry. apply Qlt_bool_false.
          assert (E : sumValues details - amount == 0) by (rewrite Htot; ring).
          rewrite E. discriminate. }
    destruct Hret as [splits [splits' [H1 H2]]].
    exists splits, splits'.
    split; [exact H1|]. split; [exact H2|].
    split; [apply Hh; exact H1 | apply Hi; exact H2].
Qed.

Lemma details_decide_participants_witness :
  exists splits splits',
    Helpers.calculateSplits 100 "percentage" ["a"; "c"] [("a", 60); ("b", 40)]
      = Returned splits /\
    Inline.calculateSplits 100 "percentage" ["a"; "c"] [("a", 60); ("b", 40)]
      = Returned splits' /\
    map user splits = ["a"; "b"] /\
    map user splits' = ["a"; "b"] /\
    Helpers.calculateSplits 100 "percentage" ["z"] [("a", 60); ("b", 40)]
      = Returned splits /\
    Inline.calculateSplits 100 "percentage" ["z"] [("a", 60); ("b", 40)]
      = Returned splits'.
Proof.
  destruct (details_decide_participants
              100 "percentage" ["a"; "c"] ["z"] [("a", 60); ("b", 40)])
    as [_ [_ [Hh [Hi Hret]]]].
  - left. reflexivity.
  - discriminate.
  - discriminate.
  - destruct Hret as [splits [splits' [H1 [H2 [Hk Hk']]]]].
    + reflexivity.
    + intros k v [H | [H | []]]; injection H as _ <-; discriminate.
    + reflexivity.
    + exists splits, splits'.
      split; [exact H1|]. split; [exact H2|].
      split; [exact Hk|]. split; [exact Hk'|].
      split; [rewrite <- Hh; exact H1 | rewrite <- Hi; exact H2].
Defined.

(** ** The balance object *)

Lemma obj_get_set_same {V : Type} (k : string) (v : V) (o : object V) :
  obj_get k (obj_set k v o) = Some v.
Proof.
  induction o as [| [k' v'] rest IH]; cbn.
  - rewrite String.eqb_refl. reflexivity.
  - destruct (String.eqb k k') eqn:E; cbn; rewrite E; [reflexivity | exact IH].
Qed.

Lemma obj_get_set_other {V : Type} (k k' : string) (v : V) (o : object V) :
  k <> k' -> obj_get k (obj_set k' v o) = obj_get k o.
Proof.
  intro Hne. induction o as [| [k0 v0] rest IH]; cbn.
  - apply String.eqb_neq in Hne. rewrite Hne. reflexivity.
  - destruct (String.eqb k' k0) eqn:E; cbn.
    + apply String.eqb_eq in E. subst k0.
      apply String.eqb_neq in Hne. rewrite Hne. reflexivity.
    + destruct (String.eqb k k0); [reflexivity | exact IH].
Qed.

Lemma addTo_get (X k : string) (x q : Q) (o : object number) :
  obj_get X o = Some (Num q) ->
  exists q', obj_get X (addTo k x o) = Some (Num q') /\
             q' == q + (if String.eqb k X then x else 0).
Proof.
  intro H. unfold addTo.
  destruct (String.eqb k X) eqn:E.
  - apply String.eqb_eq in E. subst k. rewrite H. cbn [number_add].
    rewrite obj_get_set_same. exists (q + x). split; reflexivity.
  - apply String.eqb_neq in E.
    assert (Hne : X <> k) by congruence.
    exists q. split; [|ring].
    destruct (obj_get k o); rewrite (obj_get_set_other X k _ o Hne); exact H.
Qed.

Lemma subFrom_get (X k : string) (x q : Q) (o : object number) :
  obj_get X o = Some (Num q) ->
  exists q', obj_get X (subFrom k x o) = Some (Num q') /\
             q' == q - (if String.eqb k X then x else 0).
Proof.
  intro H. unfold subFrom.
  destruct (String.eqb k X) eqn:E.
  - apply String.eqb_eq in E. subst k. rewrite H. cbn [number_sub].
    rewrite obj_get_set_same. exists (q - x). split; reflexivity.
  - apply String.eqb_neq in E.
    assert (Hne : X <> k) by congruence.
    exists q. split; [|ring].
    destruct (obj_get k o); rewrite (obj_get_set_other X k _ o Hne); exact H.
Qed.

Lemma subtract_splits_get (X : string) (ss : list splitDoc) :
  forall (o : object number) (q : Q),
    obj_get X o = Some (Num q) ->
    exists q',
      obj_get X (fold_left (fun balances s => subFrom (s_user s) (s_share s) balances) ss o)
        = Some (Num q') /\
      q' == q - fold_right (fun s acc => (if String.eqb (s_user s) X then s_share s else 0) + acc)
                           0 ss.
Proof.
  induction ss as [| s ss IH]; intros o q H.
  - exists q. split; [exact H | cbn; ring].
  - cbn [fold_left fold_right].
    destruct (subFrom_get X (s_user s) (s_share s) q o H) as [q1 [H1 E1]].
    destruct (IH _ q1 H1) as [q2 [H2 E2]].
    exists q2. split; [exact H2|]. rewrite E2, E1. ring.
Qed.

Lemma processExpense_get (X : string) (e : expense) (o : object number) (q : Q) :
  obj_get X o = Some (Num q) ->
  exists q', obj_get X (processExpense o e) = Some (Num q') /\
             q' == q + (if String.eqb (paidBy e) X then amount e else 0) - owedIn X e.
Proof.
  intro H. unfold processExpense.
  destruct (addTo_get X (paidBy e) (amount e) q o H) as [q1 [H1 E1]].
  destruct (subtract_splits_get X (splits e) _ q1 H1) as [q2 [H2 E2]].
  exists q2. split; [exact H2|]. unfold owedIn. rewrite E2, E1. ring.
Qed.

Lemma process_expenses_get (X : string) (expenses : list expense) :
  forall (o : object number) (q : Q),
    obj_get X o = Some (Num q) ->
    exists q', obj_get X (fold_left processExpense expenses o) = Some (Num q') /\
               q' == q + paidTotal X expenses - owedTotal X expenses.
Proof.
  induction expenses as [| e es IH]; intros o q H.
  - exists q. split; [exact H | cbn; ring].
  - cbn [fold_left].
    destruct (processExpense_get X e o q H) as [q1 [H1 E1]].
    destruct (IH _ q1 H1) as [q2 [H2 E2]].
    exists q2. split; [exact H2|].
    cbn [paidTotal owedTotal fold_right].
    fold (paidTotal X es). fold (owedTotal X es).
    rewrite E2, E1. ring.
Qed.

Lemma init_members_get (X : string) (members : list string) :
  forall o : object number,
    In X members \/ obj_get X o = Some (Num 0) ->
    obj_get X (fold_left (fun balances member => obj_set member (Num 0) balances) members o)
      = Some (Num 0).
Proof.
  induction members as [| m ms IH]; intros o H.
  - destruct H as [[] | H]. exact H.
  - cbn [fold_left]. apply IH.
    destruct (string_dec X m) as [-> | Hne].
    + right. apply obj_get_set_same.
    + destruct H as [[Hm | Hin] | Ho].
      * congruence.
      * left. exact Hin.
      * right. rewrite (obj_get_set_other X m _ o Hne). exact Ho.
Qed.

(** ** The settlement loop always ends *)

Lemma Math_min_cases (x y : Q) :
  (x <= y /\ Math_min x y = x) \/ (y < x /\ Math_min x y = y).
Proof.
  unfold Math_min. destruct (Qle_bool x y) eqn:E.
  - left. split; [apply Qle_bool_iff; exact E | reflexivity].
  - right. split; [apply Qle_bool_false; exact E | reflexivity].
Qed.

Lemma simplifyLoop_total (fuel : nat) :
  forall debtors creditors,
    (List.length debtors + List.length creditors <= fuel)%nat ->
    exists txs, simplifyLoop fuel debtors creditors = Some txs.
Proof.
  induction fuel as [| fuel IH]; intros debtors creditors Hlen.
  - destruct debtors as [| d ds]; [exists []; reflexivity|].
    destruct creditors as [| c cs]; [exists []; reflexivity|].
    cbn in Hlen. lia.
  - destruct debtors as [| d ds]; [exists []; reflexivity|].
    destruct creditors as [| c cs]; [exists []; reflexivity|].
    cbn [simplifyLoop e_amount id].
    set (m := Math_min (e_amount d) (e_amount c)).
    match goal with
    | |- exists txs, option_map _ (simplifyLoop fuel ?ds' ?cs') = Some txs =>
        assert (Hsmall : (List.length ds' + List.length cs' <= fuel)%nat)
    end.
    { cbn [List.length] in Hlen.
      destruct (Math_min_cases (e_amount d) (e_amount c)) as [[Hle Hm] | [Hlt Hm]];
        fold m in Hm.
      - replace (Qlt_bool (e_amount d - m) (1 # 100)) with true
          by (symmetry; apply Qlt_bool_true; rewrite Hm; lra).
        destruct (Qlt_bool (e_amount c - m) (1 # 100)); cbn [List.length]; lia.
      - replace (Qlt_bool (e_amount c - m) (1 # 100)) with true
          by (symmetry; apply Qlt_bool_true; rewrite Hm; lra).
        destruct (Qlt_bool (e_amount d - m) (1 # 100)); cbn [List.length]; lia. }
    destruct (IH _ _ Hsmall) as [txs Htxs]. rewrite Htxs.
    eexists. reflexivity.
Qed.

Lemma simplifyDebts_total (balances : object number) :
  exists txs, simplifyDebts balances = Some txs.
Proof.
  unfold simplifyDebts. apply simplifyLoop_total. lia.
Qed.

(** C4.  For every list of expenses and every member [X] of the participant
    list, [calculateGroupBalances] returns, and [X]'s balance is what [X]
    paid minus what [X]'s splits say, whatever the settled flags; on the
    expense of 100 paid by A and split 50/50 between A and B it returns
    A: +50, B: -50 and the single transaction from B to A of 50. *)
Theorem raw_balance_is_paid_minus_owed :
  (forall (expenses : list expense) (groupMembers : list string) (X : string),
     In X groupMembers ->
     exists r q,
       calculateGroupBalances expenses groupMembers = Some r /\
       obj_get X (balances r) = Some (Num q) /\
       q == paidTotal X expenses - owedTotal X expenses) /\
  (forall settledA settledB : bool,
     calculateGroupBalances
       [mkExpense "A" 100 [mkSplitDoc "A" 50 settledA; mkSplitDoc "B" 50 settledB]]
       ["A"; "B"]
     = Some (mkGroupBalances [("A", Num 50); ("B", Num (- (50)))]
                             [mkTransaction "B" "A" 50])).
Proof.
  split.
  - intros expenses groupMembers X HX.
    unfold calculateGroupBalances.
    destruct (simplifyDebts_total
                (fold_left processExpense expenses (initBalances groupMembers)))
      as [txs Htxs].
    rewrite Htxs.
    assert (H0 : obj_get X (initBalances groupMembers) = Some (Num 0)).
    { unfold initBalances. apply init_members_get. left. exact HX. }
    destruct (process_expenses_get X expenses _ 0 H0) as [q [Hq Eq]].
    eexists. exists q. split; [reflexivity|]. cbn [balances].
    split; [exact Hq|]. rewrite Eq. ring.
  - intros settledA settledB. vm_compute. reflexivity.
Qed.

Lemma raw_balance_is_paid_minus_owed_witness :
  exists r q,
    calculateGroupBalances
      [mkExpense "A" 90 [mkSplitDoc "A" 30 false; mkSplitDoc "B" 30 true;
                         mkSplitDoc "C" 30 false]]
      ["A"; "B"; "C"] = Some r /\
    obj_get "B" (balances r) = Some (Num q) /\
    q == paidTotal "B"
           [mkExpense "A" 90 [mkSplitDoc "A" 30 false; mkSplitDoc "B" 30 true;
                              mkSplitDoc "C" 30 false]]
         - owedTotal "B"
           [mkExpense "A" 90 [mkSplitDoc "A" 30 false; mkSplitDoc "B" 30 true;
                              mkSplitDoc "C" 30 false]].
Proof.
  apply (proj1 raw_balance_is_paid_minus_owed).
  right. left. reflexivity.
Defined.

(** ** Who can appear in a plan *)

Lemma insertDesc_perm (x : entry) (l : list entry) : Permutation (insertDesc x l) (x :: l).
Proof.
  induction l as [| y l IH]; cbn.
  - apply Permutation_refl.
  - destruct (Qlt_bool (e_amount x) (e_amount y)).
    + apply perm_trans with (y :: x :: l); [apply perm_skip; exact IH | apply perm_swap].
    + apply Permutation_refl.
Qed.

Lemma sortDesc_perm (l : list entry) : Permutation (sortDesc l) l.
Proof.
  induction l as [| x l IH]; cbn.
  - apply perm_nil.
  - apply perm_trans with (x :: sortDesc l); [apply insertDesc_perm | apply perm_skip; exact IH].
Qed.

Lemma sortDesc_ids (X : string) (l : list entry) :
  In X (map id (sortDesc l)) <-> In X (map id l).
Proof.
  split; apply Permutation_in; apply Permutation_map;
    [apply sortDesc_perm | apply Permutation_sym; apply sortDesc_perm].
Qed.

Lemma ids_after_step (dropped : bool) (x : entry) (a : Q) (rest : list entry) (X : string) :
  In X (map id (if dropped then rest else mkEntry (id x) a :: rest)) ->
  In X (map id (x :: rest)).
Proof.
  destruct dropped; cbn; tauto.
Qed.

Lemma simplifyLoop_parties (fuel : nat) :
  forall debtors creditors txs,
    simplifyLoop fuel debtors creditors = Some txs ->
    forall t, In t txs -> In (from t) (map id debtors) /\ In (to t) (map id creditors).
Proof.
  induction fuel as [| fuel IH]; intros debtors creditors txs H t Ht;
    destruct debtors as [| d ds]; destruct creditors as [| c cs];
    cbn [simplifyLoop] in H; try discriminate;
    try (injection H as <-; destruct Ht).
  cbn [e_amount id] in H.
  match type of H with
  | option_map _ (simplifyLoop fuel ?ds' ?cs') = _ =>
      destruct (simplifyLoop fuel ds' cs') as [r |] eqn:Er; [|discriminate]
  end.
  cbn [option_map] in H. injection H as <-.
  apply in_app_or in Ht. destruct Ht as [Ht | Ht].
  - destruct (Qlt_bool 0 (Math_min (e_amount d) (e_amount c))); [|destruct Ht].
    destruct Ht as [<- | []]. cbn. tauto.
  - destruct (IH _ _ _ Er t Ht) as [Hf Hto].
    split; eapply ids_after_step; eassumption.
Qed.

Lemma planLoop_parties (fuel : nat) :
  forall creditors debtors txs,
    planLoop fuel creditors debtors = Some txs ->
    forall t, In t txs -> In (from t) (map id debtors) /\ In (to t) (map id creditors).
Proof.
  induction fuel as [| fuel IH]; intros creditors debtors txs H t Ht;
    destruct creditors as [| c cs]; destruct debtors as [| d ds];
    cbn [planLoop] in H; try discriminate;
    try (injection H as <-; destruct Ht).
  cbn [e_amount id] in H.
  match type of H with
  | option_map _ (planLoop fuel ?cs' ?ds') = _ =>
      destruct (planLoop fuel cs' ds') as [r |] eqn:Er; [|discriminate]
  end.
  cbn [option_map] in H. injection H as <-.
  apply in_app_or in Ht. destruct Ht as [Ht | Ht].
  - destruct (Qlt_bool 0 (Math_min (e_amount c) (e_amount d))); [|destruct Ht].
    destruct Ht as [<- | []]. cbn. tauto.
  - destruct (IH _ _ _ Er t Ht) as [Hf Hto].
    split; eapply ids_after_step; eassumption.
Qed.

Lemma planLoop_total (fuel : nat) :
  forall creditors debtors,
    (List.length creditors + List.length debtors <= fuel)%nat ->
    exists txs, planLoop fuel creditors debtors = Some txs.
Proof.
  induction fuel as [| fuel IH]; intros creditors debtors Hlen.
  - destruct creditors as [| c cs]; [exists []; reflexivity|].
    destruct debtors as [| d ds]; [exists []; reflexivity|].
    cbn in Hlen. lia.
  - destruct creditors as [| c cs]; [exists []; reflexivity|].
    destruct debtors as [| d ds]; [exists []; reflexivity|].
    cbn [planLoop e_amount id].
    set (m := Math_min (e_amount c) (e_amount d)).
    match goal with
    | |- exists txs, option_map _ (planLoop fuel ?cs' ?ds') = Some txs =>
        assert (Hsmall : (List.length cs' + List.length ds' <= fuel)%nat)
    end.
    { cbn [List.length] in Hlen.
      destruct (Math_min_cases (e_amount c) (e_amount d)) as [[Hle Hm] | [Hlt Hm]];
        fold m in Hm.
      - replace (Qle_bool (e_amount c - m) (1 # 100)) with true
          by (symmetry; apply Qle_bool_iff; rewrite Hm; lra).
        destruct (Qle_bool (e_amount d - m) (1 # 100)); cbn [List.length]; lia.
      - replace (Qle_bool (e_amount d - m) (1 # 100)) with true
          by (symmetry; apply Qle_bool_iff; rewrite Hm; lra).
        destruct (Qle_bool (e_amount c - m) (1 # 100)); cbn [List.length]; lia. }
    destruct (IH _ _ Hsmall) as [txs Htxs]. rewrite Htxs.
    eexists. reflexivity.
Qed.

Lemma creditorsOf_ids (X : string) (balances : object number) :
  In X (map id (creditorsOf balances)) ->
  exists b, In (X, Num b) balances /\ 0 < toFixed2 b.
Proof.
  induction balances as [| [k [b |]] rest IH]; cbn [creditorsOf]; intro H.
  - destruct H.
  - destruct (Qlt_bool 0 (toFixed2 b)) eqn:E.
    + destruct H as [<- | H].
      * exists b. split; [left; reflexivity | apply Qlt_bool_true; exact E].
      * destruct (IH H) as [b' [Hin Hb]]. exists b'. split; [right; exact Hin | exact Hb].
    + destruct (IH H) as [b' [Hin Hb]]. exists b'. split; [right; exact Hin | exact Hb].
  - destruct (IH H) as [b' [Hin Hb]]. exists b'. split; [right; exact Hin | exact Hb].
Qed.

Lemma debtorsOf_ids (X : string) (balances : object number) :
  In X (map id (debtorsOf balances)) ->
  exists b, In (X, Num b) balances /\ toFixed2 b < 0.
Proof.
  induction balances as [| [k [b |]] rest IH]; cbn [debtorsOf]; intro H.
  - destruct H.
  - destruct (Qlt_bool 0 (toFixed2 b)) eqn:E.
    + destruct (IH H) as [b' [Hin Hb]]. exists b'. split; [right; exact Hin | exact Hb].
    + destruct (Qlt_bool (toFixed2 b) 0) eqn:E'.
      * destruct H as [<- | H].
        -- exists b. split; [left; reflexivity | apply Qlt_bool_true; exact E'].
        -- destruct (IH H) as [b' [Hin Hb]]. exists b'. split; [right; exact Hin | exact Hb].
      * destruct (IH H) as [b' [Hin Hb]]. exists b'. split; [right; exact Hin | exact Hb].
  - destruct (IH H) as [b' [Hin Hb]]. exists b'. split; [right; exact Hin | exact Hb].
Qed.

Lemma planCreditors_ids (X : string) (balances : object number) :
  In X (map id (planCreditors balances)) ->
  exists b, In (X, Num b) balances /\ 0 < b.
Proof.
  induction balances as [| [k [b |]] rest IH]; cbn [planCreditors]; intro H.
  - destruct H.
  - destruct (Qlt_bool 0 b) eqn:E.
    + destruct H as [<- | H].
      * exists b. split; [left; reflexivity | apply Qlt_bool_true; exact E].
      * destruct (IH H) as [b' [Hin Hb]]. exists b'. split; [right; exact Hin | exact Hb].
    + destruct (IH H) as [b' [Hin Hb]]. exists b'. split; [right; exact Hin | exact Hb].
  - destruct (IH H) as [b' [Hin Hb]]. exists b'. split; [right; exact Hin | exact Hb].
Qed.

Lemma planDebtors_ids (X : string) (balances : object number) :
  In X (map id (planDebtors balances)) ->
  exists b, In (X, Num b) balances /\ b < 0.
Proof.
  induction balances as [| [k [b |]] rest IH]; cbn [planDebtors]; intro H.
  - destruct H.
  - destruct (Qlt_bool 0 b) eqn:E.
    + destruct (IH H) as [b' [Hin Hb]]. exists b'. split; [right; exact Hin | exact Hb].
    + destruct (Qlt_bool b 0) eqn:E'.
      * destruct H as [<- | H].
        -- exists b. split; [left; reflexivity | apply Qlt_bool_true; exact E'].
        -- destruct (IH H) as [b' [Hin Hb]]. exists b'. split; [right; exact Hin | exact Hb].
      * destruct (IH H) as [b' [Hin Hb]]. exists b'. split; [right; exact Hin | exact Hb].
  - destruct (IH H) as [b' [Hin Hb]]. exists b'. split; [right; exact Hin | exact Hb].
Qed.

(** C5 (amended).  A participant whose balance rounds to 0.00 is in neither
    list of [simplifyDebts] and is neither payer nor payee of any transaction
    it returns; [calculatePaymentPlan], which does not round, leaves out a
    participant whose balance is exactly zero.  Every balance of magnitude
    below 0.005 rounds to 0.00. *)
Theorem zero_balance_excluded :
  (forall (balances : object number) (X : string),
     (forall b, In (X, Num b) balances -> toFixed2 b == 0) ->
     ~ In X (map id (creditorsOf balances)) /\
     ~ In X (map id (debtorsOf balances)) /\
     exists txs, simplifyDebts balances = Some txs /\
                 forall t, In t txs -> from t <> X /\ to t <> X) /\
  (forall (balances : object number) (X : string),
     (forall b, In (X, Num b) balances -> b == 0) ->
     ~ In X (map id (planCreditors balances)) /\
     ~ In X (map id (planDebtors balances)) /\
     exists txs, calculatePaymentPlan balances = Some txs /\
                 forall t, In t txs -> from t <> X /\ to t <> X) /\
  (forall b : Q, Qabs b < 1 # 200 -> toFixed2 b == 0).
Proof.
  split; [|split; [|exact toFixed2_small]]; intros balances X Hzero.
  - assert (Hc : ~ In X (map id (creditorsOf balances))).
    { intro H. apply creditorsOf_ids in H. destruct H as [b [Hin Hb]].
      rewrite (Hzero b Hin) in Hb. apply (Qlt_irrefl 0 Hb). }
    assert (Hd : ~ In X (map id (debtorsOf balances))).
    { intro H. apply debtorsOf_ids in H. destruct H as [b [Hin Hb]].
      rewrite (Hzero b Hin) in Hb. apply (Qlt_irrefl 0 Hb). }
    split; [exact Hc|]. split; [exact Hd|].
    destruct (simplifyDebts_total balances) as [txs Htxs].
    exists txs. split; [exact Htxs|].
    intros t Ht. unfold simplifyDebts in Htxs.
    destruct (simplifyLoop_parties _ _ _ _ Htxs t Ht) as [Hf Hto].
    split; intros <-.
    + apply Hd. apply sortDesc_ids. exact Hf.
    + apply Hc. apply sortDesc_ids. exact Hto.
  - assert (Hc : ~ In X (map id (planCreditors balances))).
    { intro H. apply planCreditors_ids in H. destruct H as [b [Hin Hb]].
      rewrite (Hzero b Hin) in Hb. apply (Qlt_irrefl 0 Hb). }
    assert (Hd : ~ In X (map id (planDebtors balances))).
    { intro H. apply planDebtors_ids in H. destruct H as [b [Hin Hb]].
      rewrite (Hzero b Hin) in Hb. apply (Qlt_irrefl 0 Hb). }
    split; [exact Hc|]. split; [exact Hd|].
    assert (Htot : exists txs, calculatePaymentPlan balances = Some txs).
    { unfold calculatePaymentPlan. apply planLoop_total. lia. }
    destruct Htot as [txs Htxs].
    exists txs. split; [exact Htxs|].
    intros t Ht. unfold calculatePaymentPlan in Htxs.
    destruct (planLoop_parties _ _ _ _ Htxs t Ht) as [Hf Hto].
    split; intros <-.
    + apply Hd. apply sortDesc_ids. exact Hf.
    + apply Hc. apply sortDesc_ids. exact Hto.
Qed.

Lemma zero_balance_excluded_witness :
  ~ In "Z" (map id (creditorsOf [("A", Num 50); ("Z", Num (3 # 1000)); ("B", Num (- (50)))])) /\
  ~ In "Z" (map id (debtorsOf [("A", Num 50); ("Z", Num (3 # 1000)); ("B", Num (- (50)))])) /\
  exists txs,
    simplifyDebts [("A", Num 50); ("Z", Num (3 # 1000)); ("B", Num (- (50)))] = Some txs /\
    forall t, In t txs -> from t <> "Z" /\ to t <> "Z".
Proof.
  apply (proj1 zero_balance_excluded).
  intros b [H | [H | [H | []]]]; try discriminate.
  injection H as <-. reflexivity.
Defined.

(** C5, as stated, fails: balances of 0.007 and -0.007 are zero within 0.01,
    yet both participants enter the lists and the plan. *)
Lemma zero_balance_counterexample :
  Qabs (7 # 1000) <= 1 # 100 /\
  In "A" (map id (creditorsOf [("A", Num (7 # 1000)); ("B", Num (- (7 # 1000)))])) /\
  simplifyDebts [("A", Num (7 # 1000)); ("B", Num (- (7 # 1000)))]
    = Some [mkTransaction "B" "A" (1 # 100)] /\
  calculatePaymentPlan [("A", Num (7 # 1000)); ("B", Num (- (7 # 1000)))]
    = Some [mkTransaction "B" "A" (1 # 100)].
Proof.
  split; [discriminate|]. split; [left; reflexivity|]. split; reflexivity.
Qed.

(** ** Conservation in [simplifyDebts] *)

Lemma amountOf_perm (X : string) (l l' : list entry) :
  Permutation l l' -> amountOf X l == amountOf X l'.
Proof.
  induction 1 as [| x l l' _ IH | x y l | l l' l'' _ IH1 _ IH2].
  - reflexivity.
  - cbn [amountOf fold_right]. fold (amountOf X l) (amountOf X l'). rewrite IH. reflexivity.
  - cbn [amountOf fold_right]. ring.
  - rewrite IH1. exact IH2.
Qed.




Lemma cents_below_one (x : Q) : is_cents x -> 0 <= x -> x < 1 # 100 -> x == 0.
Proof.
  intros [n Hn] Hlo Hhi.
  assert (H0 : (0 <= n)%Z).
  { rewrite Zle_Qle. change (inject_Z 0) with 0. rewrite Hn in Hlo. lra100. }
  assert (H1 : (n < 1)%Z).
  { rewrite Zlt_Qlt. change (inject_Z 1) with 1. rewrite Hn in Hhi. lra100. }
  assert (E : n = 0%Z) by lia.
  rewrite Hn, E. reflexivity.
Qed.

(** What one turn of the loop does to the list whose head paid or received
    [m]. *)
Lemma step_list (x : entry) (m : Q) (rest : list entry) :
  is_cents (e_amount x - m) -> 0 <= e_amount x - m -> Forall positiveCents rest ->
  let l' := if Qlt_bool (e_amount x - m) (1 # 100) then rest
            else mkEntry (id x) (e_amount x - m) :: rest in
  Forall positiveCents l' /\
  totalOf l' == totalOf (x :: rest) - m /\
  forall X, amountOf X l' == amountOf X (x :: rest) - (if String.eqb (id x) X then m else 0).
Proof.
  intros Hc Hlo Hrest. cbv zeta.
  destruct (Qlt_bool (e_amount x - m) (1 # 100)) eqn:E.
  - apply Qlt_bool_true in E.
    pose proof (cents_below_one _ Hc Hlo E) as Hz.
    split; [exact Hrest|]. split.
    + cbn [totalOf fold_right]. fold (totalOf rest). lra.
    + intro X. cbn [amountOf fold_right]. fold (amountOf X rest).
      destruct (String.eqb (id x) X); lra.
  - apply Qlt_bool_false in E.
    split; [|split].
    + constructor; [|exact Hrest]. split; cbn [e_amount]; [lra | exact Hc].
    + cbn [totalOf fold_right e_amount]. ring.
    + intro X. cbn [amountOf fold_right e_amount id]. fold (amountOf X rest).
      destruct (String.eqb (id x) X); ring.
Qed.


Lemma creditorsOf_positiveCents (balances : object number) :
  Forall positiveCents (creditorsOf balances).
Proof.
  induction balances as [| [k [b |]] rest IH]; cbn [creditorsOf].
  - constructor.
  - destruct (Qlt_bool 0 (toFixed2 b)) eqn:E; [|exact IH].
    constructor; [|exact IH].
    split; cbn [e_amount]; [apply Qlt_bool_true; exact E | apply toFixed2_is_cents].
  - exact IH.
Qed.

Lemma debtorsOf_positiveCents (balances : object number) :
  Forall positiveCents (debtorsOf balances).
Proof.
  induction balances as [| [k [b |]] rest IH]; cbn [debtorsOf].
  - constructor.
  - destruct (Qlt_bool 0 (toFixed2 b)) eqn:E; [exact IH|].
    destruct (Qlt_bool (toFixed2 b) 0) eqn:E'; [|exact IH].
    apply Qlt_bool_true in E'.
    assert (Habs : Math_abs (toFixed2 b) == - toFixed2 b).
    { unfold Math_abs. apply Qabs_neg. lra. }
    constructor; [|exact IH].
    split; cbn [e_amount].
    + rewrite Habs. lra.
    + apply (is_cents_comp (- toFixed2 b)); [symmetry; exact Habs|].
      apply is_cents_opp. apply toFixed2_is_cents.
  - exact IH.
Qed.


Lemma amountOf_absent (X : string) (l : list entry) :
  ~ In X (map id l) -> amountOf X l == 0.
Proof.
  induction l as [| e l IH]; intro H.
  - reflexivity.
  - cbn [amountOf fold_right]. fold (amountOf X l).
    destruct (String.eqb (id e) X) eqn:E.
    + exfalso. apply H. left. apply String.eqb_eq. exact E.
    + rewrite IH; [ring|]. intro Hin. apply H. right. exact Hin.
Qed.

Lemma absent_key_no_entry (X : string) (balances : object number) :
  ~ In X (obj_keys balances) ->
  amountOf X (creditorsOf balances) == 0 /\ amountOf X (debtorsOf balances) == 0.
Proof.
  intro H. split; apply amountOf_absent; intro Hin.
  - apply creditorsOf_ids in Hin. destruct Hin as [b [Hb _]].
    apply H. unfold obj_keys. apply (in_map fst) in Hb. exact Hb.
  - apply debtorsOf_ids in Hin. destruct Hin as [b [Hb _]].
    apply H. unfold obj_keys. apply (in_map fst) in Hb. exact Hb.
Qed.

Lemma lists_hold_rounded_balance (X : string) (b : Q) (balances : object number) :
  NoDup (obj_keys balances) -> In (X, Num b) balances ->
  amountOf X (creditorsOf balances) - amountOf X (debtorsOf balances) == toFixed2 b.
Proof.
  induction balances as [| [k n] rest IH]; intros Hnd Hin; [destruct Hin|].
  cbn [obj_keys map fst] in Hnd. inversion Hnd as [| ? ? Hk Hrest]; subst.
  destruct Hin as [Heq | Hin].
  - injection Heq as -> ->.
    destruct (absent_key_no_entry X rest Hk) as [Hc0 Hd0].
    cbn [creditorsOf debtorsOf].
    destruct (Qlt_bool 0 (toFixed2 b)) eqn:E.
    + cbn [amountOf fold_right id e_amount]. fold (amountOf X (creditorsOf rest)).
      rewrite String.eqb_refl, Hc0, Hd0. ring.
    + destruct (Qlt_bool (toFixed2 b) 0) eqn:E'.
      * apply Qlt_bool_true in E'.
        assert (Habs : Math_abs (toFixed2 b) == - toFixed2 b).
        { unfold Math_abs. apply Qabs_neg. lra. }
        cbn [amountOf fold_right id e_amount]. fold (amountOf X (debtorsOf rest)).
        rewrite String.eqb_refl, Hc0, Hd0, Habs. ring.
      * apply Qlt_bool_false in E. apply Qlt_bool_false in E'.
        rewrite Hc0, Hd0. lra.
  - assert (Hne : String.eqb k X = false).
    { apply String.eqb_neq. intros ->. apply Hk.
      unfold obj_keys. apply (in_map fst) in Hin. exact Hin. }
    specialize (IH Hrest Hin).
    destruct n as [b' |]; cbn [creditorsOf debtorsOf]; [|exact IH].
    destruct (Qlt_bool 0 (toFixed2 b')).
    + cbn [amountOf fold_right id e_amount]. fold (amountOf X (creditorsOf rest)).
      rewrite Hne, <- IH. ring.
    + destruct (Qlt_bool (toFixed2 b') 0); [|exact IH].
      cbn [amountOf fold_right id e_amount]. fold (amountOf X (debtorsOf rest)).
      rewrite Hne, <- IH. ring.
Qed.

Lemma unique_value {V : Type} (X : string) (n n' : V) (o : object V) :
  NoDup (obj_keys o) -> In (X, n) o -> In (X, n') o -> n = n'.
Proof.
  induction o as [| [k v] rest IH]; intros Hnd H H'; [destruct H|].
  cbn [obj_keys map fst] in Hnd. inversion Hnd as [| ? ? Hk Hrest]; subst.
  destruct H as [H | H]; destruct H' as [H' | H'].
  - congruence.
  - injection H as -> ->. exfalso. apply Hk. apply (in_map fst) in H'. exact H'.
  - injection H' as -> ->. exfalso. apply Hk. apply (in_map fst) in H. exact H.
  - apply IH; assumption.
Qed.

Lemma amountOf_nonneg (X : string) (l : list entry) :
  Forall positiveCents l -> 0 <= amountOf X l.
Proof.
  induction 1 as [| e l [He _] _ IH]; cbn [amountOf fold_right].
  - lra.
  - fold (amountOf X l). destruct (String.eqb (id e) X); lra.
Qed.

Lemma simplifyLoop_bounded (fuel : nat) :
  forall debtors creditors txs,
    Forall positiveCents debtors -> Forall positiveCents creditors ->
    simplifyLoop fuel debtors creditors = Some txs ->
    forall X,
      0 <= inflow X txs /\ inflow X txs <= amountOf X creditors /\
      0 <= outflow X txs /\ outflow X txs <= amountOf X debtors.
Proof.
  induction fuel as [| fuel IH]; intros debtors creditors txs Hd Hc H X;
    pose proof (amountOf_nonneg X debtors Hd) as Hnd;
    pose proof (amountOf_nonneg X creditors Hc) as Hnc;
    destruct debtors as [| d ds]; destruct creditors as [| c cs];
    cbn [simplifyLoop] in H; try discriminate;
    try (injection H as <-; cbn [inflow outflow fold_right]; repeat split; lra).
  cbn [e_amount id] in H.
  set (m := Math_min (e_amount d) (e_amount c)) in H.
  inversion Hd as [| ? ? [Hdpos Hdc] Hds]; subst.
  inversion Hc as [| ? ? [Hcpos Hcc] Hcs]; subst.
  assert (Hm : 0 < m /\ m <= e_amount d /\ m <= e_amount c /\ is_cents m).
  { subst m.
    destruct (Math_min_cases (e_amount d) (e_amount c)) as [[Hle ->] | [Hlt ->]];
      repeat split; try assumption; lra. }
  destruct Hm as [Hmpos [Hmd [Hmc Hmcents]]].
  destruct (step_list d m ds) as [Hd' [_ Had']];
    [apply is_cents_minus; assumption | lra | exact Hds |].
  destruct (step_list c m cs) as [Hc' [_ Hac']];
    [apply is_cents_minus; assumption | lra | exact Hcs |].
  cbv zeta in Hd', Had', Hc', Hac'.
  match type of H with
  | option_map _ (simplifyLoop fuel ?ds' ?cs') = _ =>
      destruct (simplifyLoop fuel ds' cs') as [r |] eqn:Er; [|discriminate]
  end.
  destruct (IH _ _ _ Hd' Hc' Er X) as [Hi0 [Hi Ho]]. destruct Ho as [Ho0 Ho].
  rewrite (Hac' X) in Hi. rewrite (Had' X) in Ho.
  replace (Qlt_bool 0 m) with true in H by (symmetry; apply Qlt_bool_true; exact Hmpos).
  cbn [option_map app] in H. injection H as <-.
  pose proof (toFixed2_of_cents m Hmcents) as Hround.
  cbn [inflow outflow fold_right to from t_amount].
  fold (inflow X r) (outflow X r).
  destruct (String.eqb (id c) X); destruct (String.eqb (id d) X); repeat split; lra.
Qed.

Lemma one_list_only (X : string) (balances : object number) :
  NoDup (obj_keys balances) ->
  amountOf X (creditorsOf balances) == 0 \/ amountOf X (debtorsOf balances) == 0.
Proof.
  intro Hnd.
  destruct (in_dec string_dec X (map id (creditorsOf balances))) as [Hc | Hc];
    [|left; apply amountOf_absent; exact Hc].
  right. apply amountOf_absent. intro Hd.
  apply creditorsOf_ids in Hc. apply debtorsOf_ids in Hd.
  destruct Hc as [b [Hb Hpos]]. destruct Hd as [b' [Hb' Hneg]].
  pose proof (unique_value _ _ _ _ Hnd Hb Hb') as E. injection E as ->. lra.
Qed.




(** ** Sums the handlers accumulate *)

Lemma Qsum_app (l l' : list Q) : Qsum (l ++ l') == Qsum l + Qsum l'.
Proof.
  induction l as [| x l IH].
  - change (Qsum l' == 0 + Qsum l'). ring.
  - change (x + Qsum (l ++ l') == x + Qsum l + Qsum l'). rewrite IH. ring.
Qed.

Lemma fold_left_add {A : Type} (f : A -> Q) (l : list A) :
  forall a, fold_left (fun total x => total + f x) l a == a + Qsum (map f l).
Proof.
  induction l as [| x l IH]; intro a; cbn [fold_left map].
  - change (a == a + 0). ring.
  - rewrite IH. change (Qsum (f x :: map f l)) with (f x + Qsum (map f l)). ring.
Qed.

Lemma fold_left_add_if {A : Type} (c : A -> bool) (f : A -> Q) (l : list A) :
  forall a,
    fold_left (fun total x => if c x then total + f x else total) l a
    == a + Qsum (map f (filter c l)).
Proof.
  induction l as [| x l IH]; intro a; cbn [fold_left filter].
  - change (a == a + 0). ring.
  - rewrite IH. destruct (c x); cbn [map].
    + change (Qsum (f x :: map f (filter c l))) with (f x + Qsum (map f (filter c l))). ring.
    + reflexivity.
Qed.

Lemma youPaidOf_sum (userId : string) (l : list expense) :
  youPaidOf userId l == Qsum (map amount (filter (paidByUser userId) l)).
Proof.
  unfold youPaidOf. rewrite (fold_left_add_if (paidByUser userId) amount). ring.
Qed.

Lemma othersYetToPayOf_sum (userId : string) (l : list expense) :
  othersYetToPayOf userId l
  == Qsum (map (othersSplits userId false) (filter (paidByUser userId) l)).
Proof.
  unfold othersYetToPayOf. rewrite fold_left_add. ring.
Qed.

Lemma youNeedToPayOf_sum (userId : string) (l : list expense) :
  youNeedToPayOf userId l
  == Qsum (map (ownSplit userId false) (filter (fun e => negb (paidByUser userId e)) l)).
Proof.
  unfold youNeedToPayOf. rewrite fold_left_add. ring.
Qed.

Lemma calculateUserBalance_fold (userId : string) (l : list expense) :
  forall acc,
    let step := fun acc expense =>
      mkUserBalance
        match find (fun s => String.eqb (s_user s) userId) (splits expense) with
        | Some userSplit => userOwes acc + s_share userSplit
        | None => userOwes acc
        end
        (if String.eqb (paidBy expense) userId
         then userIsOwed acc + amount expense else userIsOwed acc) in
    userOwes (fold_left step l acc) == userOwes acc + Qsum (map (ownShare userId) l) /\
    userIsOwed (fold_left step l acc)
    == userIsOwed acc + Qsum (map amount (filter (paidByUser userId) l)).
Proof.
  induction l as [| e l IH]; intro acc; cbv zeta; cbn [fold_left map filter].
  - cbn. split; ring.
  - cbv zeta in IH. destruct (IH
      (mkUserBalance
         match find (fun s => String.eqb (s_user s) userId) (splits e) with
         | Some userSplit => userOwes acc + s_share userSplit
         | None => userOwes acc
         end
         (if String.eqb (paidBy e) userId
          then userIsOwed acc + amount e else userIsOwed acc))) as [Ho Hi].
    rewrite Ho, Hi. cbn [userOwes userIsOwed].
    unfold ownShare at 2, paidByUser at 2, isUser.
    split.
    + cbn [Qsum fold_right]. fold (Qsum (map (ownShare userId) l)).
      destruct (find (fun s => String.eqb (s_user s) userId) (splits e)); ring.
    + destruct (String.eqb (paidBy e) userId); cbn [map Qsum fold_right].
      * fold (Qsum (map amount (filter (paidByUser userId) l))). ring.
      * reflexivity.
Qed.

Lemma userOwes_sum (userId : string) (l : list expense) :
  userOwes (calculateUserBalance l userId) == Qsum (map (ownShare userId) l).
Proof.
  unfold calculateUserBalance.
  destruct (calculateUserBalance_fold userId l (mkUserBalance 0 0)) as [H _].
  cbv zeta in H. rewrite H. cbn [userOwes]. ring.
Qed.

Lemma userIsOwed_sum (userId : string) (l : list expense) :
  userIsOwed (calculateUserBalance l userId)
  == Qsum (map amount (filter (paidByUser userId) l)).
Proof.
  unfold calculateUserBalance.
  destruct (calculateUserBalance_fold userId l (mkUserBalance 0 0)) as [_ H].
  cbv zeta in H. rewrite H. cbn [userIsOwed]. ring.
Qed.

Lemma Qsum_map_filter_app {A : Type} (c : A -> bool) (f : A -> Q) (l l' : list A) :
  Qsum (map f (filter c (l ++ l')))
  == Qsum (map f (filter c l)) + Qsum (map f (filter c l')).
Proof.
  rewrite filter_app, map_app. apply Qsum_app.
Qed.

Lemma Qsum_map_app {A : Type} (f : A -> Q) (l l' : list A) :
  Qsum (map f (l ++ l')) == Qsum (map f l) + Qsum (map f l').
Proof.
  rewrite map_app. apply Qsum_app.
Qed.

(** Over one more group, each unrounded total grows by that group's sum. *)
Lemma groupStep_totals (userId : string) (t : DetailedStats.totals) (g : list expense) :
  let t' := DetailedStats.groupStep userId t g in
  DetailedStats.totalYourShare t'
    == DetailedStats.totalYourShare t + Qsum (map (ownShare userId) g) /\
  DetailedStats.totalYouPaid t'
    == DetailedStats.totalYouPaid t + Qsum (map amount (filter (paidByUser userId) g)) /\
  DetailedStats.totalYouNeedToPay t'
    == DetailedStats.totalYouNeedToPay t
       + Qsum (map (ownSplit userId false) (filter (fun e => negb (paidByUser userId e)) g)) /\
  DetailedStats.totalOthersYetToPay t'
    == DetailedStats.totalOthersYetToPay t
       + Qsum (map (othersSplits userId false) (filter (paidByUser userId) g)).
Proof.
  cbv zeta. unfold DetailedStats.groupStep.
  destruct g as [| e g].
  - cbn. repeat split; ring.
  - cbn [List.length Nat.eqb].
    cbn [DetailedStats.totalYourShare DetailedStats.totalYouPaid
         DetailedStats.totalYouNeedToPay DetailedStats.totalOthersYetToPay].
    rewrite userOwes_sum, youPaidOf_sum, youNeedToPayOf_sum, othersYetToPayOf_sum.
    repeat split; reflexivity.
Qed.

Lemma groups_totals (userId : string) (groups : list (list expense)) :
  forall t,
    let t' := fold_left (DetailedStats.groupStep userId) groups t in
    DetailedStats.totalYourShare t'
      == DetailedStats.totalYourShare t + Qsum (map (ownShare userId) (List.concat groups)) /\
    DetailedStats.totalYouPaid t'
      == DetailedStats.totalYouPaid t
         + Qsum (map amount (filter (paidByUser userId) (List.concat groups))) /\
    DetailedStats.totalYouNeedToPay t'
      == DetailedStats.totalYouNeedToPay t
         + Qsum (map (ownSplit userId false)
                     (filter (fun e => negb (paidByUser userId e)) (List.concat groups))) /\
    DetailedStats.totalOthersYetToPay t'
      == DetailedStats.totalOthersYetToPay t
         + Qsum (map (othersSplits userId false)
                     (filter (paidByUser userId) (List.concat groups))).
Proof.
  induction groups as [| g groups IH]; intro t; cbv zeta; cbn [fold_left List.concat].
  - cbn. repeat split; ring.
  - cbv zeta in IH.
    destruct (IH (DetailedStats.groupStep userId t g)) as [H1 [H2 [H3 H4]]].
    destruct (groupStep_totals userId t g) as [G1 [G2 [G3 G4]]]. cbv zeta in G1, G2, G3, G4.
    rewrite H1, H2, H3, H4, G1, G2, G3, G4.
    rewrite Qsum_map_app, !Qsum_map_filter_app.
    repeat split; ring.
Qed.

Lemma eqb_true_id (b : bool) : Bool.eqb b true = b.
Proof. destruct b; reflexivity. Qed.

Lemma find_none_of_existsb {A : Type} (p q : A -> bool) (l : list A) :
  (forall x, p x = q x) -> existsb q l = false -> find p l = None.
Proof.
  intros Hpq. induction l as [| x l IH]; cbn; intro H; [reflexivity|].
  apply orb_false_iff in H. destruct H as [Hx Hl].
  rewrite Hpq, Hx. apply IH. exact Hl.
Qed.

Lemma Qsum_filter_and {A : Type} (c d : A -> bool) (f : A -> Q) (l : list A) :
  (forall x, d x = false -> f x == 0) ->
  Qsum (map f (filter (fun x => c x && d x) l)) == Qsum (map f (filter c l)).
Proof.
  intro Hd. induction l as [| x l IH]; cbn [filter]; [reflexivity|].
  destruct (c x); cbn [andb]; [|exact IH].
  destruct (d x) eqn:E; cbn [map].
  - change (f x + Qsum (map f (filter (fun x => c x && d x) l))
            == f x + Qsum (map f (filter c l))).
    rewrite IH. reflexivity.
  - change (Qsum (map f (filter (fun x => c x && d x) l))
            == f x + Qsum (map f (filter c l))).
    rewrite IH, (Hd x E). ring.
Qed.

Lemma othersSplits_sum (userId : string) (e : expense) :
  othersSplits userId true e
  == Qsum (map s_share
               (filter (fun s => negb (isUser userId (s_user s)) && settled s) (splits e))).
Proof.
  unfold othersSplits.
  rewrite (fold_left_add_if
             (fun s => negb (isUser userId (s_user s)) && Bool.eqb (settled s) true) s_share).
  rewrite (filter_ext _ (fun s => negb (isUser userId (s_user s)) && settled s)).
  - ring.
  - intro s. rewrite eqb_true_id. reflexivity.
Qed.

Lemma Qsum_flat_map (c : splitDoc -> bool) (g : expense -> Q) (l : list expense) :
  (forall e, g e == Qsum (map s_share (filter c (splits e)))) ->
  Qsum (map g l) == Qsum (map s_share (filter c (flat_map splits l))).
Proof.
  intro Hg. induction l as [| e l IH]; cbn [map flat_map]; [reflexivity|].
  rewrite Qsum_map_filter_app, <- IH, <- Hg. reflexivity.
Qed.

(** What [getGroupBalanceSummary] reports as [othersPaidYou], before it is
    rounded. *)
Lemma summary_othersPaidYou (expenses : list expense) (userId : string) :
  othersPaidYou (getGroupBalanceSummary expenses userId)
  = toFixed2 (settledBackTo userId expenses + ownSettledShares userId expenses).
Proof.
  unfold getGroupBalanceSummary.
  destruct expenses as [| e0 es]; [reflexivity|].
  cbn [List.length Nat.eqb othersPaidYou]. unfold formatValue.
  apply toFixed2_comp.
  rewrite !fold_left_add.
  rewrite (Qsum_filter_and (fun e => negb (paidByUser userId e))
             (fun e => existsb (fun s => isUser userId (s_user s) && settled s) (splits e))
             (ownSplit userId true)).
  - unfold settledBackTo, ownSettledShares.
    rewrite (Qsum_flat_map
               (fun s => negb (isUser userId (s_user s)) && settled s)
               (othersSplits userId true)
               (filter (paidByUser userId) (e0 :: es))
               (othersSplits_sum userId)).
    ring.
  - intros e He. unfold ownSplit.
    rewrite (find_none_of_existsb _ _ (splits e)
               (fun s => f_equal (andb (isUser userId (s_user s))) (eqb_true_id (settled s)))
               He).
    reflexivity.
Qed.

(** C6 (amended).  Every value the detailed [getUserStats] returns, apart from
    [othersPaidYou], and every value [getGroupBalanceSummary] returns, is a
    sum over the expenses (of all the user's groups taken together, for the
    statistics) rounded to two decimals once, when the answer is built. *)
Theorem stats_rounded_once_at_output
    (userId : string) (userExpenses : list expense) (groups : list (list expense))
    (expenses : list expense) :
  let all := List.concat groups in
  let r := DetailedStats.getUserStats userId userExpenses groups in
  let s := getGroupBalanceSummary expenses userId in
  let notPaid := fun e => negb (paidByUser userId e) in
  (DetailedStats.totalPaid r
     = toFixed2 (Qsum (map amount (filter (paidByUser userId) all))) /\
   DetailedStats.totalOwing r = toFixed2 (Qsum (map (ownShare userId) all)) /\
   DetailedStats.youNeedToPay r
     = toFixed2 (Qsum (map (ownSplit userId false) (filter notPaid all))) /\
   DetailedStats.othersYetToPay r
     = toFixed2 (Qsum (map (othersSplits userId false) (filter (paidByUser userId) all))) /\
   DetailedStats.totalOwed r = DetailedStats.othersYetToPay r /\
   DetailedStats.overallBalance r
     = toFixed2 (Qsum (map (othersSplits userId false) (filter (paidByUser userId) all))
                 - Qsum (map (ownSplit userId false) (filter notPaid all)))) /\
  (yourShare s = toFixed2 (Qsum (map (ownShare userId) expenses)) /\
   youPaid s = toFixed2 (Qsum (map amount (filter (paidByUser userId) expenses))) /\
   youNeedToPay s
     = toFixed2 (Qsum (map (ownSplit userId false) (filter notPaid expenses))) /\
   othersYetToPay s
     = toFixed2 (Qsum (map (othersSplits userId false)
                           (filter (paidByUser userId) expenses))) /\
   othersPaidYou s
     = toFixed2 (settledBackTo userId expenses + ownSettledShares userId expenses)).
Proof.
  cbv zeta. split.
  - unfold DetailedStats.getUserStats.
    destruct (groups_totals userId groups (DetailedStats.mkTotals 0 0 0 0 0))
      as [H1 [H2 [H3 H4]]].
    cbv zeta in H1, H2, H3, H4.
    cbn [DetailedStats.totalYourShare DetailedStats.totalYouPaid
         DetailedStats.totalYouNeedToPay DetailedStats.totalOthersYetToPay] in H1, H2, H3, H4.
    cbn [DetailedStats.totalPaid DetailedStats.totalOwing DetailedStats.youNeedToPay
         DetailedStats.othersYetToPay DetailedStats.totalOwed DetailedStats.overallBalance].
    unfold formatValue.
    repeat split; try reflexivity; apply toFixed2_comp.
    + rewrite H2. ring.
    + rewrite H1. ring.
    + rewrite H3. ring.
    + rewrite H4. ring.
    + rewrite H3, H4. ring.
  - split; [|split; [|split; [|split]]]; try apply summary_othersPaidYou;
      unfold getGroupBalanceSummary;
      (destruct expenses as [| e0 es]; [reflexivity|]);
      cbn [List.length Nat.eqb yourShare youPaid youNeedToPay othersYetToPay];
      unfold formatValue; apply toFixed2_comp.
    + apply userOwes_sum.
    + apply youPaidOf_sum.
    + apply youNeedToPayOf_sum.
    + apply othersYetToPayOf_sum.
Qed.

(** C6, as stated, fails: [calculateGroupBalances] returns its balances
    unrounded, and the basic [getUserStats] rounds the subtotal of every
    group before it adds it, so that two groups owing 10.004 each are
    reported as 20 and not as 20.01. *)
Lemma rounding_counterexample :
  (exists r,
     calculateGroupBalances
       [mkExpense "A" (100001 # 1000) [mkSplitDoc "A" 50 false; mkSplitDoc "B" 50 false]]
       ["A"; "B"] = Some r /\
     obj_get "A" (balances r) = Some (Num (50001 # 1000)) /\
     ~ is_cents (50001 # 1000)) /\
  (let g := [mkExpense "A" (10004 # 1000) [mkSplitDoc "B" (10004 # 1000) false]] in
   BasicStats.totalOwed (BasicStats.getUserStats "A" [] [g; g]) = 20 /\
   toFixed2 (userIsOwed (calculateUserBalance (g ++ g) "A")) = 2001 # 100).
Proof.
  split.
  - eexists. split; [vm_compute; reflexivity|]. split; [reflexivity|].
    intro H. apply toFixed2_of_cents in H. vm_compute in H. discriminate.
  - cbv zeta. split; reflexivity.
Qed.

(** C7 (amended).  In [getGroupBalanceSummary] the reported [othersPaidYou]
    is, rounded to two decimals, the sum of the shares of every settled split
    of another participant over the expenses the participant paid, plus the
    participant's own settled share on each expense paid by somebody else. *)
Theorem summary_settled_back (expenses : list expense) (userId : string) :
  othersPaidYou (getGroupBalanceSummary expenses userId)
  = toFixed2 (settledBackTo userId expenses + ownSettledShares userId expenses).
Proof.
  apply summary_othersPaidYou.
Qed.

(** C7, as stated, fails: a participant who settled a share of 50 on an
    expense somebody else paid sees it reported as settled back to them; and
    the detailed [getUserStats] counts one settled split per expense and only
    the last group. *)
Lemma settled_back_counterexample :
  (let paidByB := [mkExpense "B" 100 [mkSplitDoc "A" 50 true; mkSplitDoc "B" 50 false]] in
   othersPaidYou (getGroupBalanceSummary paidByB "A") = 50 /\
   settledBackTo "A" paidByB == 0) /\
  (let paidByA := [mkExpense "A" 120 [mkSplitDoc "A" 50 false; mkSplitDoc "B" 50 true;
                                      mkSplitDoc "C" 20 true]] in
   let unsettled := [mkExpense "A" 10 [mkSplitDoc "A" 5 false; mkSplitDoc "B" 5 false]] in
   DetailedStats.othersPaidYou (DetailedStats.getUserStats "A" [] [paidByA; unsettled]) = 0 /\
   DetailedStats.othersPaidYou (DetailedStats.getUserStats "A" [] [paidByA]) = 50 /\
   settledBackTo "A" (paidByA ++ unsettled) == 70).
Proof.
  cbv zeta. repeat split.
Qed.

(** * Further properties of the allocator *)

Lemma sumValues_Qsum (details : object Q) : sumValues details == Qsum (obj_values details).
Proof.
  unfold sumValues.
  rewrite (fold_left_add (fun v : Q => v) (obj_values details) 0).
  rewrite map_id. ring.
Qed.

Lemma count_positive (u : string) (us : list string) : 0 < count (u :: us).
Proof.
  rewrite count_cons. pose proof (count_nonneg us). lra.
Qed.

(** X1.  Whatever the positive amount, whole cents or not, the shares
    [calculateEqualSplit] returns are one per participant and sum to within
    half a cent of the amount. *)
Theorem equal_split_within_half_cent
    (amount : Q) (users : list string) (details : object Q) :
  0 < amount -> users <> [] ->
  exists splits,
    Helpers.calculateSplits amount "equal" users details = Returned splits /\
    List.length splits = List.length users /\
    Qabs (sumShares splits - amount) <= 1 # 200.
Proof.
  intros Hpos Hne.
  destruct users as [| u us]; [congruence|].
  unfold Helpers.calculateSplits.
  replace (Qle_bool amount 0) with false by (symmetry; apply Qle_bool_false; exact Hpos).
  cbn [List.length Nat.eqb String.eqb Ascii.eqb Bool.eqb].
  rewrite calculateEqualSplit_cons.
  set (p := toFixed2 (amount / count (u :: us))).
  set (d := amount - p * count (u :: us)).
  eexists. split; [reflexivity|].
  split; [cbn [List.length]; rewrite length_map; reflexivity|].
  cbn [sumShares fold_right share].
  fold (sumShares (map (fun v => mkSplit v p) us)).
  rewrite sumShares_const.
  assert (Ha : amount == p + d + p * count us).
  { subst d. rewrite count_cons. ring. }
  destruct (Qeq_bool d 0) eqn:E; cbn [negb].
  - apply Qeq_bool_iff in E.
    assert (Ez : p + p * count us - amount == 0) by (rewrite Ha, E; ring).
    rewrite Ez. discriminate.
  - assert (Ez : toFixed2 (p + d) + p * count us - amount == toFixed2 (p + d) - (p + d)).
    { rewrite Ha at 1. ring. }
    rewrite Ez. apply toFixed2_error.
Qed.

Lemma equal_split_within_half_cent_witness :
  exists splits,
    Helpers.calculateSplits (10001 # 1000) "equal" ["a"; "b"] [] = Returned splits /\
    List.length splits = List.length ["a"; "b"] /\
    Qabs (sumShares splits - (10001 # 1000)) <= 1 # 200.
Proof.
  apply (equal_split_within_half_cent (10001 # 1000) ["a"; "b"] []).
  - reflexivity.
  - discriminate.
Defined.

(** X2.  The inline revision gives every participant the same share, the
    amount over the head count rounded to two decimals (a whole number of
    cents at most half a cent from the quotient), so the shares can be off
    the amount by up to half a cent per participant. *)
Theorem inline_equal_split_drift
    (amount : Q) (users : list string) (details : object Q) :
  0 < amount -> users <> [] ->
  exists perUserAmount splits,
    Inline.calculateSplits amount "equal" users details = Returned splits /\
    map user splits = users /\
    roundsTo (amount / count users) perUserAmount /\
    (forall s, In s splits -> share s == perUserAmount) /\
    sumShares splits == perUserAmount * count users /\
    Qabs (sumShares splits - amount) <= (1 # 200) * count users.
Proof.
  intros Hpos Hne.
  destruct users as [| u us]; [congruence|].
  unfold Inline.calculateSplits.
  replace (Qle_bool amount 0) with false by (symmetry; apply Qle_bool_false; exact Hpos).
  cbn [List.length Nat.eqb String.eqb Ascii.eqb Bool.eqb].
  set (n := count (u :: us)).
  set (p := toFixed2 (amount / n)).
  exists p. eexists. split; [reflexivity|].
  split; [apply map_user_const|].
  split; [split; [apply toFixed2_is_cents | apply toFixed2_error]|].
  split.
  { intros s Hs. apply in_map_iff in Hs. destruct Hs as [v [<- _]]. reflexivity. }
  pose proof (sumShares_const p (u :: us)) as Hsum. fold n in Hsum.
  split; [exact Hsum|].
  assert (Hn : 0 < n) by apply count_positive.
  assert (Ha : amount == amount / n * n) by (field; lra).
  assert (Ez : sumShares (map (fun userId => mkSplit userId p) (u :: us)) - amount
               == (p - amount / n) * n).
  { rewrite Hsum. rewrite Ha at 1. ring. }
  rewrite Ez, Qabs_Qmult.
  rewrite (Qabs_pos n) by lra.
  apply Qmult_le_compat_r; [apply toFixed2_error | lra].
Qed.

Lemma inline_equal_split_drift_witness :
  exists perUserAmount splits,
    Inline.calculateSplits 100 "equal" ["a"; "b"; "c"] [] = Returned splits /\
    map user splits = ["a"; "b"; "c"] /\
    roundsTo (100 / count ["a"; "b"; "c"]) perUserAmount /\
    (forall s, In s splits -> share s == perUserAmount) /\
    sumShares splits == perUserAmount * count ["a"; "b"; "c"] /\
    Qabs (sumShares splits - 100) <= (1 # 200) * count ["a"; "b"; "c"].
Proof.
  apply (inline_equal_split_drift 100 ["a"; "b"; "c"] []).
  - reflexivity.
  - discriminate.
Defined.

Lemma sumShares_Qsum (splits : list split) : sumShares splits == Qsum (map share splits).
Proof.
  induction splits as [| s l IH]; [reflexivity|].
  change (share s + sumShares l == share s + Qsum (map share l)).
  rewrite IH. reflexivity.
Qed.

Lemma exactSplits_shares (entries : object Q) :
  map share (exactSplits entries) = obj_values entries.
Proof.
  induction entries as [| [k v] rest IH]; cbn; [reflexivity|].
  f_equal. exact IH.
Qed.

Lemma guards_passed_helpers
    (amount : Q) (splitType : string) (users : list string) (details : object Q)
    (splits : list split) :
  Helpers.calculateSplits amount splitType users details = Returned splits ->
  0 < amount /\ users <> [].
Proof.
  unfold Helpers.calculateSplits. intro H.
  destruct (Qle_bool amount 0) eqn:Ea; [discriminate|].
  destruct users as [| u us]; [discriminate|].
  split; [apply Qle_bool_false; exact Ea | discriminate].
Qed.

(** X3.  A successful [exact] allocation of the helper revision returns the
    declared shares verbatim, one per key of the details in order, and they
    sum to within 0.01 of the amount. *)
Theorem exact_split_verbatim
    (amount : Q) (users : list string) (details : object Q) (splits : list split) :
  Helpers.calculateSplits amount "exact" users details = Returned splits ->
  splits = exactSplits details /\
  map share splits = obj_values details /\
  Qabs (sumShares splits - amount) <= 1 # 100.
Proof.
  intro H. unfold Helpers.calculateSplits in H.
  destruct (Qle_bool amount 0); [discriminate|].
  destruct (Nat.eqb (List.length users) 0); [discriminate|].
  cbn [String.eqb Ascii.eqb Bool.eqb] in H.
  apply validateExactSplit_returned in H. destruct H as [-> [_ Hdev]].
  split; [reflexivity|]. split; [apply exactSplits_shares|].
  assert (E : sumShares (exactSplits details) - amount == sumValues details - amount).
  { rewrite sumShares_Qsum, exactSplits_shares, sumValues_Qsum. reflexivity. }
  rewrite E. exact Hdev.
Qed.

Lemma exact_split_verbatim_witness :
  [mkSplit "a" (3333 # 100); mkSplit "b" (6667 # 100)]
    = exactSplits [("a", 3333 # 100); ("b", 6667 # 100)] /\
  map share [mkSplit "a" (3333 # 100); mkSplit "b" (6667 # 100)]
    = obj_values [("a", 3333 # 100); ("b", 6667 # 100)] /\
  Qabs (sumShares [mkSplit "a" (3333 # 100); mkSplit "b" (6667 # 100)] - 100) <= 1 # 100.
Proof.
  apply (exact_split_verbatim 100 ["a"; "b"] [("a", 3333 # 100); ("b", 6667 # 100)]).
  reflexivity.
Defined.

(** X4.  What the helper revision accepts.  Splits are returned only if the
    amount is positive, the participant list is not empty, and the strategy
    is [equal], or [percentage] with no negative percentage and a total
    within 0.01 of 100, or [exact] with no negative share and a total within
    0.01 of the amount; and they are returned whenever that holds with the
    total strictly within 0.01 of its target. *)
Theorem helpers_acceptance
    (amount : Q) (splitType : string) (users : list string) (details : object Q) :
  ((exists splits, Helpers.calculateSplits amount splitType users details = Returned splits)
   ->
   0 < amount /\ users <> [] /\
   (splitType = "equal" \/
    (splitType = "percentage" /\ nonnegValues details /\
     Qabs (sumValues details - 100) <= 1 # 100) \/
    (splitType = "exact" /\ nonnegValues details /\
     Qabs (sumValues details - amount) <= 1 # 100))) /\
  (0 < amount /\ users <> [] /\
   (splitType = "equal" \/
    (splitType = "percentage" /\ nonnegValues details /\
     Qabs (sumValues details - 100) < 1 # 100) \/
    (splitType = "exact" /\ nonnegValues details /\
     Qabs (sumValues details - amount) < 1 # 100))
   ->
   exists splits, Helpers.calculateSplits amount splitType users details = Returned splits).
Proof.
  split.
  - intros [splits H].
    destruct (guards_passed_helpers _ _ _ _ _ H) as [Hpos Hne].
    split; [exact Hpos|]. split; [exact Hne|].
    unfold Helpers.calculateSplits in H.
    replace (Qle_bool amount 0) with false in H
      by (symmetry; apply Qle_bool_false; exact Hpos).
    rewrite (users_nonempty_eqb users Hne) in H.
    destruct (String.eqb splitType "equal") eqn:E1;
      [left; apply String.eqb_eq; exact E1|].
    destruct (String.eqb splitType "percentage") eqn:E2.
    { right. left. apply String.eqb_eq in E2.
      apply calculatePercentageSplit_returned in H. tauto. }
    destruct (String.eqb splitType "exact") eqn:E3; [|discriminate].
    right. right. apply String.eqb_eq in E3.
    apply validateExactSplit_returned in H. tauto.
  - intros [Hpos [Hne Hty]].
    unfold Helpers.calculateSplits.
    replace (Qle_bool amount 0) with false
      by (symmetry; apply Qle_bool_false; exact Hpos).
    rewrite (users_nonempty_eqb users Hne).
    destruct Hty as [-> | [[-> [Hnn Hdev]] | [-> [Hnn Hdev]]]];
      cbn [String.eqb Ascii.eqb Bool.eqb].
    + eexists. reflexivity.
    + unfold Helpers.calculatePercentageSplit.
      rewrite (percentageLoop_nonneg amount details Hnn).
      fold (sumValues details). unfold Math_abs.
      replace (Qlt_bool (1 # 100) (Qabs (sumValues details - 100))) with false
        by (symmetry; apply Qlt_bool_false; apply Qlt_le_weak; exact Hdev).
      eexists. reflexivity.
    + unfold Helpers.validateExactSplit.
      rewrite (exactLoop_nonneg details Hnn).
      fold (sumValues details). unfold Math_abs.
      replace (Qlt_bool (1 # 100) (Qabs (sumValues details - amount))) with false
        by (symmetry; apply Qlt_bool_false; apply Qlt_le_weak; exact Hdev).
      eexists. reflexivity.
Qed.

Lemma helpers_acceptance_witness :
  exists splits,
    Helpers.calculateSplits 100 "exact" ["a"] [("a", 3333 # 100); ("b", 6667 # 100)]
      = Returned splits.
Proof.
  apply (proj2 (helpers_acceptance 100 "exact" ["a"] [("a", 3333 # 100); ("b", 6667 # 100)])).
  split; [reflexivity|]. split; [discriminate|].
  right. right. split; [reflexivity|]. split; [|reflexivity].
  intros k v [H | [H | []]]; injection H as _ <-; discriminate.
Defined.

Lemma inline_shares_close (amount : Q) (entries : object Q) :
  Forall2 (fun s s' => user s = user s' /\ Qabs (share s - share s') <= 1 # 100)
          (percentageSplits amount entries)
          (map (fun '(userId, percentage) =>
                  mkSplit userId (toFixed2 ((percentage / 100) * amount))) entries).
Proof.
  induction entries as [| [k p] rest IH]; cbn [percentageSplits map]; constructor.
  - cbn [user share]. split; [reflexivity|].
    rewrite (toFixed2_comp (amount * p / 100) (p / 100 * amount)) by field.
    assert (E : toFixed2 (p / 100 * amount) - toFixed2 (p / 100 * amount) == 0) by ring.
    rewrite E. discriminate.
  - exact IH.
Qed.

(** X5.  Whatever the helper revision accepts as a [percentage] allocation
    the inline revision accepts too, for the same users in the same order
    and with shares at most a cent away: both round the same product to two
    decimals, computed in a different order.  The inline revision only lacks
    the rejection of negative percentages. *)
Theorem helpers_percentage_refines_inline
    (amount : Q) (users : list string) (details : object Q) (splits : list split) :
  Helpers.calculateSplits amount "percentage" users details = Returned splits ->
  exists splits',
    Inline.calculateSplits amount "percentage" users details = Returned splits' /\
    Forall2 (fun s s' => user s = user s' /\ Qabs (share s - share s') <= 1 # 100)
            splits splits'.
Proof.
  intro H.
  destruct (guards_passed_helpers _ _ _ _ _ H) as [Hpos Hne].
  unfold Helpers.calculateSplits in H. unfold Inline.calculateSplits.
  replace (Qle_bool amount 0) with false in *
    by (symmetry; apply Qle_bool_false; exact Hpos).
  rewrite (users_nonempty_eqb users Hne) in *.
  cbn [String.eqb Ascii.eqb Bool.eqb] in *.
  apply calculatePercentageSplit_returned in H. destruct H as [-> [_ Hdev]].
  unfold Math_abs.
  replace (Qlt_bool (1 # 100) (Qabs (sumValues details - 100))) with false
    by (symmetry; apply Qlt_bool_false; exact Hdev).
  eexists. split; [reflexivity|].
  apply inline_shares_close.
Qed.

Lemma helpers_percentage_refines_inline_witness :
  exists splits',
    Inline.calculateSplits 100 "percentage" ["a"] [("a", 60); ("b", 40)] = Returned splits' /\
    Forall2 (fun s s' => user s = user s' /\ Qabs (share s - share s') <= 1 # 100)
            [mkSplit "a" 60; mkSplit "b" 40] splits'.
Proof.
  apply (helpers_percentage_refines_inline 100 ["a"] [("a", 60); ("b", 40)]).
  reflexivity.
Defined.

Lemma rounded_sum_bound (amount : Q) (entries : object Q) :
  Qabs (sumShares (percentageSplits amount entries)
        - amount * Qsum (obj_values entries) / 100)
  <= (1 # 200) * count (obj_keys entries).
Proof.
  apply Qabs_Qle_condition.
  induction entries as [| [k p] rest IH].
  - change (- ((1 # 200) * 0) <= 0 - amount * 0 / 100 <= (1 # 200) * 0).
    split; lra100.
  - cbn [obj_keys map fst]. rewrite count_cons. fold (obj_keys rest).
    change (sumShares (percentageSplits amount ((k, p) :: rest)))
      with (toFixed2 (amount * p / 100) + sumShares (percentageSplits amount rest)).
    change (Qsum (obj_values ((k, p) :: rest))) with (p + Qsum (obj_values rest)).
    pose proof (toFixed2_error (amount * p / 100)) as He.
    apply Qabs_Qle_condition in He.
    assert (Ed : amount * (p + Qsum (obj_values rest)) / 100
                 == amount * p / 100 + amount * Qsum (obj_values rest) / 100) by field.
    rewrite Ed.
    set (x := amount * p / 100) in *.
    set (y := amount * Qsum (obj_values rest) / 100) in *.
    set (c := count (obj_keys rest)) in *.
    split; lra.
Qed.

Lemma percentageSplits_rounded (amount : Q) (entries : object Q) :
  Forall2 (fun s kv => user s = fst kv /\ roundsTo (amount * snd kv / 100) (share s))
          (percentageSplits amount entries) entries.
Proof.
  induction entries as [| [k p] rest IH]; cbn [percentageSplits map]; constructor.
  - cbn [user share fst snd]. split; [reflexivity|].
    split; [apply toFixed2_is_cents | apply toFixed2_error].
  - exact IH.
Qed.

(** X6.  A successful [percentage] allocation returns, for each entry of the
    details in order, the amount times the percentage over 100 rounded to two
    decimals (a whole number of cents at most half a cent from it), and is
    never corrected for rounding: its shares can be off the amount by up to
    half a cent per entry plus one ten-thousandth of the amount. *)
Theorem percentage_split_drift
    (amount : Q) (users : list string) (details : object Q) (splits : list split) :
  Helpers.calculateSplits amount "percentage" users details = Returned splits ->
  Forall2 (fun s kv => user s = fst kv /\ roundsTo (amount * snd kv / 100) (share s))
          splits details /\
  Qabs (sumShares splits - amount)
  <= (1 # 200) * count (obj_keys details) + amount * (1 # 10000).
Proof.
  intro H.
  destruct (guards_passed_helpers _ _ _ _ _ H) as [Hpos _].
  unfold Helpers.calculateSplits in H.
  destruct (Qle_bool amount 0); [discriminate|].
  destruct (Nat.eqb (List.length users) 0); [discriminate|].
  cbn [String.eqb Ascii.eqb Bool.eqb] in H.
  apply calculatePercentageSplit_returned in H. destruct H as [-> [_ Hdev]].
  split; [apply percentageSplits_rounded|].
  pose proof (rounded_sum_bound amount details) as Hr.
  rewrite sumValues_Qsum in Hdev.
  set (S := Qsum (obj_values details)) in *.
  set (T := sumShares (percentageSplits amount details)) in *.
  set (c := count (obj_keys details)) in *.
  apply Qabs_Qle_condition in Hr. apply Qabs_Qle_condition in Hdev.
  apply Qabs_Qle_condition.
  assert (Hprod : - (amount * (1 # 100)) <= amount * (S - 100)
                  /\ amount * (S - 100) <= amount * (1 # 100)).
  { split.
    - assert (E : - (amount * (1 # 100)) == amount * - (1 # 100)) by ring.
      rewrite E. apply Qmult_le_l; [exact Hpos | tauto].
    - apply Qmult_le_l; [exact Hpos | tauto]. }
  assert (Ea : amount * S / 100 == amount + amount * (S - 100) * (1 # 100)) by field.
  rewrite Ea in Hr.
  set (z := amount * (S - 100)) in *.
  split; lra.
Qed.

Lemma percentage_split_drift_witness :
  Forall2 (fun s kv => user s = fst kv /\ roundsTo (100 * snd kv / 100) (share s))
          [mkSplit "a" (3333 # 100); mkSplit "b" (3333 # 100); mkSplit "c" (3333 # 100)]
          [("a", 33333 # 1000); ("b", 33333 # 1000); ("c", 33334 # 1000)] /\
  Qabs (sumShares [mkSplit "a" (3333 # 100); mkSplit "b" (3333 # 100);
                   mkSplit "c" (3333 # 100)] - 100)
  <= (1 # 200) * count (obj_keys [("a", 33333 # 1000); ("b", 33333 # 1000);
                                  ("c", 33334 # 1000)])
     + 100 * (1 # 10000).
Proof.
  apply (percentage_split_drift 100 ["a"; "b"; "c"]
           [("a", 33333 # 1000); ("b", 33333 # 1000); ("c", 33334 # 1000)]).
  reflexivity.
Defined.

(** * Further properties of the debt simplifier *)

Lemma positiveCents_at_least_one (e : entry) : positiveCents e -> 1 # 100 <= e_amount e.
Proof.
  intros [Hpos Hc].
  destruct (Qlt_le_dec (e_amount e) (1 # 100)) as [Hlt | Hge]; [|exact Hge].
  pose proof (cents_below_one _ Hc (Qlt_le_weak _ _ Hpos) Hlt) as Hz. lra.
Qed.

Lemma simplifyLoop_amounts (fuel : nat) :
  forall debtors creditors txs,
    Forall positiveCents debtors -> Forall positiveCents creditors ->
    simplifyLoop fuel debtors creditors = Some txs ->
    forall t, In t txs -> 1 # 100 <= t_amount t /\ is_cents (t_amount t).
Proof.
  induction fuel as [| fuel IH]; intros debtors creditors txs Hd Hc H t Ht;
    destruct debtors as [| d ds]; destruct creditors as [| c cs];
    cbn [simplifyLoop] in H; try discriminate;
    try (injection H as <-; destruct Ht).
  cbn [e_amount id] in H.
  set (m := Math_min (e_amount d) (e_amount c)) in H.
  inversion Hd as [| ? ? Hdp Hds]; subst.
  inversion Hc as [| ? ? Hcp Hcs]; subst.
  pose proof (positiveCents_at_least_one d Hdp) as Hd1.
  pose proof (positiveCents_at_least_one c Hcp) as Hc1.
  destruct Hdp as [Hdpos Hdc]. destruct Hcp as [Hcpos Hcc].
  assert (Hm : 1 # 100 <= m /\ m <= e_amount d /\ m <= e_amount c /\ is_cents m).
  { subst m.
    destruct (Math_min_cases (e_amount d) (e_amount c)) as [[Hle ->] | [Hlt ->]];
      repeat split; try assumption; lra. }
  destruct Hm as [Hm1 [Hmd [Hmc Hmcents]]].
  destruct (step_list d m ds) as [Hd' _];
    [apply is_cents_minus; assumption | lra | exact Hds |].
  destruct (step_list c m cs) as [Hc' _];
    [apply is_cents_minus; assumption | lra | exact Hcs |].
  cbv zeta in Hd', Hc'.
  match type of H with
  | option_map _ (simplifyLoop fuel ?ds' ?cs') = _ =>
      destruct (simplifyLoop fuel ds' cs') as [r |] eqn:Er; [|discriminate]
  end.
  cbn [option_map] in H. injection H as <-.
  apply in_app_or in Ht. destruct Ht as [Ht | Ht].
  - destruct (Qlt_bool 0 m); [|destruct Ht].
    destruct Ht as [<- | []]. cbn [t_amount].
    split; [|apply toFixed2_is_cents].
    rewrite (toFixed2_of_cents m Hmcents). exact Hm1.
  - apply (IH _ _ _ Hd' Hc' Er t Ht).
Qed.

(** X7.  Every transaction [simplifyDebts] returns moves a whole number of
    cents, at least one, between two different participants. *)
Theorem simplifyDebts_transactions_wellformed
    (balances : object number) (txs : list transaction) :
  NoDup (obj_keys balances) -> simplifyDebts balances = Some txs ->
  forall t, In t txs ->
    from t <> to t /\ 1 # 100 <= t_amount t /\ is_cents (t_amount t).
Proof.
  intros Hnd H t Ht. unfold simplifyDebts in H. split.
  - destruct (simplifyLoop_parties _ _ _ _ H t Ht) as [Hf Hto].
    apply (proj1 (sortDesc_ids _ _)) in Hf. apply (proj1 (sortDesc_ids _ _)) in Hto.
    apply debtorsOf_ids in Hf. apply creditorsOf_ids in Hto.
    destruct Hf as [b [Hb Hneg]]. destruct Hto as [b' [Hb' Hpos]].
    intro E. rewrite E in Hb.
    pose proof (unique_value _ _ _ _ Hnd Hb Hb') as Eb. injection Eb as ->. lra.
  - refine (simplifyLoop_amounts _ _ _ _ _ _ H t Ht).
    + apply (Permutation_Forall (Permutation_sym (sortDesc_perm _))).
      apply debtorsOf_positiveCents.
    + apply (Permutation_Forall (Permutation_sym (sortDesc_perm _))).
      apply creditorsOf_positiveCents.
Qed.

Lemma simplifyDebts_transactions_wellformed_witness :
  from (mkTransaction "C" "B" 20) <> to (mkTransaction "C" "B" 20) /\
  1 # 100 <= t_amount (mkTransaction "C" "B" 20) /\
  is_cents (t_amount (mkTransaction "C" "B" 20)).
Proof.
  apply (simplifyDebts_transactions_wellformed
           [("A", Num 30); ("B", Num 20); ("C", Num (- (50)))]
           [mkTransaction "C" "A" 30; mkTransaction "C" "B" 20]).
  - repeat constructor; cbn; intuition discriminate.
  - reflexivity.
  - right. left. reflexivity.
Defined.

Lemma simplifyLoop_length (fuel : nat) :
  forall debtors creditors txs,
    simplifyLoop fuel debtors creditors = Some txs ->
    (List.length txs <= Nat.pred (List.length debtors + List.length creditors))%nat.
Proof.
  induction fuel as [| fuel IH]; intros debtors creditors txs H;
    destruct debtors as [| d ds]; destruct creditors as [| c cs];
    cbn [simplifyLoop] in H; try discriminate;
    try (injection H as <-; cbn; lia).
  cbn [e_amount id] in H.
  set (m := Math_min (e_amount d) (e_amount c)) in H.
  match type of H with
  | option_map _ (simplifyLoop fuel ?ds' ?cs') = _ =>
      assert (Hsmall : (List.length ds' + List.length cs'
                        <= List.length ds + List.length cs + 1)%nat);
      [| destruct (simplifyLoop fuel ds' cs') as [r |] eqn:Er; [|discriminate]]
  end.
  { destruct (Math_min_cases (e_amount d) (e_amount c)) as [[Hle Hm] | [Hlt Hm]];
      fold m in Hm.
    - replace (Qlt_bool (e_amount d - m) (1 # 100)) with true
        by (symmetry; apply Qlt_bool_true; rewrite Hm; lra).
      destruct (Qlt_bool (e_amount c - m) (1 # 100)); cbn [List.length]; lia.
    - replace (Qlt_bool (e_amount c - m) (1 # 100)) with true
        by (symmetry; apply Qlt_bool_true; rewrite Hm; lra).
      destruct (Qlt_bool (e_amount d - m) (1 # 100)); cbn [List.length]; lia. }
  apply IH in Er.
  cbn [option_map] in H. injection H as <-.
  rewrite length_app. cbn [List.length].
  assert (Hp : (List.length (if Qlt_bool 0 m
                             then [mkTransaction (id d) (id c) (toFixed2 m)]
                             else []) <= 1)%nat).
  { destruct (Qlt_bool 0 m); cbn; lia. }
  match type of Er with
  | (_ <= Nat.pred ?k)%nat =>
      destruct k as [| k'] eqn:Ek; cbn [Nat.pred] in Er
  end.
  - lia.
  - lia.
Qed.

Lemma planLoop_length (fuel : nat) :
  forall creditors debtors txs,
    planLoop fuel creditors debtors = Some txs ->
    (List.length txs <= Nat.pred (List.length creditors + List.length debtors))%nat.
Proof.
  induction fuel as [| fuel IH]; intros creditors debtors txs H;
    destruct creditors as [| c cs]; destruct debtors as [| d ds];
    cbn [planLoop] in H; try discriminate;
    try (injection H as <-; cbn; lia).
  cbn [e_amount id] in H.
  set (m := Math_min (e_amount c) (e_amount d)) in H.
  match type of H with
  | option_map _ (planLoop fuel ?cs' ?ds') = _ =>
      assert (Hsmall : (List.length cs' + List.length ds'
                        <= List.length cs + List.length ds + 1)%nat);
      [| destruct (planLoop fuel cs' ds') as [r |] eqn:Er; [|discriminate]]
  end.
  { destruct (Math_min_cases (e_amount c) (e_amount d)) as [[Hle Hm] | [Hlt Hm]];
      fold m in Hm.
    - replace (Qle_bool (e_amount c - m) (1 # 100)) with true
        by (symmetry; apply Qle_bool_iff; rewrite Hm; lra).
      destruct (Qle_bool (e_amount d - m) (1 # 100)); cbn [List.length]; lia.
    - replace (Qle_bool (e_amount d - m) (1 # 100)) with true
        by (symmetry; apply Qle_bool_iff; rewrite Hm; lra).
      destruct (Qle_bool (e_amount c - m) (1 # 100)); cbn [List.length]; lia. }
  apply IH in Er.
  cbn [option_map] in H. injection H as <-.
  rewrite length_app. cbn [List.length].
  assert (Hp : (List.length (if Qlt_bool 0 m
                             then [mkTransaction (id d) (id c) (toFixed2 m)]
                             else []) <= 1)%nat).
  { destruct (Qlt_bool 0 m); cbn; lia. }
  match type of Er with
  | (_ <= Nat.pred ?k)%nat =>
      destruct k as [| k'] eqn:Ek; cbn [Nat.pred] in Er
  end.
  - lia.
  - lia.
Qed.

Lemma lists_length (balances : object number) :
  (List.length (creditorsOf balances) + List.length (debtorsOf balances)
   <= List.length balances)%nat.
Proof.
  induction balances as [| [k [b |]] rest IH]; cbn [creditorsOf debtorsOf List.length].
  - lia.
  - destruct (Qlt_bool 0 (toFixed2 b)); [cbn [List.length]; lia|].
    destruct (Qlt_bool (toFixed2 b) 0); cbn [List.length]; lia.
  - lia.
Qed.

Lemma planLists_length (balances : object number) :
  (List.length (planCreditors balances) + List.length (planDebtors balances)
   <= List.length balances)%nat.
Proof.
  induction balances as [| [k [b |]] rest IH]; cbn [planCreditors planDebtors List.length].
  - lia.
  - destruct (Qlt_bool 0 b); [cbn [List.length]; lia|].
    destruct (Qlt_bool b 0); cbn [List.length]; lia.
  - lia.
Qed.

Lemma sortDesc_length (l : list entry) : List.length (sortDesc l) = List.length l.
Proof. apply Permutation_length. apply sortDesc_perm. Qed.

(** X8.  [simplifyDebts] and [calculatePaymentPlan] return and need at most
    one transaction fewer than there are creditors and debtors, hence fewer
    transactions than there are participants. *)
Theorem plans_are_short (balances : object number) :
  (exists txs,
     simplifyDebts balances = Some txs /\
     (List.length txs
      <= Nat.pred (List.length (creditorsOf balances) + List.length (debtorsOf balances)))%nat /\
     (List.length txs <= Nat.pred (List.length balances))%nat) /\
  (exists txs,
     calculatePaymentPlan balances = Some txs /\
     (List.length txs
      <= Nat.pred (List.length (planCreditors balances)
                   + List.length (planDebtors balances)))%nat /\
     (List.length txs <= Nat.pred (List.length balances))%nat).
Proof.
  split.
  - destruct (simplifyDebts_total balances) as [txs H]. exists txs.
    split; [exact H|]. unfold simplifyDebts in H.
    apply simplifyLoop_length in H. rewrite !sortDesc_length in H.
    pose proof (lists_length balances). lia.
  - assert (Htot : exists txs, calculatePaymentPlan balances = Some txs).
    { unfold calculatePaymentPlan. apply planLoop_total. lia. }
    destruct Htot as [txs H]. exists txs.
    split; [exact H|]. unfold calculatePaymentPlan in H.
    apply planLoop_length in H. rewrite !sortDesc_length in H.
    pose proof (planLists_length balances). lia.
Qed.

(** X9.  In a plan of [simplifyDebts] nobody pays or receives more than
    their rounded balance says: a participant who is owed money pays nothing
    and receives at most the rounded balance, a participant who owes money
    receives nothing and pays at most the rounded debt. *)
Theorem nobody_overpays (balances : object number) (txs : list transaction) :
  NoDup (obj_keys balances) -> simplifyDebts balances = Some txs ->
  forall X b, In (X, Num b) balances ->
    (0 <= toFixed2 b ->
     outflow X txs == 0 /\ 0 <= inflow X txs /\ inflow X txs <= toFixed2 b) /\
    (toFixed2 b <= 0 ->
     inflow X txs == 0 /\ 0 <= outflow X txs /\ outflow X txs <= - toFixed2 b).
Proof.
  intros Hnd H X b Hin. unfold simplifyDebts in H.
  assert (Hd : Forall positiveCents (sortDesc (debtorsOf balances))).
  { apply (Permutation_Forall (Permutation_sym (sortDesc_perm _))).
    apply debtorsOf_positiveCents. }
  assert (Hc : Forall positiveCents (sortDesc (creditorsOf balances))).
  { apply (Permutation_Forall (Permutation_sym (sortDesc_perm _))).
    apply creditorsOf_positiveCents. }
  destruct (simplifyLoop_bounded _ _ _ _ Hd Hc H X) as [Hi0 [Hi [Ho0 Ho]]].
  rewrite (amountOf_perm X _ _ (sortDesc_perm (creditorsOf balances))) in Hi.
  rewrite (amountOf_perm X _ _ (sortDesc_perm (debtorsOf balances))) in Ho.
  pose proof (lists_hold_rounded_balance X b balances Hnd Hin) as Hdiff.
  pose proof (amountOf_nonneg X _ (creditorsOf_positiveCents balances)) as Hc0.
  pose proof (amountOf_nonneg X _ (debtorsOf_positiveCents balances)) as Hd0.
  destruct (one_list_only X balances Hnd) as [Hz | Hz]; split; intro Hsign;
    repeat split; lra.
Qed.

Lemma nobody_overpays_witness :
  (0 <= toFixed2 50 ->
   outflow "A" [mkTransaction "B" "A" 20] == 0 /\
   0 <= inflow "A" [mkTransaction "B" "A" 20] /\
   inflow "A" [mkTransaction "B" "A" 20] <= toFixed2 50) /\
  (toFixed2 50 <= 0 ->
   inflow "A" [mkTransaction "B" "A" 20] == 0 /\
   0 <= outflow "A" [mkTransaction "B" "A" 20] /\
   outflow "A" [mkTransaction "B" "A" 20] <= - toFixed2 50).
Proof.
  apply (nobody_overpays [("A", Num 50); ("B", Num (- (20)))]
           [mkTransaction "B" "A" 20]).
  - repeat constructor; cbn; intuition discriminate.
  - reflexivity.
  - left. reflexivity.
Defined.




Lemma insertDesc_sorted (x : entry) (l : list entry) :
  Sorted descending l -> Sorted descending (insertDesc x l).
Proof.
  induction 1 as [| y l Hl IH Hy]; cbn [insertDesc].
  - repeat constructor.
  - destruct (Qlt_bool (e_amount x) (e_amount y)) eqn:E.
    + constructor; [exact IH|].
      destruct l as [| z l]; cbn [insertDesc].
      * constructor. apply Qlt_bool_true in E. unfold descending. lra.
      * destruct (Qlt_bool (e_amount x) (e_amount z)).
        -- constructor. inversion Hy; subst. assumption.
        -- constructor. apply Qlt_bool_true in E. unfold descending. lra.
    + constructor; [constructor; assumption|].
      constructor. apply Qlt_bool_false in E. exact E.
Qed.

Lemma insertDesc_ties (v : Q) (x : entry) (l : list entry) :
  filter (fun e => Qeq_bool (e_amount e) v) (insertDesc x l)
  = filter (fun e => Qeq_bool (e_amount e) v) (x :: l).
Proof.
  induction l as [| y l IH]; cbn [insertDesc]; [reflexivity|].
  destruct (Qlt_bool (e_amount x) (e_amount y)) eqn:E; [|reflexivity].
  apply Qlt_bool_true in E.
  cbn [filter] in *.
  destruct (Qeq_bool (e_amount y) v) eqn:Ey; destruct (Qeq_bool (e_amount x) v) eqn:Ex;
    rewrite IH; try reflexivity.
  apply Qeq_bool_iff in Ey. apply Qeq_bool_iff in Ex. lra.
Qed.

(** X11.  The sort the two planners use returns the same entries with the
    largest amount first, and entries with equal amounts stay in the order
    they were in. *)
Theorem sortDesc_sorted_stable (l : list entry) :
  Permutation (sortDesc l) l /\
  Sorted descending (sortDesc l) /\
  forall v, filter (fun e => Qeq_bool (e_amount e) v) (sortDesc l)
            = filter (fun e => Qeq_bool (e_amount e) v) l.
Proof.
  split; [apply sortDesc_perm|]. split.
  - induction l as [| x l IH]; cbn [sortDesc fold_right].
    + constructor.
    + apply insertDesc_sorted. exact IH.
  - intro v. induction l as [| x l IH]; cbn [sortDesc fold_right]; [reflexivity|].
    fold (sortDesc l). rewrite insertDesc_ties. cbn [filter]. rewrite IH. reflexivity.
Qed.

(** * Further properties of the balance aggregator *)

Lemma subtract_splits_clear (ss : list splitDoc) :
  forall o : object number,
    fold_left (fun balances s => subFrom (s_user s) (s_share s) balances)
              (map (fun s => mkSplitDoc (s_user s) (s_share s) false) ss) o
    = fold_left (fun balances s => subFrom (s_user s) (s_share s) balances) ss o.
Proof.
  induction ss as [| s ss IH]; intro o; cbn [map fold_left]; [reflexivity|].
  cbn [s_user s_share]. apply IH.
Qed.

Lemma process_clear (expenses : list expense) :
  forall o : object number,
    fold_left processExpense (map clearSettled expenses) o
    = fold_left processExpense expenses o.
Proof.
  induction expenses as [| e es IH]; intro o; cbn [map fold_left]; [reflexivity|].
  rewrite IH. f_equal.
  unfold processExpense, clearSettled. cbn [paidBy amount splits].
  apply subtract_splits_clear.
Qed.

Lemma calculateGroupBalances_clear (expenses : list expense) (groupMembers : list string) :
  calculateGroupBalances (map clearSettled expenses) groupMembers
  = calculateGroupBalances expenses groupMembers.
Proof.
  unfold calculateGroupBalances. rewrite process_clear. reflexivity.
Qed.

(** X12.  Two lists of expenses that differ only in their settled flags give
    the same balances and the same transactions: settling a split never
    changes what [calculateGroupBalances] returns. *)
Theorem balances_ignore_settled
    (expenses expenses' : list expense) (groupMembers : list string) :
  map clearSettled expenses = map clearSettled expenses' ->
  calculateGroupBalances expenses groupMembers
  = calculateGroupBalances expenses' groupMembers.
Proof.
  intro H.
  rewrite <- (calculateGroupBalances_clear expenses),
          <- (calculateGroupBalances_clear expenses'), H.
  reflexivity.
Qed.

Lemma balances_ignore_settled_witness :
  calculateGroupBalances
    [mkExpense "A" 100 [mkSplitDoc "A" 50 false; mkSplitDoc "B" 50 false]] ["A"; "B"]
  = calculateGroupBalances
      [mkExpense "A" 100 [mkSplitDoc "A" 50 false; mkSplitDoc "B" 50 true]] ["A"; "B"].
Proof.
  apply (balances_ignore_settled
           [mkExpense "A" 100 [mkSplitDoc "A" 50 false; mkSplitDoc "B" 50 false]]
           [mkExpense "A" 100 [mkSplitDoc "A" 50 false; mkSplitDoc "B" 50 true]]
           ["A"; "B"]).
  reflexivity.
Defined.

(** Keys stay unique. *)
Lemma obj_set_keys {V : Type} (k : string) (v : V) (o : object V) :
  obj_keys (obj_set k v o) = obj_keys o \/
  (~ In k (obj_keys o) /\ obj_keys (obj_set k v o) = (obj_keys o ++ [k])%list).
Proof.
  induction o as [| [k' v'] rest IH]; cbn [obj_set].
  - right. split; [intros [] | reflexivity].
  - destruct (String.eqb k k') eqn:E.
    + left. reflexivity.
    + cbn [obj_keys map fst]. fold (obj_keys (obj_set k v rest)) (obj_keys rest).
      destruct IH as [IH | [Hn IH]].
      * left. rewrite IH. reflexivity.
      * right. split.
        -- intros [H | H]; [|exact (Hn H)].
           apply String.eqb_neq in E. congruence.
        -- rewrite IH. reflexivity.
Qed.

Lemma obj_set_nodup {V : Type} (k : string) (v : V) (o : object V) :
  NoDup (obj_keys o) -> NoDup (obj_keys (obj_set k v o)).
Proof.
  intro H. destruct (obj_set_keys k v o) as [E | [Hn E]]; rewrite E.
  - exact H.
  - apply NoDup_app; [exact H | repeat constructor; intros [] |].
    intros x Hx [<- | []]. exact (Hn Hx).
Qed.

Lemma addTo_nodup (k : string) (x : Q) (o : object number) :
  NoDup (obj_keys o) -> NoDup (obj_keys (addTo k x o)).
Proof.
  intro H. unfold addTo. destruct (obj_get k o); apply obj_set_nodup; exact H.
Qed.

Lemma subFrom_nodup (k : string) (x : Q) (o : object number) :
  NoDup (obj_keys o) -> NoDup (obj_keys (subFrom k x o)).
Proof.
  intro H. unfold subFrom. destruct (obj_get k o); apply obj_set_nodup; exact H.
Qed.

Lemma processExpense_nodup (e : expense) (o : object number) :
  NoDup (obj_keys o) -> NoDup (obj_keys (processExpense o e)).
Proof.
  intro H. unfold processExpense.
  apply addTo_nodup with (k := paidBy e) (x := amount e) in H.
  revert H. generalize (addTo (paidBy e) (amount e) o).
  induction (splits e) as [| s ss IH]; intros o' H; cbn [fold_left]; [exact H|].
  apply IH. apply subFrom_nodup. exact H.
Qed.

Lemma aggregated_nodup (expenses : list expense) (groupMembers : list string) :
  NoDup (obj_keys (fold_left processExpense expenses (initBalances groupMembers))).
Proof.
  assert (Hinit : NoDup (obj_keys (initBalances groupMembers))).
  { unfold initBalances.
    assert (G : forall (ms : list string) (o : object number),
               NoDup (obj_keys o) ->
               NoDup (obj_keys (fold_left (fun balances member =>
                                             obj_set member (Num 0) balances) ms o))).
    { induction ms as [| m ms IH]; intros o H; cbn [fold_left]; [exact H|].
      apply IH. apply obj_set_nodup. exact H. }
    apply G. constructor. }
  revert Hinit. generalize (initBalances groupMembers).
  induction expenses as [| e es IH]; intros o H; cbn [fold_left]; [exact H|].
  apply IH. apply processExpense_nodup. exact H.
Qed.

Lemma obj_get_in {V : Type} (X : string) (v : V) (o : object V) :
  NoDup (obj_keys o) -> In (X, v) o -> obj_get X o = Some v.
Proof.
  induction o as [| [k v'] rest IH]; intros Hnd Hin; [destruct Hin|].
  cbn [obj_keys map fst] in Hnd. inversion Hnd as [| ? ? Hk Hrest]; subst.
  cbn [obj_get]. destruct Hin as [H | H].
  - injection H as -> ->. rewrite String.eqb_refl. reflexivity.
  - destruct (String.eqb X k) eqn:E.
    + apply String.eqb_eq in E. subst k. exfalso. apply Hk.
      apply (in_map fst) in H. exact H.
    + apply IH; assumption.
Qed.

(** A key that holds no finite number: absent, or [NaN]. *)
Lemma addTo_not_a_number (X k : string) (x : Q) (o : object number) :
  obj_get X o = None \/ obj_get X o = Some NaN ->
  (k = X -> obj_get X (addTo k x o) = Some NaN) /\
  (obj_get X (addTo k x o) = None \/ obj_get X (addTo k x o) = Some NaN).
Proof.
  intro H. unfold addTo.
  destruct (string_dec k X) as [-> | Hne].
  - assert (G : obj_get X match obj_get X o with
                          | Some n => obj_set X (number_add n x) o
                          | None => obj_set X NaN o
                          end = Some NaN).
    { destruct H as [H | H]; rewrite H; cbn [number_add]; apply obj_get_set_same. }
    split; [intros _; exact G | right; exact G].
  - split; [congruence|].
    assert (Hne' : X <> k) by congruence.
    destruct (obj_get k o); rewrite (obj_get_set_other X k _ o Hne'); exact H.
Qed.

Lemma subFrom_not_a_number (X k : string) (x : Q) (o : object number) :
  obj_get X o = None \/ obj_get X o = Some NaN ->
  (k = X -> obj_get X (subFrom k x o) = Some NaN) /\
  (obj_get X (subFrom k x o) = None \/ obj_get X (subFrom k x o) = Some NaN).
Proof.
  intro H. unfold subFrom.
  destruct (string_dec k X) as [-> | Hne].
  - assert (G : obj_get X match obj_get X o with
                          | Some n => obj_set X (number_sub n x) o
                          | None => obj_set X NaN o
                          end = Some NaN).
    { destruct H as [H | H]; rewrite H; cbn [number_sub]; apply obj_get_set_same. }
    split; [intros _; exact G | right; exact G].
  - split; [congruence|].
    assert (Hne' : X <> k) by congruence.
    destruct (obj_get k o); rewrite (obj_get_set_other X k _ o Hne'); exact H.
Qed.

Lemma subtract_splits_not_a_number (X : string) (ss : list splitDoc) :
  forall o : object number,
    obj_get X o = None \/ obj_get X o = Some NaN ->
    let o' := fold_left (fun balances s => subFrom (s_user s) (s_share s) balances) ss o in
    (In X (map s_user ss) \/ obj_get X o = Some NaN -> obj_get X o' = Some NaN) /\
    (obj_get X o' = None \/ obj_get X o' = Some NaN).
Proof.
  induction ss as [| s ss IH]; intros o H; cbv zeta; cbn [fold_left map].
  - split; [|exact H]. intros [[] | Hn]. exact Hn.
  - destruct (subFrom_not_a_number X (s_user s) (s_share s) o H) as [H1 H2].
    destruct (IH _ H2) as [I1 I2]. cbv zeta in I1, I2.
    split; [|exact I2].
    intros [[Hs | Hin] | Hn].
    + apply I1. right. apply H1. exact Hs.
    + apply I1. left. exact Hin.
    + apply I1. right.
      destruct H2 as [H2 | H2]; [|exact H2].
      destruct (string_dec (s_user s) X) as [E | E]; [apply H1; exact E|].
      unfold subFrom in *.
      assert (Hne' : X <> s_user s) by congruence.
      destruct (obj_get (s_user s) o);
        rewrite (obj_get_set_other X _ _ o Hne') in H2; congruence.
Qed.

Lemma processExpense_not_a_number (X : string) (e : expense) (o : object number) :
  obj_get X o = None \/ obj_get X o = Some NaN ->
  (In X (mentions e) \/ obj_get X o = Some NaN -> obj_get X (processExpense o e) = Some NaN) /\
  (obj_get X (processExpense o e) = None \/ obj_get X (processExpense o e) = Some NaN).
Proof.
  intro H. unfold processExpense, mentions.
  destruct (addTo_not_a_number X (paidBy e) (amount e) o H) as [H1 H2].
  destruct (subtract_splits_not_a_number X (splits e) _ H2) as [I1 I2].
  cbv zeta in I1, I2. split; [|exact I2].
  intros [[Hp | Hin] | Hn].
  - apply I1. right. apply H1. exact Hp.
  - apply I1. left. exact Hin.
  - apply I1. right.
    destruct H2 as [H2 | H2]; [|exact H2].
    destruct (string_dec (paidBy e) X) as [E | E]; [apply H1; exact E|].
    unfold addTo in *.
    assert (Hne' : X <> paidBy e) by congruence.
    destruct (obj_get (paidBy e) o);
      rewrite (obj_get_set_other X _ _ o Hne') in H2; congruence.
Qed.

Lemma process_expenses_not_a_number (X : string) (expenses : list expense) :
  forall o : object number,
    obj_get X o = None \/ obj_get X o = Some NaN ->
    (Exists (fun e => In X (mentions e)) expenses \/ obj_get X o = Some NaN) ->
    obj_get X (fold_left processExpense expenses o) = Some NaN.
Proof.
  induction expenses as [| e es IH]; intros o H Hm; cbn [fold_left].
  - destruct Hm as [Hm | Hm]; [inversion Hm | exact Hm].
  - destruct (processExpense_not_a_number X e o H) as [H1 H2].
    apply IH; [exact H2|].
    destruct Hm as [Hm | Hm].
    + inversion Hm as [? ? Hhere | ? ? Hlater]; subst.
      * right. apply H1. left. exact Hhere.
      * left. exact Hlater.
    + right. apply H1. right. exact Hm.
Qed.

Lemma init_absent (X : string) (members : list string) :
  forall o : object number,
    ~ In X members -> obj_get X o = None ->
    obj_get X (fold_left (fun balances member => obj_set member (Num 0) balances) members o)
    = None.
Proof.
  induction members as [| m ms IH]; intros o Hn Ho; cbn [fold_left]; [exact Ho|].
  apply IH.
  - intro H. apply Hn. right. exact H.
  - rewrite obj_get_set_other; [exact Ho|].
    intro E. apply Hn. left. congruence.
Qed.

(** X13.  A user who is named by an expense, as payer or in a split, but is
    not in the member list has no balance to add to: the balance
    [calculateGroupBalances] returns for that user is [NaN], and the user is
    in no transaction. *)
Theorem outsider_balance_is_NaN
    (expenses : list expense) (groupMembers : list string) (X : string) :
  ~ In X groupMembers -> Exists (fun e => In X (mentions e)) expenses ->
  exists r,
    calculateGroupBalances expenses groupMembers = Some r /\
    obj_get X (balances r) = Some NaN /\
    forall t, In t (transactions r) -> from t <> X /\ to t <> X.
Proof.
  intros Hout Hm. unfold calculateGroupBalances.
  set (o := fold_left processExpense expenses (initBalances groupMembers)).
  destruct (simplifyDebts_total o) as [txs Htxs]. rewrite Htxs.
  eexists. split; [reflexivity|]. cbn [balances transactions].
  assert (HX : obj_get X o = Some NaN).
  { subst o. apply process_expenses_not_a_number.
    - left. unfold initBalances. apply init_absent; [exact Hout | reflexivity].
    - left. exact Hm. }
  split; [exact HX|].
  assert (Hnd : NoDup (obj_keys o)) by apply aggregated_nodup.
  assert (Hnone : forall b, ~ In (X, Num b) o).
  { intros b Hin. rewrite (obj_get_in X (Num b) o Hnd Hin) in HX. discriminate. }
  intros t Ht. unfold simplifyDebts in Htxs.
  destruct (simplifyLoop_parties _ _ _ _ Htxs t Ht) as [Hf Hto].
  apply (proj1 (sortDesc_ids _ _)) in Hf. apply (proj1 (sortDesc_ids _ _)) in Hto.
  split; intros <-.
  - apply debtorsOf_ids in Hf. destruct Hf as [b [Hb _]]. exact (Hnone b Hb).
  - apply creditorsOf_ids in Hto. destruct Hto as [b [Hb _]]. exact (Hnone b Hb).
Qed.

Lemma outsider_balance_is_NaN_witness :
  exists r,
    calculateGroupBalances
      [mkExpense "A" 100 [mkSplitDoc "A" 50 false; mkSplitDoc "B" 50 false]] ["A"] = Some r /\
    obj_get "B" (balances r) = Some NaN /\
    forall t, In t (transactions r) -> from t <> "B" /\ to t <> "B".
Proof.
  apply (outsider_balance_is_NaN
           [mkExpense "A" 100 [mkSplitDoc "A" 50 false; mkSplitDoc "B" 50 false]]
           ["A"] "B").
  - intros [H | []]. discriminate.
  - constructor. right. right. left. reflexivity.
Defined.

Lemma objTotal_set (k : string) (q q' : Q) (o : object number) :
  obj_get k o = Some (Num q) ->
  objTotal (obj_set k (Num q') o) == objTotal o - q + q'.
Proof.
  induction o as [| [k' v'] rest IH]; cbn [obj_get obj_set]; intro H; [discriminate|].
  destruct (String.eqb k k').
  - injection H as ->. cbn [objTotal fold_right snd]. fold (objTotal rest). ring.
  - cbn [objTotal fold_right snd]. fold (objTotal rest) (objTotal (obj_set k (Num q') rest)).
    destruct v'; rewrite (IH H); ring.
Qed.

Lemma obj_set_finite (k : string) (q : Q) (o : object number) :
  (forall k' v, In (k', v) o -> v <> NaN) ->
  forall k' v, In (k', v) (obj_set k (Num q) o) -> v <> NaN.
Proof.
  induction o as [| [k0 v0] rest IH]; cbn [obj_set]; intros H k' v Hin.
  - destruct Hin as [E | []]. injection E as _ <-. discriminate.
  - destruct (String.eqb k k0).
    + destruct Hin as [E | Hin].
      * injection E as _ <-. discriminate.
      * apply (H k' v). right. exact Hin.
    + destruct Hin as [E | Hin].
      * apply (H k' v). left. exact E.
      * apply (IH (fun k1 v1 Hi => H k1 v1 (or_intror Hi)) k' v Hin).
Qed.

(** The state in which every member has a finite balance and nothing else is
    in the object. *)
Lemma addTo_member (members : list string) (k : string) (x : Q) (o : object number) :
  In k members ->
  (forall m, In m members -> exists q, obj_get m o = Some (Num q)) ->
  (forall k' v, In (k', v) o -> v <> NaN) ->
  (forall m, In m members -> exists q, obj_get m (addTo k x o) = Some (Num q)) /\
  (forall k' v, In (k', v) (addTo k x o) -> v <> NaN) /\
  objTotal (addTo k x o) == objTotal o + x.
Proof.
  intros Hk Hm Hf.
  split; [|split].
  - intros m Hin. destruct (Hm m Hin) as [q Hq].
    destruct (addTo_get m k x q o Hq) as [q' [Hq' _]]. exists q'. exact Hq'.
  - destruct (Hm k Hk) as [q Hq]. unfold addTo. rewrite Hq. cbn [number_add].
    apply obj_set_finite. exact Hf.
  - destruct (Hm k Hk) as [q Hq]. unfold addTo. rewrite Hq. cbn [number_add].
    rewrite (objTotal_set k q (q + x) o Hq). ring.
Qed.

Lemma subFrom_member (members : list string) (k : string) (x : Q) (o : object number) :
  In k members ->
  (forall m, In m members -> exists q, obj_get m o = Some (Num q)) ->
  (forall k' v, In (k', v) o -> v <> NaN) ->
  (forall m, In m members -> exists q, obj_get m (subFrom k x o) = Some (Num q)) /\
  (forall k' v, In (k', v) (subFrom k x o) -> v <> NaN) /\
  objTotal (subFrom k x o) == objTotal o - x.
Proof.
  intros Hk Hm Hf.
  split; [|split].
  - intros m Hin. destruct (Hm m Hin) as [q Hq].
    destruct (subFrom_get m k x q o Hq) as [q' [Hq' _]]. exists q'. exact Hq'.
  - destruct (Hm k Hk) as [q Hq]. unfold subFrom. rewrite Hq. cbn [number_sub].
    apply obj_set_finite. exact Hf.
  - destruct (Hm k Hk) as [q Hq]. unfold subFrom. rewrite Hq. cbn [number_sub].
    rewrite (objTotal_set k q (q - x) o Hq). ring.
Qed.

Lemma subtract_splits_member (members : list string) (ss : list splitDoc) :
  forall o : object number,
    incl (map s_user ss) members ->
    (forall m, In m members -> exists q, obj_get m o = Some (Num q)) ->
    (forall k' v, In (k', v) o -> v <> NaN) ->
    let o' := fold_left (fun balances s => subFrom (s_user s) (s_share s) balances) ss o in
    (forall m, In m members -> exists q, obj_get m o' = Some (Num q)) /\
    (forall k' v, In (k', v) o' -> v <> NaN) /\
    objTotal o' == objTotal o - Qsum (map s_share ss).
Proof.
  induction ss as [| s ss IH]; intros o Hincl Hm Hf; cbv zeta; cbn [fold_left map].
  - split; [exact Hm|]. split; [exact Hf|]. change (Qsum []) with 0. ring.
  - destruct (subFrom_member members (s_user s) (s_share s) o) as [Hm' [Hf' Ht']];
      [apply Hincl; left; reflexivity | exact Hm | exact Hf |].
    destruct (IH _ (fun a Ha => Hincl a (or_intror Ha)) Hm' Hf') as [Hm2 [Hf2 Ht2]].
    cbv zeta in Hm2, Hf2, Ht2.
    split; [exact Hm2|]. split; [exact Hf2|].
    rewrite Ht2, Ht'.
    change (Qsum (s_share s :: map s_share ss)) with (s_share s + Qsum (map s_share ss)).
    ring.
Qed.

Lemma process_expenses_member (members : list string) (expenses : list expense) :
  forall o : object number,
    (forall e, In e expenses -> incl (mentions e) members) ->
    (forall m, In m members -> exists q, obj_get m o = Some (Num q)) ->
    (forall k' v, In (k', v) o -> v <> NaN) ->
    let o' := fold_left processExpense expenses o in
    (forall k' v, In (k', v) o' -> v <> NaN) /\
    objTotal o' == objTotal o + Qsum (map amount expenses) - Qsum (map sharesOf expenses).
Proof.
  induction expenses as [| e es IH]; intros o Hincl Hm Hf; cbv zeta; cbn [fold_left map].
  - split; [exact Hf|]. change (Qsum []) with 0. ring.
  - assert (He : incl (mentions e) members) by (apply Hincl; left; reflexivity).
    destruct (addTo_member members (paidBy e) (amount e) o) as [Hm1 [Hf1 Ht1]];
      [apply He; left; reflexivity | exact Hm | exact Hf |].
    destruct (subtract_splits_member members (splits e) _
                (fun a Ha => He a (or_intror Ha)) Hm1 Hf1) as [Hm2 [Hf2 Ht2]].
    cbv zeta in Hm2, Hf2, Ht2.
    destruct (IH (processExpense o e) (fun e' He' => Hincl e' (or_intror He')) Hm2 Hf2)
      as [Hf3 Ht3].
    cbv zeta in Hf3, Ht3.
    split; [exact Hf3|].
    rewrite Ht3. unfold processExpense at 1. rewrite Ht2, Ht1.
    change (Qsum (amount e :: map amount es)) with (amount e + Qsum (map amount es)).
    change (Qsum (sharesOf e :: map sharesOf es))
      with (sharesOf e + Qsum (map sharesOf es)).
    unfold sharesOf at 2. ring.
Qed.

Lemma init_all_zero (members : list string) :
  forall o : object number,
    (forall k v, In (k, v) o -> v = Num 0) ->
    forall k v,
      In (k, v) (fold_left (fun balances member => obj_set member (Num 0) balances) members o) ->
      v = Num 0.
Proof.
  induction members as [| m ms IH]; intros o H; cbn [fold_left]; [exact H|].
  apply IH. clear IH.
  induction o as [| [k0 v0] rest IHo]; cbn [obj_set]; intros k v Hin.
  - destruct Hin as [E | []]. congruence.
  - destruct (String.eqb m k0).
    + destruct Hin as [E | Hin]; [congruence|]. apply (H k v). right. exact Hin.
    + destruct Hin as [E | Hin].
      * apply (H k v). left. exact E.
      * apply (IHo (fun k1 v1 Hi => H k1 v1 (or_intror Hi)) k v Hin).
Qed.

Lemma all_zero_total (o : object number) :
  (forall k v, In (k, v) o -> v = Num 0) -> objTotal o == 0.
Proof.
  induction o as [| [k v] rest IH]; intro H; [reflexivity|].
  cbn [objTotal fold_right snd]. fold (objTotal rest).
  rewrite (H k v (or_introl eq_refl)).
  rewrite IH; [ring|]. intros k' v' Hin. apply (H k' v'). right. exact Hin.
Qed.

Lemma Qsum_pointwise {A : Type} (f g : A -> Q) (l : list A) :
  (forall x, In x l -> f x == g x) -> Qsum (map f l) == Qsum (map g l).
Proof.
  induction l as [| x l IH]; intro H; [reflexivity|].
  change (f x + Qsum (map f l) == g x + Qsum (map g l)).
  rewrite (H x (or_introl eq_refl)), IH; [reflexivity|].
  intros y Hy. apply H. right. exact Hy.
Qed.

(** X14.  When every payer and every split user is a member, every balance
    [calculateGroupBalances] returns is a finite number and the balances sum
    to what was paid minus what was shared out; they sum to zero when the
    shares of every expense add up to its amount. *)
Theorem balances_sum (expenses : list expense) (groupMembers : list string) :
  (forall e, In e expenses -> incl (mentions e) groupMembers) ->
  exists r,
    calculateGroupBalances expenses groupMembers = Some r /\
    (forall k v, In (k, v) (balances r) -> v <> NaN) /\
    objTotal (balances r) == Qsum (map amount expenses) - Qsum (map sharesOf expenses) /\
    ((forall e, In e expenses -> sharesOf e == amount e) -> objTotal (balances r) == 0).
Proof.
  intro Hincl. unfold calculateGroupBalances.
  set (o := fold_left processExpense expenses (initBalances groupMembers)).
  destruct (simplifyDebts_total o) as [txs Htxs]. rewrite Htxs.
  eexists. split; [reflexivity|]. cbn [balances].
  assert (Hzero : forall k v, In (k, v) (initBalances groupMembers) -> v = Num 0).
  { unfold initBalances. apply init_all_zero. intros k v []. }
  destruct (process_expenses_member groupMembers expenses (initBalances groupMembers) Hincl)
    as [Hf Ht].
  - intros m Hm. exists 0. unfold initBalances. apply init_members_get. left. exact Hm.
  - intros k v Hin. rewrite (Hzero k v Hin). discriminate.
  - cbv zeta in Hf, Ht. fold o in Hf, Ht.
    rewrite (all_zero_total _ Hzero) in Ht.
    split; [exact Hf|]. split; [rewrite Ht; ring|].
    intro Hbal. rewrite Ht.
    rewrite (Qsum_pointwise sharesOf amount expenses Hbal). ring.
Qed.

Lemma balances_sum_witness :
  exists r,
    calculateGroupBalances
      [mkExpense "A" 90 [mkSplitDoc "A" 30 false; mkSplitDoc "B" 60 true]] ["A"; "B"] = Some r /\
    (forall k v, In (k, v) (balances r) -> v <> NaN) /\
    objTotal (balances r)
    == Qsum (map amount [mkExpense "A" 90 [mkSplitDoc "A" 30 false; mkSplitDoc "B" 60 true]])
       - Qsum (map sharesOf
                   [mkExpense "A" 90 [mkSplitDoc "A" 30 false; mkSplitDoc "B" 60 true]]) /\
    ((forall e,
        In e [mkExpense "A" 90 [mkSplitDoc "A" 30 false; mkSplitDoc "B" 60 true]] ->
        sharesOf e == amount e) ->
     objTotal (balances r) == 0).
Proof.
  apply (balances_sum
           [mkExpense "A" 90 [mkSplitDoc "A" 30 false; mkSplitDoc "B" 60 true]] ["A"; "B"]).
  intros e [<- | []] x [<- | [<- | [<- | []]]]; cbn; tauto.
Defined.

Lemma paidTotal_sum (X : string) (expenses : list expense) :
  paidTotal X expenses == Qsum (map amount (filter (paidByUser X) expenses)).
Proof.
  induction expenses as [| e es IH]; [reflexivity|].
  cbn [paidTotal fold_right filter]. fold (paidTotal X es).
  unfold paidByUser at 1, isUser. destruct (String.eqb (paidBy e) X); cbn [map].
  - change (Qsum (amount e :: map amount (filter (paidByUser X) es)))
      with (amount e + Qsum (map amount (filter (paidByUser X) es))).
    rewrite IH. reflexivity.
  - rewrite IH. ring.
Qed.

Lemma owed_absent (X : string) (ss : list splitDoc) :
  ~ In X (map s_user ss) ->
  fold_right (fun s acc => (if String.eqb (s_user s) X then s_share s else 0) + acc) 0 ss == 0.
Proof.
  induction ss as [| s ss IH]; intro H; [reflexivity|].
  cbn [fold_right].
  destruct (String.eqb (s_user s) X) eqn:E.
  - exfalso. apply H. left. apply String.eqb_eq. exact E.
  - rewrite IH; [ring|]. intro Hin. apply H. right. exact Hin.
Qed.

Lemma owedIn_ownShare (X : string) (e : expense) :
  NoDup (map s_user (splits e)) -> owedIn X e == ownShare X e.
Proof.
  unfold owedIn, ownShare. induction (splits e) as [| s ss IH]; intro Hnd; [reflexivity|].
  cbn [map] in Hnd. inversion Hnd as [| ? ? Hs Hss]; subst.
  cbn [fold_right find].
  destruct (String.eqb (s_user s) X) eqn:E.
  - apply String.eqb_eq in E. rewrite owed_absent; [ring|]. rewrite <- E. exact Hs.
  - rewrite (IH Hss). ring.
Qed.

(** X15.  When no expense lists a user twice, the raw balance
    [calculateGroupBalances] returns for a member is what
    [calculateUserBalance] says the member is owed minus what it says the
    member owes. *)
Theorem raw_balance_matches_user_balance
    (expenses : list expense) (groupMembers : list string) (X : string) :
  In X groupMembers ->
  (forall e, In e expenses -> NoDup (map s_user (splits e))) ->
  exists r q,
    calculateGroupBalances expenses groupMembers = Some r /\
    obj_get X (balances r) = Some (Num q) /\
    q == userIsOwed (calculateUserBalance expenses X)
         - userOwes (calculateUserBalance expenses X).
Proof.
  intros HX Hnd. unfold calculateGroupBalances.
  destruct (simplifyDebts_total
              (fold_left processExpense expenses (initBalances groupMembers)))
    as [txs Htxs].
  rewrite Htxs.
  assert (H0 : obj_get X (initBalances groupMembers) = Some (Num 0)).
  { unfold initBalances. apply init_members_get. left. exact HX. }
  destruct (process_expenses_get X expenses _ 0 H0) as [q [Hq Eq]].
  eexists. exists q. split; [reflexivity|]. cbn [balances].
  split; [exact Hq|].
  rewrite Eq, userIsOwed_sum, userOwes_sum, paidTotal_sum.
  assert (Eo : owedTotal X expenses == Qsum (map (ownShare X) expenses)).
  { clear - Hnd. induction expenses as [| e es IH]; [reflexivity|].
    cbn [owedTotal fold_right map]. fold (owedTotal X es).
    change (Qsum (ownShare X e :: map (ownShare X) es))
      with (ownShare X e + Qsum (map (ownShare X) es)).
    rewrite IH, owedIn_ownShare.
    - reflexivity.
    - apply Hnd. left. reflexivity.
    - intros e' He'. apply Hnd. right. exact He'. }
  rewrite Eo. ring.
Qed.

Lemma raw_balance_matches_user_balance_witness :
  exists r q,
    calculateGroupBalances
      [mkExpense "A" 90 [mkSplitDoc "A" 30 false; mkSplitDoc "B" 60 true]] ["A"; "B"] = Some r /\
    obj_get "A" (balances r) = Some (Num q) /\
    q == userIsOwed (calculateUserBalance
                       [mkExpense "A" 90 [mkSplitDoc "A" 30 false; mkSplitDoc "B" 60 true]] "A")
         - userOwes (calculateUserBalance
                       [mkExpense "A" 90 [mkSplitDoc "A" 30 false; mkSplitDoc "B" 60 true]] "A").
Proof.
  apply (raw_balance_matches_user_balance
           [mkExpense "A" 90 [mkSplitDoc "A" 30 false; mkSplitDoc "B" 60 true]]
           ["A"; "B"] "A").
  - left. reflexivity.
  - intros e [<- | []]. repeat constructor; cbn; intuition discriminate.
Defined.

(** * Further properties of the statistics *)

Lemma toFixed2_idempotent (x : Q) : toFixed2 (toFixed2 x) = toFixed2 x.
Proof.
  assert (E : toFixed2 (toFixed2 x) == toFixed2 x).
  { apply toFixed2_of_cents. apply toFixed2_is_cents. }
  assert (R : forall y, Qred (toFixed2 y) = toFixed2 y).
  { intro y. unfold toFixed2.
    destruct (Qlt_bool y 0); apply Qred_complete; apply Qred_correct. }
  transitivity (Qred (toFixed2 (toFixed2 x))); [symmetry; apply R|].
  transitivity (Qred (toFixed2 x)); [apply Qred_complete; exact E | apply R].
Qed.

(** X16.  For a user with a single group the detailed [getUserStats] and
    [getGroupBalanceSummary] of that group report the same share, the same
    amount paid, the same amount still to pay and the same amount others have
    yet to pay. *)
Theorem single_group_stats_match_summary
    (userId : string) (userExpenses : list expense) (g : list expense) :
  let r := DetailedStats.getUserStats userId userExpenses [g] in
  let s := getGroupBalanceSummary g userId in
  DetailedStats.totalOwing r = yourShare s /\
  DetailedStats.totalPaid r = youPaid s /\
  DetailedStats.youNeedToPay r = youNeedToPay s /\
  DetailedStats.othersYetToPay r = othersYetToPay s.
Proof.
  cbv zeta. unfold DetailedStats.getUserStats, getGroupBalanceSummary.
  cbn [fold_left]. unfold DetailedStats.groupStep.
  destruct g as [| e g]; [repeat split; reflexivity|].
  cbn [List.length Nat.eqb].
  cbn [DetailedStats.totalYourShare DetailedStats.totalYouPaid
       DetailedStats.totalYouNeedToPay DetailedStats.totalOthersYetToPay
       DetailedStats.totalOwing DetailedStats.totalPaid DetailedStats.youNeedToPay
       DetailedStats.othersYetToPay yourShare youPaid youNeedToPay othersYetToPay].
  unfold formatValue.
  repeat split; apply toFixed2_comp; ring.
Qed.

Lemma basic_totals_cents (userId : string) (groups : list (list expense)) :
  forall acc : Q * Q,
    is_cents (fst acc) -> is_cents (snd acc) ->
    let acc' :=
      fold_left
        (fun '(totalOwed, totalOwing) groupExpenses =>
           let b := calculateUserBalance groupExpenses userId in
           (totalOwed + toFixed2 (userIsOwed b), totalOwing + toFixed2 (userOwes b)))
        groups acc in
    is_cents (fst acc') /\ is_cents (snd acc').
Proof.
  induction groups as [| g gs IH]; intros [a b] Ha Hb; cbv zeta; cbn [fold_left].
  - split; assumption.
  - apply IH; cbn [fst snd] in *; apply is_cents_plus;
      try assumption; apply toFixed2_is_cents.
Qed.

(** X17.  The figures the basic [getUserStats] reports are consistent to the
    cent: each is a whole number of cents and the overall balance is exactly
    the reported total owed minus the reported total owing. *)
Theorem basic_stats_consistent
    (userId : string) (userExpenses : list expense) (groups : list (list expense)) :
  let r := BasicStats.getUserStats userId userExpenses groups in
  is_cents (BasicStats.totalOwed r) /\ is_cents (BasicStats.totalOwing r) /\
  BasicStats.overallBalance r == BasicStats.totalOwed r - BasicStats.totalOwing r.
Proof.
  cbv zeta. unfold BasicStats.getUserStats.
  pose proof (basic_totals_cents userId groups (0, 0)) as H. cbv zeta in H.
  destruct (fold_left _ groups (0, 0)) as [a b] eqn:E.
  destruct H as [Ha Hb]; [exists 0%Z; reflexivity | exists 0%Z; reflexivity |].
  cbn [fst snd] in Ha, Hb.
  cbn [BasicStats.totalOwed BasicStats.totalOwing BasicStats.overallBalance].
  split; [apply toFixed2_is_cents|]. split; [apply toFixed2_is_cents|].
  rewrite (toFixed2_of_cents a Ha), (toFixed2_of_cents b Hb).
  apply toFixed2_of_cents. apply is_cents_minus; assumption.
Qed.

(** * [addExpense] *)

Lemma fold_left_shares (ps : list split) :
  fold_left (fun sum s => sum + share s) ps 0 == sumShares ps.
Proof.
  rewrite (fold_left_add share ps 0), sumShares_Qsum. ring.
Qed.

Lemma adjustFirst_reconciles (amount : Q) (ps ps' : list split) :
  WithSelection.adjustFirst amount ps = Some ps' ->
  Qabs (sumShares ps' - amount) <= 1 # 100 /\
  map user ps' = map user ps /\ tl ps' = tl ps.
Proof.
  unfold WithSelection.adjustFirst. intro H.
  pose proof (fold_left_shares ps) as Ht.
  destruct (Qlt_bool (1 # 100)
              (Math_abs (fold_left (fun sum s => sum + share s) ps 0 - amount))) eqn:E.
  - destruct ps as [| first rest]; [discriminate|]. injection H as <-.
    split; [|split; reflexivity].
    set (total := fold_left (fun sum s => sum + share s) (first :: rest) 0) in *.
    change (fold_left (fun sum s => sum + share s) rest (0 + share first)) with total.
    cbn [sumShares fold_right share] in *. fold (sumShares rest) in *.
    pose proof (toFixed2_error (share first + (amount - total))) as He.
    apply Qabs_Qle_condition in He. apply Qabs_Qle_condition.
    split; lra.
  - injection H as <-. split; [|split; reflexivity].
    apply Qlt_bool_false in E. unfold Math_abs in E. rewrite Ht in E. exact E.
Qed.

Lemma sharesOf_stored (u : string) (a : Q) (ps : list split) :
  sharesOf (mkExpense u a (map stored ps)) == sumShares ps.
Proof.
  unfold sharesOf. cbn [splits]. rewrite map_map. cbn [stored s_share].
  rewrite sumShares_Qsum. reflexivity.
Qed.

(** X18.  In the revision with selected members, an expense created by
    percentage, or split equally among selected members, always has shares
    that sum to within 0.01 of its amount: when the rounded shares are off by
    more, the first participant's share takes the difference, also when the
    percentages do not add up to 100. *)
Theorem selection_reconciles
    (calculateSplits : allocator) (req : addRequest) (userId : string)
    (group : option (list string)) (e : expense) (notified : list string) :
  WithSelection.addExpense calculateSplits req userId group = Created e notified ->
  r_splitType req = "percentage" \/
  (r_splitType req = "equal" /\ r_selectedMembers req <> []) ->
  amount e = r_amount req /\ Qabs (sharesOf e - amount e) <= 1 # 100.
Proof.
  intros H Hty. unfold WithSelection.addExpense in H.
  destruct (missingFields req); [discriminate|].
  destruct group as [members |]; [|discriminate].
  destruct (negb (includes members userId)); [discriminate|].
  destruct Hty as [Hty | [Hty Hsel]]; rewrite Hty in H;
    cbn [String.eqb Ascii.eqb Bool.eqb isDetailed orb] in H.
  - destruct (r_splits req) as [[| kv details] |]; try discriminate.
    destruct (firstNonMember members (obj_keys (kv :: details))); [discriminate|].
    match type of H with
    | match WithSelection.adjustFirst ?a ?ps with _ => _ end = _ =>
        destruct (WithSelection.adjustFirst a ps) as [adjusted |] eqn:Ea; [|discriminate]
    end.
    injection H as <- _. cbn [amount]. split; [reflexivity|].
    rewrite sharesOf_stored. apply (adjustFirst_reconciles _ _ _ Ea).
  - destruct (r_selectedMembers req) as [| m ms]; [congruence|].
    destruct (firstNonMember members (m :: ms)); [discriminate|].
    match type of H with
    | match WithSelection.adjustFirst ?a ?ps with _ => _ end = _ =>
        destruct (WithSelection.adjustFirst a ps) as [adjusted |] eqn:Ea; [|discriminate]
    end.
    injection H as <- _. cbn [amount]. split; [reflexivity|].
    rewrite sharesOf_stored. apply (adjustFirst_reconciles _ _ _ Ea).
Qed.

Lemma selection_reconciles_witness :
  amount (mkExpense "a" 100 [mkSplitDoc "a" 80 false; mkSplitDoc "b" 20 false]) = 100 /\
  Qabs (sharesOf (mkExpense "a" 100 [mkSplitDoc "a" 80 false; mkSplitDoc "b" 20 false])
        - amount (mkExpense "a" 100 [mkSplitDoc "a" 80 false; mkSplitDoc "b" 20 false]))
  <= 1 # 100.
Proof.
  apply (selection_reconciles Helpers.calculateSplits
           (mkAddRequest "dinner" 100 "g" "percentage" (Some [("a", 30); ("b", 20)]) [])
           "a" (Some ["a"; "b"])
           (mkExpense "a" 100 [mkSplitDoc "a" 80 false; mkSplitDoc "b" 20 false])
           ["b"]).
  - reflexivity.
  - left. reflexivity.
Defined.

Lemma includes_In (members : list string) (u : string) :
  includes members u = true <-> In u members.
Proof.
  unfold includes. rewrite existsb_exists. split.
  - intros [x [Hx E]]. apply String.eqb_eq in E. subst x. exact Hx.
  - intro H. exists u. split; [exact H | apply String.eqb_refl].
Qed.

Lemma firstNonMember_none (members ids : list string) :
  firstNonMember members ids = None -> incl ids members.
Proof.
  induction ids as [| u rest IH]; cbn [firstNonMember]; intros H x Hx; [destruct Hx|].
  destruct (includes members u) eqn:E; [|discriminate].
  destruct Hx as [<- | Hx]; [apply includes_In; exact E | apply (IH H x Hx)].
Qed.

Lemma stored_users (ps : list split) : map s_user (map stored ps) = map user ps.
Proof. rewrite map_map. reflexivity. Qed.

Lemma others_not_self (userId : string) (l : list string) :
  ~ In userId (filter (fun memberId => negb (String.eqb memberId userId)) l) /\
  incl (filter (fun memberId => negb (String.eqb memberId userId)) l) l.
Proof.
  split.
  - intro H. apply filter_In in H. destruct H as [_ H].
    rewrite String.eqb_refl in H. discriminate.
  - intros x Hx. apply filter_In in Hx. tauto.
Qed.

Lemma allocator_users
    (calculateSplits : allocator) (amount : Q) (ty : string)
    (users : list string) (details : object Q) (splits : list split) :
  calculateSplits = Helpers.calculateSplits \/ calculateSplits = Inline.calculateSplits ->
  calculateSplits amount ty users details = Returned splits ->
  (ty = "equal" /\ map user splits = users) \/
  (ty <> "equal" /\ map user splits = obj_keys details).
Proof.
  intros [-> | ->] H.
  - destruct (Helpers_returned _ _ _ _ _ H) as [[E [Hu _]] | [[E | E] [Hu _]]];
      [left | right | right]; (split; [|exact Hu]); subst ty; try reflexivity; discriminate.
  - destruct (Inline_returned _ _ _ _ _ H) as [[E [Hu _]] | [[E | E] Hu]];
      [left | right | right]; (split; [|exact Hu]); subst ty; try reflexivity; discriminate.
Qed.

Lemma adjusted_users (amount : Q) (ps ps' : list split) (members : list string) :
  WithSelection.adjustFirst amount ps = Some ps' ->
  incl (map user ps) members -> incl (map user ps') members.
Proof.
  intros H Hincl. destruct (adjustFirst_reconciles _ _ _ H) as [_ [Hu _]].
  rewrite Hu. exact Hincl.
Qed.

Lemma stored_unsettled (ps : list split) (s : splitDoc) :
  In s (map stored ps) -> settled s = false.
Proof.
  intro H. apply in_map_iff in H. destruct H as [p [<- _]]. reflexivity.
Qed.

Lemma others_of_members (userId : string) (l members : list string) :
  incl l members ->
  ~ In userId (filter (fun memberId => negb (String.eqb memberId userId)) l) /\
  incl (filter (fun memberId => negb (String.eqb memberId userId)) l) members.
Proof.
  intro H. destruct (others_not_self userId l) as [H1 H2].
  split; [exact H1|]. intros x Hx. apply H. apply H2. exact Hx.
Qed.

Lemma detailed_users (f : string * Q -> split) (details : object Q) :
  (forall kv, user (f kv) = fst kv) -> map user (map f details) = obj_keys details.
Proof.
  intro H. rewrite map_map. unfold obj_keys. apply map_ext. exact H.
Qed.

(** X19.  Whatever either revision of [addExpense] creates, with either
    revision of [calculateSplits], is paid by the requester, who is a member
    of the group, has the amount of the request, names only members of the
    group in its splits, has every split unsettled, and is announced only to
    members other than the requester. *)
Theorem created_expense_wellformed
    (calculateSplits : allocator) (req : addRequest) (userId : string)
    (group : option (list string)) (e : expense) (notified : list string) :
  calculateSplits = Helpers.calculateSplits \/ calculateSplits = Inline.calculateSplits ->
  ViaCalculator.addExpense calculateSplits req userId group = Created e notified \/
  WithSelection.addExpense calculateSplits req userId group = Created e notified ->
  wellFormedCreation req userId group e notified.
Proof.
  intros Hcalc H. unfold wellFormedCreation.
  assert (Hgroup : exists members, group = Some members /\ In userId members).
  { destruct H as [H | H];
      [unfold ViaCalculator.addExpense in H | unfold WithSelection.addExpense in H];
      destruct (missingFields req); try discriminate;
      destruct group as [members |]; try discriminate;
      destruct (includes members userId) eqn:E; try discriminate;
      exists members; (split; [reflexivity | apply includes_In; exact E]). }
  destruct Hgroup as [members [-> Hmember]].
  exists members. split; [reflexivity|]. split; [exact Hmember|].
  assert (Hfin : forall ps l,
             incl (map user ps) members -> incl l members ->
             Created (mkExpense userId (r_amount req) (map stored ps))
                     (filter (fun memberId => negb (String.eqb memberId userId)) l)
             = Created e notified ->
             paidBy e = userId /\ amount e = r_amount req /\
             incl (map s_user (splits e)) members /\
             (forall s, In s (splits e) -> settled s = false) /\
             ~ In userId notified /\ incl notified members).
  { intros ps l Hps Hl Heq. injection Heq as <- <-. cbn [paidBy amount splits].
    split; [reflexivity|]. split; [reflexivity|].
    split; [rewrite stored_users; exact Hps|].
    split; [apply stored_unsettled|].
    apply others_of_members. exact Hl. }
  destruct H as [H | H].
  - unfold ViaCalculator.addExpense in H.
    destruct (missingFields req); [discriminate|].
    destruct (negb (includes members userId)); [discriminate|].
    destruct (String.eqb (r_splitType req) "equal") eqn:E1.
    + apply String.eqb_eq in E1.
      destruct (calculateSplits (r_amount req) (r_splitType req) members [])
        as [err | ps] eqn:Ec; [discriminate|].
      destruct (allocator_users _ _ _ _ _ _ Hcalc Ec) as [[_ Hu] | [Hn _]];
        [|congruence].
      apply (Hfin ps members); [rewrite Hu; apply incl_refl | apply incl_refl | exact H].
    + destruct (isDetailed (r_splitType req)); [|discriminate].
      destruct (r_splits req) as [[| kv details] |]; try discriminate.
      destruct (firstNonMember members (obj_keys (kv :: details))) eqn:Ef; [discriminate|].
      apply firstNonMember_none in Ef.
      destruct (calculateSplits (r_amount req) (r_splitType req) members (kv :: details))
        as [err | ps] eqn:Ec; [discriminate|].
      destruct (allocator_users _ _ _ _ _ _ Hcalc Ec) as [[Heq _] | [_ Hu]].
      * rewrite Heq in E1. discriminate.
      * apply (Hfin ps members); [rewrite Hu; exact Ef | apply incl_refl | exact H].
  - unfold WithSelection.addExpense in H.
    destruct (missingFields req); [discriminate|].
    destruct (negb (includes members userId)); [discriminate|].
    destruct (String.eqb (r_splitType req) "equal") eqn:E1.
    + apply String.eqb_eq in E1.
      destruct (r_selectedMembers req) as [| m ms] eqn:Es.
      * destruct (calculateSplits (r_amount req) (r_splitType req) members [])
          as [err | ps] eqn:Ec; [discriminate|].
        destruct (allocator_users _ _ _ _ _ _ Hcalc Ec) as [[_ Hu] | [Hn _]];
          [|congruence].
        apply (Hfin ps (map user ps)); [| | exact H]; rewrite Hu; apply incl_refl.
      * destruct (firstNonMember members (m :: ms)) eqn:Ef; [discriminate|].
        apply firstNonMember_none in Ef.
        match type of H with
        | match WithSelection.adjustFirst ?a ?ps with _ => _ end = _ =>
            destruct (WithSelection.adjustFirst a ps) as [adjusted |] eqn:Ea;
              [|discriminate];
            assert (Hu : incl (map user adjusted) members)
              by (apply (adjusted_users _ _ _ _ Ea); rewrite map_map; cbn [user];
                  rewrite map_id; exact Ef)
        end.
        apply (Hfin adjusted (map user adjusted)); [exact Hu | exact Hu | exact H].
    + destruct (isDetailed (r_splitType req)); [|discriminate].
      destruct (r_splits req) as [[| kv details] |]; try discriminate.
      destruct (firstNonMember members (obj_keys (kv :: details))) eqn:Ef; [discriminate|].
      apply firstNonMember_none in Ef.
      destruct (String.eqb (r_splitType req) "percentage").
      * match type of H with
        | match WithSelection.adjustFirst ?a ?ps with _ => _ end = _ =>
            destruct (WithSelection.adjustFirst a ps) as [adjusted |] eqn:Ea;
              [|discriminate];
            assert (Hu : incl (map user adjusted) members)
              by (apply (adjusted_users _ _ _ _ Ea); rewrite detailed_users;
                  [exact Ef | intros [k v]; reflexivity])
        end.
        apply (Hfin adjusted (map user adjusted)); [exact Hu | exact Hu | exact H].
      * match type of H with
        | Created (mkExpense _ _ (map stored ?ps)) _ = _ =>
            assert (Hu : incl (map user ps) members)
              by (rewrite detailed_users; [exact Ef | intros [k v]; reflexivity]);
            apply (Hfin ps (map user ps)); [exact Hu | exact Hu | exact H]
        end.
Qed.

Lemma created_expense_wellformed_witness :
  wellFormedCreation
    (mkAddRequest "dinner" 100 "g" "equal" None []) "a" (Some ["a"; "b"; "c"])
    (mkExpense "a" 100 [mkSplitDoc "a" (1667 # 50) false; mkSplitDoc "b" (3333 # 100) false;
                        mkSplitDoc "c" (3333 # 100) false])
    ["b"; "c"].
Proof.
  apply (created_expense_wellformed Helpers.calculateSplits).
  - left. reflexivity.
  - left. vm_compute. reflexivity.
Defined.

(** X20.  In the revision that leaves the strategies to [calculateSplits], a
    request whose percentages are off 100 by more than 0.01 is not answered
    as a client error: the error [calculateSplits] throws is caught and
    answered with status 500. *)
Theorem percentage_error_answers_500
    (req : addRequest) (userId : string) (members : list string) (details : object Q) :
  missingFields req = false -> 0 < r_amount req ->
  includes members userId = true ->
  r_splitType req = "percentage" -> r_splits req = Some details -> details <> [] ->
  firstNonMember members (obj_keys details) = None ->
  nonnegValues details -> 1 # 100 < Qabs (sumValues details - 100) ->
  ViaCalculator.addExpense Helpers.calculateSplits req userId (Some members)
    = Rejected (ServerError (Raised (TotalPercentageOf (sumValues details)))) /\
  ViaCalculator.addExpense Inline.calculateSplits req userId (Some members)
    = Rejected (ServerError (Raised TotalPercentage)) /\
  status (ServerError (Raised (TotalPercentageOf (sumValues details)))) = 500%nat.
Proof.
  intros Hfields Hpos Hmember Hty Hsplits Hne Hkeys Hnn Hdev.
  assert (Hmembers : members <> []).
  { intros ->. discriminate. }
  unfold ViaCalculator.addExpense.
  rewrite Hfields, Hmember, Hty, Hsplits, Hkeys.
  cbn [negb String.eqb Ascii.eqb Bool.eqb isDetailed orb].
  destruct details as [| kv details]; [congruence|].
  unfold Helpers.calculateSplits, Inline.calculateSplits.
  replace (Qle_bool (r_amount req) 0) with false
    by (symmetry; apply Qle_bool_false; exact Hpos).
  rewrite (users_nonempty_eqb members Hmembers).
  cbn [String.eqb Ascii.eqb Bool.eqb].
  unfold Helpers.calculatePercentageSplit.
  rewrite (percentageLoop_nonneg (r_amount req) (kv :: details) Hnn).
  fold (sumValues (kv :: details)). unfold Math_abs.
  replace (Qlt_bool (1 # 100) (Qabs (sumValues (kv :: details) - 100))) with true
    by (symmetry; apply Qlt_bool_true; exact Hdev).
  repeat split.
Qed.

Lemma percentage_error_answers_500_witness :
  ViaCalculator.addExpense Helpers.calculateSplits
    (mkAddRequest "dinner" 100 "g" "percentage" (Some [("a", 40); ("b", 50)]) [])
    "a" (Some ["a"; "b"])
    = Rejected (ServerError (Raised (TotalPercentageOf (sumValues [("a", 40); ("b", 50)])))) /\
  ViaCalculator.addExpense Inline.calculateSplits
    (mkAddRequest "dinner" 100 "g" "percentage" (Some [("a", 40); ("b", 50)]) [])
    "a" (Some ["a"; "b"])
    = Rejected (ServerError (Raised TotalPercentage)) /\
  status (ServerError (Raised (TotalPercentageOf (sumValues [("a", 40); ("b", 50)]))))
  = 500%nat.
Proof.
  apply (percentage_error_answers_500
           (mkAddRequest "dinner" 100 "g" "percentage" (Some [("a", 40); ("b", 50)]) [])
           "a" ["a"; "b"] [("a", 40); ("b", 50)]).
  - reflexivity.
  - reflexivity.
  - reflexivity.
  - reflexivity.
  - reflexivity.
  - discriminate.
  - reflexivity.
  - intros k v [H | [H | []]]; injection H as _ <-; discriminate.
  - reflexivity.
Defined.

Lemma adjusted_creation
    (calculateSplits : allocator) (req : addRequest) (userId : string)
    (members : list string) (e : expense) (notified : list string) :
  WithSelection.addExpense calculateSplits req userId (Some members) = Created e notified ->
  r_splitType req = "percentage" \/
  (r_splitType req = "equal" /\ r_selectedMembers req <> []) ->
  exists ps,
    e = mkExpense userId (r_amount req) (map stored ps) /\
    In userId members /\ incl (map user ps) members /\
    Qabs (sumShares ps - r_amount req) <= 1 # 100.
Proof.
  intros H Hty. unfold WithSelection.addExpense in H.
  destruct (missingFields req); [discriminate|].
  destruct (includes members userId) eqn:Em; [|discriminate]. cbn [negb] in H.
  apply includes_In in Em.
  destruct Hty as [Hty | [Hty Hsel]]; rewrite Hty in H;
    cbn [String.eqb Ascii.eqb Bool.eqb isDetailed orb] in H.
  - destruct (r_splits req) as [[| kv details] |]; try discriminate.
    destruct (firstNonMember members (obj_keys (kv :: details))) eqn:Ef; [discriminate|].
    apply firstNonMember_none in Ef.
    match type of H with
    | match WithSelection.adjustFirst ?a ?ps with _ => _ end = _ =>
        destruct (WithSelection.adjustFirst a ps) as [adjusted |] eqn:Ea; [|discriminate]
    end.
    injection H as <- _. exists adjusted.
    split; [reflexivity|]. split; [exact Em|].
    split; [|apply (adjustFirst_reconciles _ _ _ Ea)].
    apply (adjusted_users _ _ _ _ Ea). rewrite detailed_users; [exact Ef|].
    intros [k v]. reflexivity.
  - destruct (r_selectedMembers req) as [| m ms]; [congruence|].
    destruct (firstNonMember members (m :: ms)) eqn:Ef; [discriminate|].
    apply firstNonMember_none in Ef.
    match type of H with
    | match WithSelection.adjustFirst ?a ?ps with _ => _ end = _ =>
        destruct (WithSelection.adjustFirst a ps) as [adjusted |] eqn:Ea; [|discriminate]
    end.
    injection H as <- _. exists adjusted.
    split; [reflexivity|]. split; [exact Em|].
    split; [|apply (adjustFirst_reconciles _ _ _ Ea)].
    apply (adjusted_users _ _ _ _ Ea). rewrite map_map. cbn [user]. rewrite map_id. exact Ef.
Qed.

(** X21.  An expense created by percentage, or split equally among selected
    members, and then aggregated over the members of its group gives every
    member a finite balance, and the balances sum to within 0.01 of zero. *)
Theorem created_expense_balances
    (calculateSplits : allocator) (req : addRequest) (userId : string)
    (members : list string) (e : expense) (notified : list string) :
  WithSelection.addExpense calculateSplits req userId (Some members) = Created e notified ->
  r_splitType req = "percentage" \/
  (r_splitType req = "equal" /\ r_selectedMembers req <> []) ->
  exists r,
    calculateGroupBalances [e] members = Some r /\
    (forall k v, In (k, v) (balances r) -> v <> NaN) /\
    Qabs (objTotal (balances r)) <= 1 # 100.
Proof.
  intros H Hty.
  destruct (adjusted_creation _ _ _ _ _ _ H Hty) as [ps [-> [Hmember [Husers Hbound]]]].
  unfold calculateGroupBalances.
  set (e := mkExpense userId (r_amount req) (map stored ps)).
  set (o := fold_left processExpense [e] (initBalances members)).
  destruct (simplifyDebts_total o) as [txs Htxs]. rewrite Htxs.
  eexists. split; [reflexivity|]. cbn [balances].
  assert (Hzero : forall k v, In (k, v) (initBalances members) -> v = Num 0).
  { unfold initBalances. apply init_all_zero. intros k v []. }
  destruct (process_expenses_member members [e] (initBalances members)) as [Hf Ht].
  - intros e' [<- | []] x [<- | Hx]; [exact Hmember|].
    apply Husers. subst e. cbn [splits] in Hx. rewrite stored_users in Hx. exact Hx.
  - intros m Hm. exists 0. unfold initBalances. apply init_members_get. left. exact Hm.
  - intros k v Hin. rewrite (Hzero k v Hin). discriminate.
  - cbv zeta in Hf, Ht. fold o in Hf, Ht.
    split; [exact Hf|].
    rewrite (all_zero_total _ Hzero) in Ht.
    assert (E : objTotal o == - (sumShares ps - r_amount req)).
    { rewrite Ht. cbn [map]. change (Qsum [amount e]) with (amount e + 0).
      change (Qsum [sharesOf e]) with (sharesOf e + 0).
      subst e. rewrite sharesOf_stored. cbn [amount]. ring. }
    rewrite E, Qabs_opp. exact Hbound.
Qed.

Lemma created_expense_balances_witness :
  exists r,
    calculateGroupBalances
      [mkExpense "a" 100 [mkSplitDoc "a" 80 false; mkSplitDoc "b" 20 false]] ["a"; "b"]
      = Some r /\
    (forall k v, In (k, v) (balances r) -> v <> NaN) /\
    Qabs (objTotal (balances r)) <= 1 # 100.
Proof.
  apply (created_expense_balances Helpers.calculateSplits
           (mkAddRequest "dinner" 100 "g" "percentage" (Some [("a", 30); ("b", 20)]) [])
           "a" ["a"; "b"]
           (mkExpense "a" 100 [mkSplitDoc "a" 80 false; mkSplitDoc "b" 20 false])
           ["b"]).
  - reflexivity.
  - left. reflexivity.
Defined.

(** * Settling *)

Lemma findIndex_found (userId : string) (now : Z) (l : list splitRecord) :
  forall i,
    findIndex userId l = Some i ->
    exists pre s post,
      l = (pre ++ s :: post)%list /\
      (forall y, In y pre -> s_user (doc y) <> userId) /\
      s_user (doc s) = userId /\
      nth_error l i = Some s /\
      markSettled i now l
      = (pre ++ mkSplitRecord (mkSplitDoc userId (s_share (doc s)) true) (Some now)
             :: post)%list.
Proof.
  induction l as [| s rest IH]; intros i H; [discriminate|].
  cbn [findIndex] in H.
  destruct (String.eqb (s_user (doc s)) userId) eqn:E.
  - injection H as <-. apply String.eqb_eq in E.
    exists [], s, rest. cbn. rewrite E. repeat split. intros y [].
  - destruct (findIndex userId rest) as [j |]; [|discriminate].
    injection H as <-.
    destruct (IH j eq_refl) as [pre [s' [post [-> [Hpre [Hs [Hn Hm]]]]]]].
    exists (s :: pre), s', post. cbn [app nth_error markSettled].
    split; [reflexivity|]. split.
    + intros y [<- | Hy]; [apply String.eqb_neq; exact E | apply Hpre; exact Hy].
    + split; [exact Hs|]. split; [exact Hn|]. rewrite Hm. reflexivity.
Qed.

Lemma findIndex_after (userId : string) (pre post : list splitRecord) (s : splitRecord) :
  (forall y, In y pre -> s_user (doc y) <> userId) -> s_user (doc s) = userId ->
  findIndex userId (pre ++ s :: post) = Some (List.length pre) /\
  nth_error (pre ++ s :: post) (List.length pre) = Some s.
Proof.
  intros Hpre Hs. induction pre as [| y pre IH]; cbn [app findIndex List.length nth_error].
  - rewrite Hs, String.eqb_refl. split; reflexivity.
  - replace (String.eqb (s_user (doc y)) userId) with false
      by (symmetry; apply String.eqb_neq; apply Hpre; left; reflexivity).
    destruct IH as [IH1 IH2]; [intros z Hz; apply Hpre; right; exact Hz|].
    rewrite IH1. split; [reflexivity | exact IH2].
Qed.

(** X22.  [settleSplit] succeeds only for the payer of the expense and only
    on a split that is not settled yet; it then saves the expense with the
    first split of the given user marked settled at the given time, and with
    nothing else changed, and notifies that user. *)
Theorem settleSplit_effect
    (x x' : expenseRecord) (userId requesterId requesterName : string) (now : Z) :
  answer (settleSplit (Some x) userId requesterId requesterName now) = inr x' ->
  x_paidBy x = requesterId /\
  saved (settleSplit (Some x) userId requesterId requesterName now) = Some x' /\
  exists pre s post,
    x_splits x = (pre ++ s :: post)%list /\
    (forall y, In y pre -> s_user (doc y) <> userId) /\
    s_user (doc s) = userId /\ settled (doc s) = false /\
    x' = withSplits x
           (pre ++ mkSplitRecord (mkSplitDoc userId (s_share (doc s)) true) (Some now)
                :: post) /\
    created (settleSplit (Some x) userId requesterId requesterName now)
    = [PaymentMarked userId requesterName (x_title x) (x_currency x)
                     (toFixed2 (s_share (doc s)))].
Proof.
  unfold settleSplit. intro H.
  destruct (String.eqb userId ""); [discriminate|].
  destruct (String.eqb (x_paidBy x) requesterId) eqn:Ep; [|discriminate].
  cbn [negb] in *. apply String.eqb_eq in Ep.
  destruct (findIndex userId (x_splits x)) as [i |] eqn:Ei; [|discriminate].
  destruct (findIndex_found userId now _ i Ei) as [pre [s [post [Hl [Hpre [Hs [Hn Hm]]]]]]].
  rewrite Hn in *.
  destruct (settled (doc s)) eqn:Eset; [discriminate|].
  cbn [answer saved created] in *. injection H as <-.
  split; [exact Ep|]. split; [reflexivity|].
  exists pre, s, post. rewrite Hm. repeat split; assumption.
Qed.

Lemma settleSplit_effect_witness :
  let x := mkExpenseRecord "dinner" "USD" "A" 100
             [mkSplitRecord (mkSplitDoc "A" 50 false) None;
              mkSplitRecord (mkSplitDoc "B" 50 false) None] in
  let x' := mkExpenseRecord "dinner" "USD" "A" 100
              [mkSplitRecord (mkSplitDoc "A" 50 false) None;
               mkSplitRecord (mkSplitDoc "B" 50 true) (Some 7%Z)] in
  x_paidBy x = "A" /\
  saved (settleSplit (Some x) "B" "A" "Ann" 7) = Some x' /\
  exists pre s post,
    x_splits x = (pre ++ s :: post)%list /\
    (forall y, In y pre -> s_user (doc y) <> "B") /\
    s_user (doc s) = "B" /\ settled (doc s) = false /\
    x' = withSplits x
           (pre ++ mkSplitRecord (mkSplitDoc "B" (s_share (doc s)) true) (Some 7%Z)
                :: post) /\
    created (settleSplit (Some x) "B" "A" "Ann" 7)
    = [PaymentMarked "B" "Ann" (x_title x) (x_currency x) (toFixed2 (s_share (doc s)))].
Proof.
  cbv zeta.
  apply (settleSplit_effect
           (mkExpenseRecord "dinner" "USD" "A" 100
              [mkSplitRecord (mkSplitDoc "A" 50 false) None;
               mkSplitRecord (mkSplitDoc "B" 50 false) None])
           (mkExpenseRecord "dinner" "USD" "A" 100
              [mkSplitRecord (mkSplitDoc "A" 50 false) None;
               mkSplitRecord (mkSplitDoc "B" 50 true) (Some 7%Z)])
           "B" "A" "Ann" 7).
  reflexivity.
Defined.

(** X23.  A split can be settled through [settleSplit] once: asking again on
    the saved expense is rejected as already settled, and nothing is saved
    and nobody notified. *)
Theorem settleSplit_once
    (x x' : expenseRecord) (userId requesterId requesterName : string) (now later : Z) :
  answer (settleSplit (Some x) userId requesterId requesterName now) = inr x' ->
  settleSplit (Some x') userId requesterId requesterName later
  = mkSettleOutcome None [] (inl AlreadySettled).
Proof.
  unfold settleSplit at 1. intro H.
  destruct (String.eqb userId "") eqn:Eu; [discriminate|].
  destruct (String.eqb (x_paidBy x) requesterId) eqn:Ep; [|discriminate].
  cbn [negb] in H.
  destruct (findIndex userId (x_splits x)) as [i |] eqn:Ei; [|discriminate].
  destruct (findIndex_found userId now _ i Ei) as [pre [s [post [Hl [Hpre [Hs [Hn Hm]]]]]]].
  rewrite Hn in H.
  destruct (settled (doc s)); [discriminate|].
  cbn [answer] in H. injection H as <-.
  unfold settleSplit. rewrite Eu. cbn [withSplits x_paidBy x_splits].
  rewrite Ep. cbn [negb]. rewrite Hm.
  destruct (findIndex_after userId pre post
              (mkSplitRecord (mkSplitDoc userId (s_share (doc s)) true) (Some now)) Hpre eq_refl)
    as [Hf Hnth].
  rewrite Hf, Hnth. reflexivity.
Qed.

Lemma settleSplit_once_witness :
  settleSplit
    (Some (mkExpenseRecord "dinner" "USD" "A" 100
             [mkSplitRecord (mkSplitDoc "A" 50 false) None;
              mkSplitRecord (mkSplitDoc "B" 50 true) (Some 7%Z)]))
    "B" "A" "Ann" 9
  = mkSettleOutcome None [] (inl AlreadySettled).
Proof.
  apply (settleSplit_once
           (mkExpenseRecord "dinner" "USD" "A" 100
              [mkSplitRecord (mkSplitDoc "A" 50 false) None;
               mkSplitRecord (mkSplitDoc "B" 50 false) None])
           _ "B" "A" "Ann" 7 9).
  reflexivity.
Defined.

Lemma marked_clear (x : expenseRecord) (userId : string) (now : Z) (i : nat) :
  findIndex userId (x_splits x) = Some i ->
  clearSettled (expenseOf (withSplits x (markSettled i now (x_splits x))))
  = clearSettled (expenseOf x).
Proof.
  intro H.
  destruct (findIndex_found userId now _ i H) as [pre [s [post [Hl [_ [Hs [_ Hm]]]]]]].
  rewrite Hm. unfold clearSettled, expenseOf, withSplits.
  cbn [paidBy amount splits x_paidBy x_amount x_splits].
  f_equal. rewrite Hl, !map_app. cbn [map doc s_user s_share]. rewrite Hs. reflexivity.
Qed.

Lemma saved_by_settleExpense
    (x x' : expenseRecord) (bodyUserId requesterId : string) (now : Z)
    (userName : string -> option string) :
  saved (settleExpense (Some x) bodyUserId requesterId now userName) = Some x' ->
  exists i,
    findIndex (if String.eqb bodyUserId "" then requesterId else bodyUserId) (x_splits x)
    = Some i /\
    x' = withSplits x (markSettled i now (x_splits x)).
Proof.
  unfold settleExpense. intro H.
  destruct (findIndex _ (x_splits x)) as [i |] eqn:Ei; [|discriminate].
  exists i. split; [reflexivity|].
  destruct (negb _).
  - destruct (userName _); [destruct (nth_error _ i)|]; cbn [saved] in H; congruence.
  - cbn [saved] in H. congruence.
Qed.

Lemma saved_by_settleSplit
    (x x' : expenseRecord) (userId requesterId requesterName : string) (now : Z) :
  saved (settleSplit (Some x) userId requesterId requesterName now) = Some x' ->
  exists i,
    findIndex userId (x_splits x) = Some i /\
    x' = withSplits x (markSettled i now (x_splits x)).
Proof.
  unfold settleSplit. intro H.
  destruct (String.eqb userId ""); [discriminate|].
  destruct (negb _); [discriminate|].
  destruct (findIndex userId (x_splits x)) as [i |] eqn:Ei; [|discriminate].
  exists i. split; [reflexivity|].
  destruct (nth_error (x_splits x) i); [|discriminate].
  destruct (settled (doc s)); [discriminate|].
  cbn [saved] in H. congruence.
Qed.

(** X24.  Whatever [settleExpense] or [settleSplit] saves, the balances and
    the transactions [calculateGroupBalances] computes for the group stay
    what they were. *)
Theorem settling_keeps_balances
    (x x' : expenseRecord) (userId requesterId requesterName : string) (now : Z)
    (userName : string -> option string)
    (before after : list expense) (groupMembers : list string) :
  saved (settleExpense (Some x) userId requesterId now userName) = Some x' \/
  saved (settleSplit (Some x) userId requesterId requesterName now) = Some x' ->
  calculateGroupBalances (before ++ expenseOf x' :: after) groupMembers
  = calculateGroupBalances (before ++ expenseOf x :: after) groupMembers.
Proof.
  intro H.
  assert (Hc : clearSettled (expenseOf x') = clearSettled (expenseOf x)).
  { destruct H as [H | H].
    - destruct (saved_by_settleExpense _ _ _ _ _ _ H) as [i [Hi ->]].
      apply (marked_clear x _ now i Hi).
    - destruct (saved_by_settleSplit _ _ _ _ _ _ H) as [i [Hi ->]].
      apply (marked_clear x _ now i Hi). }
  rewrite <- (calculateGroupBalances_clear (before ++ expenseOf x' :: after)),
          <- (calculateGroupBalances_clear (before ++ expenseOf x :: after)).
  rewrite !map_app. cbn [map]. rewrite Hc. reflexivity.
Qed.

Lemma settling_keeps_balances_witness :
  calculateGroupBalances
    ([] ++ expenseOf (mkExpenseRecord "dinner" "USD" "A" 100
                        [mkSplitRecord (mkSplitDoc "A" 50 false) None;
                         mkSplitRecord (mkSplitDoc "B" 50 true) (Some 7%Z)]) :: [])
    ["A"; "B"]
  = calculateGroupBalances
      ([] ++ expenseOf (mkExpenseRecord "dinner" "USD" "A" 100
                          [mkSplitRecord (mkSplitDoc "A" 50 false) None;
                           mkSplitRecord (mkSplitDoc "B" 50 false) None]) :: [])
      ["A"; "B"].
Proof.
  apply (settling_keeps_balances
           (mkExpenseRecord "dinner" "USD" "A" 100
              [mkSplitRecord (mkSplitDoc "A" 50 false) None;
               mkSplitRecord (mkSplitDoc "B" 50 false) None])
           _ "B" "A" "Ann" 7 (fun _ => None)).
  right. reflexivity.
Defined.

Lemma filter_insert {A : Type} (c : A -> bool) (before after : list A) (e : A) :
  c e = true ->
  filter c (before ++ e :: after) = (filter c before ++ e :: filter c after)%list.
Proof.
  intro H. rewrite filter_app. cbn [filter]. rewrite H. reflexivity.
Qed.

Lemma settledBackTo_insert (P : string) (before after : list expense) (e : expense) :
  paidBy e = P ->
  settledBackTo P (before ++ e :: after)
  == settledBackTo P before
     + Qsum (map s_share
                 (filter (fun s => negb (isUser P (s_user s)) && settled s) (splits e)))
     + settledBackTo P after.
Proof.
  intro Hp. unfold settledBackTo.
  rewrite filter_insert by (unfold paidByUser, isUser; rewrite Hp; apply String.eqb_refl).
  rewrite flat_map_app. cbn [flat_map].
  rewrite !filter_app, !map_app, !Qsum_app. ring.
Qed.

Lemma othersSplits_unsettled_sum (userId : string) (e : expense) :
  othersSplits userId false e
  == Qsum (map s_share
               (filter (fun s => negb (isUser userId (s_user s)) && negb (settled s))
                       (splits e))).
Proof.
  unfold othersSplits.
  rewrite (fold_left_add_if
             (fun s => negb (isUser userId (s_user s)) && Bool.eqb (settled s) false) s_share).
  rewrite (filter_ext _ (fun s => negb (isUser userId (s_user s)) && negb (settled s))).
  - ring.
  - intro s. destruct (settled s); reflexivity.
Qed.

Lemma othersYetToPayOf_insert (P : string) (before after : list expense) (e : expense) :
  paidBy e = P ->
  othersYetToPayOf P (before ++ e :: after)
  == othersYetToPayOf P before + othersSplits P false e + othersYetToPayOf P after.
Proof.
  intro Hp. rewrite !othersYetToPayOf_sum.
  rewrite filter_insert by (unfold paidByUser, isUser; rewrite Hp; apply String.eqb_refl).
  rewrite map_app. cbn [map]. rewrite Qsum_app.
  change (Qsum (othersSplits P false e
                :: map (othersSplits P false) (filter (paidByUser P) after)))
    with (othersSplits P false e
          + Qsum (map (othersSplits P false) (filter (paidByUser P) after))).
  ring.
Qed.

Lemma youNeedToPayOf_insert (U : string) (before after : list expense) (e : expense) :
  paidBy e <> U ->
  youNeedToPayOf U (before ++ e :: after)
  == youNeedToPayOf U before + ownSplit U false e + youNeedToPayOf U after.
Proof.
  intro Hp. rewrite !youNeedToPayOf_sum.
  rewrite filter_insert
    by (unfold paidByUser, isUser; apply negb_true_iff; apply String.eqb_neq; exact Hp).
  rewrite map_app. cbn [map]. rewrite Qsum_app.
  change (Qsum (ownSplit U false e
                :: map (ownSplit U false)
                       (filter (fun e0 => negb (paidByUser U e0)) after)))
    with (ownSplit U false e
          + Qsum (map (ownSplit U false)
                      (filter (fun e0 => negb (paidByUser U e0)) after))).
  ring.
Qed.

Lemma find_skip {A : Type} (c : A -> bool) (pre rest : list A) :
  (forall y, In y pre -> c y = false) -> find c (pre ++ rest) = find c rest.
Proof.
  intro H. induction pre as [| y pre IH]; [reflexivity|].
  cbn [app find]. rewrite (H y (or_introl eq_refl)).
  apply IH. intros z Hz. apply H. right. exact Hz.
Qed.

Lemma find_none {A : Type} (c : A -> bool) (l : list A) :
  (forall y, In y l -> c y = false) -> find c l = None.
Proof.
  intro H. rewrite <- (app_nil_r l). rewrite find_skip; [reflexivity | exact H].
Qed.

(** X25.  When the payer marks another user's split settled, the amount
    settled back to the payer grows by that share and the amount others have
    yet to pay the payer shrinks by it; and if the expense lists that user
    once, what the user still needs to pay shrinks by it too. *)
Theorem settleSplit_moves_share
    (x x' : expenseRecord) (userId requesterId requesterName : string) (now : Z)
    (before after : list expense) :
  answer (settleSplit (Some x) userId requesterId requesterName now) = inr x' ->
  userId <> requesterId ->
  exists share,
    created (settleSplit (Some x) userId requesterId requesterName now)
    = [PaymentMarked userId requesterName (x_title x) (x_currency x) (toFixed2 share)] /\
    settledBackTo requesterId (before ++ expenseOf x' :: after)
    == settledBackTo requesterId (before ++ expenseOf x :: after) + share /\
    othersYetToPayOf requesterId (before ++ expenseOf x' :: after)
    == othersYetToPayOf requesterId (before ++ expenseOf x :: after) - share /\
    (NoDup (map (fun y => s_user (doc y)) (x_splits x)) ->
     youNeedToPayOf userId (before ++ expenseOf x' :: after)
     == youNeedToPayOf userId (before ++ expenseOf x :: after) - share).
Proof.
  unfold settleSplit. intros H Hne.
  destruct (String.eqb userId ""); [discriminate|].
  destruct (String.eqb (x_paidBy x) requesterId) eqn:Ep; [|discriminate].
  cbn [negb] in *. apply String.eqb_eq in Ep.
  destruct (findIndex userId (x_splits x)) as [i |] eqn:Ei; [|discriminate].
  destruct (findIndex_found userId now _ i Ei) as [pre [s [post [Hl [Hpre [Hs [Hn Hm]]]]]]].
  rewrite Hn in *.
  destruct (settled (doc s)) eqn:Eset; [discriminate|].
  cbn [answer created] in *. injection H as <-.
  exists (s_share (doc s)). split; [reflexivity|].
  assert (Hother : negb (isUser requesterId userId) = true).
  { unfold isUser. apply negb_true_iff. apply String.eqb_neq. exact Hne. }
  assert (Hp : paidBy (expenseOf x) = requesterId) by exact Ep.
  assert (Hp' : paidBy (expenseOf (withSplits x (markSettled i now (x_splits x))))
                = requesterId) by exact Ep.
  assert (Hsplits : splits (expenseOf x)
                    = (map doc pre ++ doc s :: map doc post)%list).
  { unfold expenseOf. cbn [splits]. rewrite Hl, map_app. reflexivity. }
  assert (Hsplits' : splits (expenseOf (withSplits x (markSettled i now (x_splits x))))
                     = (map doc pre ++ mkSplitDoc userId (s_share (doc s)) true
                             :: map doc post)%list).
  { unfold expenseOf, withSplits. cbn [splits x_splits]. rewrite Hm, map_app. reflexivity. }
  split; [|split].
  - rewrite (settledBackTo_insert _ _ _ _ Hp), (settledBackTo_insert _ _ _ _ Hp').
    rewrite Hsplits, Hsplits', !filter_app, !map_app, !Qsum_app.
    cbn [filter s_user settled]. rewrite Hs, Eset, Hother. cbn [andb map s_share].
    change (Qsum (s_share (doc s)
                  :: map s_share
                       (filter (fun s0 => negb (isUser requesterId (s_user s0)) && settled s0)
                               (map doc post))))
      with (s_share (doc s)
            + Qsum (map s_share
                      (filter (fun s0 => negb (isUser requesterId (s_user s0)) && settled s0)
                              (map doc post)))).
    ring.
  - rewrite (othersYetToPayOf_insert _ _ _ _ Hp), (othersYetToPayOf_insert _ _ _ _ Hp').
    rewrite !othersSplits_unsettled_sum.
    rewrite Hsplits, Hsplits', !filter_app, !map_app, !Qsum_app.
    cbn [filter s_user settled]. rewrite Hs, Eset, Hother. cbn [andb negb map s_share].
    change (Qsum (s_share (doc s)
                  :: map s_share
                       (filter (fun s0 => negb (isUser requesterId (s_user s0))
                                          && negb (settled s0))
                               (map doc post))))
      with (s_share (doc s)
            + Qsum (map s_share
                      (filter (fun s0 => negb (isUser requesterId (s_user s0))
                                         && negb (settled s0))
                              (map doc post)))).
    ring.
  - intro Hnd.
    assert (Hpu : paidBy (expenseOf x) <> userId) by (rewrite Hp; congruence).
    assert (Hpu' : paidBy (expenseOf (withSplits x (markSettled i now (x_splits x))))
                   <> userId) by (rewrite Hp'; congruence).
    rewrite (youNeedToPayOf_insert _ _ _ _ Hpu), (youNeedToPayOf_insert _ _ _ _ Hpu').
    assert (Hpost : forall y, In y post -> s_user (doc y) <> userId).
    { rewrite Hl, map_app in Hnd. cbn [map] in Hnd.
      apply NoDup_remove_2 in Hnd. rewrite Hs in Hnd.
      intros y Hy E. apply Hnd. apply in_or_app. right.
      rewrite <- E. apply (in_map (fun y0 => s_user (doc y0))). exact Hy. }
    assert (Hskip : forall l : list splitRecord,
               (forall y, In y l -> s_user (doc y) <> userId) ->
               forall d, In d (map doc l) ->
                         isUser userId (s_user d) && Bool.eqb (settled d) false = false).
    { intros l Hl' d Hd. apply in_map_iff in Hd. destruct Hd as [y [<- Hy]].
      unfold isUser. replace (String.eqb (s_user (doc y)) userId) with false
        by (symmetry; apply String.eqb_neq; apply Hl'; exact Hy).
      reflexivity. }
    assert (E1 : ownSplit userId false (expenseOf x) = s_share (doc s)).
    { unfold ownSplit. rewrite Hsplits.
      rewrite find_skip by (apply (Hskip pre Hpre)).
      cbn [find]. unfold isUser. rewrite Hs, String.eqb_refl, Eset. reflexivity. }
    assert (E2 : ownSplit userId false
                   (expenseOf (withSplits x (markSettled i now (x_splits x)))) = 0).
    { unfold ownSplit. rewrite Hsplits'.
      rewrite find_skip by (apply (Hskip pre Hpre)).
      cbn [find s_user settled]. unfold isUser at 1. rewrite String.eqb_refl.
      cbn [Bool.eqb andb].
      rewrite find_none by (apply (Hskip post Hpost)). reflexivity. }
    rewrite E1, E2. ring.
Qed.

Lemma settleSplit_moves_share_witness :
  let x := mkExpenseRecord "dinner" "USD" "A" 100
             [mkSplitRecord (mkSplitDoc "A" 50 false) None;
              mkSplitRecord (mkSplitDoc "B" 50 false) None] in
  let x' := mkExpenseRecord "dinner" "USD" "A" 100
              [mkSplitRecord (mkSplitDoc "A" 50 false) None;
               mkSplitRecord (mkSplitDoc "B" 50 true) (Some 7%Z)] in
  exists share,
    created (settleSplit (Some x) "B" "A" "Ann" 7)
    = [PaymentMarked "B" "Ann" (x_title x) (x_currency x) (toFixed2 share)] /\
    settledBackTo "A" ([] ++ expenseOf x' :: [])
    == settledBackTo "A" ([] ++ expenseOf x :: []) + share /\
    othersYetToPayOf "A" ([] ++ expenseOf x' :: [])
    == othersYetToPayOf "A" ([] ++ expenseOf x :: []) - share /\
    (NoDup (map (fun y => s_user (doc y)) (x_splits x)) ->
     youNeedToPayOf "B" ([] ++ expenseOf x' :: [])
     == youNeedToPayOf "B" ([] ++ expenseOf x :: []) - share).
Proof.
  cbv zeta.
  apply (settleSplit_moves_share
           (mkExpenseRecord "dinner" "USD" "A" 100
              [mkSplitRecord (mkSplitDoc "A" 50 false) None;
               mkSplitRecord (mkSplitDoc "B" 50 false) None])
           (mkExpenseRecord "dinner" "USD" "A" 100
              [mkSplitRecord (mkSplitDoc "A" 50 false) None;
               mkSplitRecord (mkSplitDoc "B" 50 true) (Some 7%Z)])
           "B" "A" "Ann" 7 [] []).
  - reflexivity.
  - discriminate.
Defined.

Lemma settleExpense_saves
    (y : expenseRecord) (bodyUserId requesterId : string) (t : Z)
    (userName : string -> option string) (j : nat) :
  findIndex (if String.eqb bodyUserId "" then requesterId else bodyUserId) (x_splits y)
  = Some j ->
  saved (settleExpense (Some y) bodyUserId requesterId t userName)
  = Some (withSplits y (markSettled j t (x_splits y))).
Proof.
  intro H. unfold settleExpense. rewrite H.
  destruct (negb _); [|reflexivity].
  destruct (userName _); [|reflexivity].
  destruct (nth_error _ j); reflexivity.
Qed.

(** X26.  [settleExpense] can be repeated: settling again on the saved
    expense saves again, and only the timestamp of the split changes. *)
Theorem settleExpense_again
    (x x' : expenseRecord) (bodyUserId requesterId : string) (now later : Z)
    (userName userName' : string -> option string) :
  saved (settleExpense (Some x) bodyUserId requesterId now userName) = Some x' ->
  exists x'',
    saved (settleExpense (Some x') bodyUserId requesterId later userName') = Some x'' /\
    expenseOf x'' = expenseOf x'.
Proof.
  intro H.
  destruct (saved_by_settleExpense _ _ _ _ _ _ H) as [i [Hi ->]].
  set (u := if String.eqb bodyUserId "" then requesterId else bodyUserId) in *.
  destruct (findIndex_found u now _ i Hi) as [pre [s [post [Hl [Hpre [Hs [Hn Hm]]]]]]].
  destruct (findIndex_after u pre post
              (mkSplitRecord (mkSplitDoc u (s_share (doc s)) true) (Some now)) Hpre eq_refl)
    as [Hf Hnth].
  rewrite Hm.
  set (l' := (pre ++ mkSplitRecord (mkSplitDoc u (s_share (doc s)) true) (Some now)
                  :: post)%list) in *.
  destruct (findIndex_found u later _ _ Hf) as [pre2 [s2 [post2 [Hl2 [_ [Hs2 [Hn2 Hm2]]]]]]].
  rewrite Hnth in Hn2. injection Hn2 as <-.
  eexists. split.
  - apply (settleExpense_saves (withSplits x l') bodyUserId requesterId later userName'
             (List.length pre)).
    exact Hf.
  - unfold expenseOf, withSplits. cbn [x_paidBy x_amount x_splits].
    f_equal. rewrite Hm2, Hl2, !map_app. reflexivity.
Qed.

Lemma settleExpense_again_witness :
  exists x'',
    saved (settleExpense
             (Some (mkExpenseRecord "dinner" "USD" "A" 100
                      [mkSplitRecord (mkSplitDoc "A" 50 false) None;
                       mkSplitRecord (mkSplitDoc "B" 50 true) (Some 7%Z)]))
             "" "B" 9 (fun _ => Some "Bob")) = Some x'' /\
    expenseOf x''
    = expenseOf (mkExpenseRecord "dinner" "USD" "A" 100
                   [mkSplitRecord (mkSplitDoc "A" 50 false) None;
                    mkSplitRecord (mkSplitDoc "B" 50 true) (Some 7%Z)]).
Proof.
  apply (settleExpense_again
           (mkExpenseRecord "dinner" "USD" "A" 100
              [mkSplitRecord (mkSplitDoc "A" 50 false) None;
               mkSplitRecord (mkSplitDoc "B" 50 false) None])
           _ "" "B" 7 9 (fun _ => None) (fun _ => Some "Bob")).
  reflexivity.
Defined.

(** * The currency converter *)

Lemma fetch_leaves_cached (st st' : converterState) (currentTime : Z)
    (api : string -> option (object Q)) (base : string) (rates : object Q) :
  fetchExchangeRates st currentTime api base = (inr rates, st') ->
  obj_get base (exchangeRatesCache st') = Some rates /\
  ((st' = st /\ (currentTime - lastFetchTime st < CACHE_TTL)%Z) \/
   lastFetchTime st' = currentTime).
Proof.
  unfold fetchExchangeRates. intro H.
  assert (Hreq : match api base with
                 | Some rates0 =>
                     (inr rates0,
                      mkConverterState (obj_set base rates0 (exchangeRatesCache st))
                                       currentTime)
                 | None => (@inl convertError (object Q) FailedToFetch, st)
                 end = (inr rates, st') ->
                 obj_get base (exchangeRatesCache st') = Some rates /\
                 lastFetchTime st' = currentTime).
  { destruct (api base) as [r |]; intro E; [|discriminate].
    injection E as <- <-. cbn [exchangeRatesCache lastFetchTime].
    split; [apply obj_get_set_same | reflexivity]. }
  destruct (obj_get base (exchangeRatesCache st)) as [cached |] eqn:Ec.
  - destruct (currentTime - lastFetchTime st <? CACHE_TTL)%Z eqn:Et.
    + injection H as <- <-. split; [exact Ec|]. left.
      split; [reflexivity | apply Z.ltb_lt; exact Et].
    + destruct (Hreq H) as [H1 H2]. split; [exact H1 | right; exact H2].
  - destruct (Hreq H) as [H1 H2]. split; [exact H1 | right; exact H2].
Qed.

(** X27.  After a successful conversion, converting from the same currency
    again within an hour of the last fetch uses the same rate and leaves the
    state alone, whatever the exchange-rate service would answer now. *)
Theorem conversion_is_cached
    (st st' : converterState) (currentTime : Z) (api : string -> option (object Q))
    (amount converted : Q) (fromCurrency toCurrency : string) :
  fromCurrency <> toCurrency ->
  convertCurrency st currentTime api amount fromCurrency toCurrency = (inr converted, st') ->
  exists rate,
    converted = toFixed2 (amount * rate) /\
    forall (later : Z) (api' : string -> option (object Q)) (amount' : Q),
      (later - lastFetchTime st' < CACHE_TTL)%Z ->
      convertCurrency st' later api' amount' fromCurrency toCurrency
      = (inr (toFixed2 (amount' * rate)), st').
Proof.
  intros Hne H. unfold convertCurrency in H.
  apply String.eqb_neq in Hne. rewrite Hne in H.
  destruct (fetchExchangeRates st currentTime api fromCurrency) as [[e | rates] st1] eqn:Ef;
    [discriminate|].
  destruct (obj_get toCurrency rates) as [rate |] eqn:Er; [|discriminate].
  destruct (Qeq_bool rate 0) eqn:Ez; [discriminate|].
  injection H as <- <-.
  exists rate. split; [reflexivity|].
  intros later api' amount' Hfresh.
  destruct (fetch_leaves_cached _ _ _ _ _ _ Ef) as [Hc _].
  unfold convertCurrency. rewrite Hne.
  unfold fetchExchangeRates. rewrite Hc.
  replace (later - lastFetchTime st1 <? CACHE_TTL)%Z with true
    by (symmetry; apply Z.ltb_lt; exact Hfresh).
  rewrite Er, Ez. reflexivity.
Qed.

Lemma conversion_is_cached_witness :
  exists rate,
    92 = toFixed2 (100 * rate) /\
    forall (later : Z) (api' : string -> option (object Q)) (amount' : Q),
      (later - lastFetchTime (mkConverterState [("USD", [("EUR", 92 # 100)])] 5000)
       < CACHE_TTL)%Z ->
      convertCurrency (mkConverterState [("USD", [("EUR", 92 # 100)])] 5000)
                      later api' amount' "USD" "EUR"
      = (inr (toFixed2 (amount' * rate)),
         mkConverterState [("USD", [("EUR", 92 # 100)])] 5000).
Proof.
  apply (conversion_is_cached initialConverterState _ 5000
           (fun _ => Some [("EUR", 92 # 100)]) 100 92 "USD" "EUR").
  - discriminate.
  - reflexivity.
Defined.

(** X28.  The age of the cache is kept once for all currencies: a fetch for
    one base currency makes the cached rates of every other base count as
    fresh for another hour, however long ago they were fetched. *)
Theorem fetch_refreshes_other_bases
    (st : converterState) (currentTime : Z) (api : string -> option (object Q))
    (base other : string) (rates cachedOther : object Q) :
  other <> base ->
  obj_get other (exchangeRatesCache st) = Some cachedOther ->
  (obj_get base (exchangeRatesCache st) = None \/
   (CACHE_TTL <= currentTime - lastFetchTime st)%Z) ->
  api base = Some rates ->
  forall (later : Z) (api' : string -> option (object Q)),
    (later - currentTime < CACHE_TTL)%Z ->
    fst (fetchExchangeRates (snd (fetchExchangeRates st currentTime api base))
                            later api' other)
    = inr cachedOther.
Proof.
  intros Hne Hother Hmiss Hapi later api' Hfresh.
  assert (E : fetchExchangeRates st currentTime api base
              = (inr rates,
                 mkConverterState (obj_set base rates (exchangeRatesCache st)) currentTime)).
  { unfold fetchExchangeRates. rewrite Hapi.
    destruct (obj_get base (exchangeRatesCache st)) as [cached |]; [|reflexivity].
    destruct Hmiss as [Hm | Hm]; [discriminate|].
    replace (currentTime - lastFetchTime st <? CACHE_TTL)%Z with false
      by (symmetry; apply Z.ltb_ge; exact Hm).
    reflexivity. }
  rewrite E. cbn [snd]. unfold fetchExchangeRates.
  cbn [exchangeRatesCache lastFetchTime].
  rewrite (obj_get_set_other other base rates _ Hne), Hother.
  replace (later - currentTime <? CACHE_TTL)%Z with true
    by (symmetry; apply Z.ltb_lt; exact Hfresh).
  reflexivity.
Qed.

Lemma fetch_refreshes_other_bases_witness :
  fst (fetchExchangeRates
         (snd (fetchExchangeRates (mkConverterState [("USD", [("EUR", 92 # 100)])] 5000)
                                  100000000 (fun _ => Some [("USD", 108 # 100)]) "EUR"))
         100001000 (fun _ => None) "USD")
  = inr [("EUR", 92 # 100)].
Proof.
  apply (fetch_refreshes_other_bases
           (mkConverterState [("USD", [("EUR", 92 # 100)])] 5000) 100000000
           (fun _ => Some [("USD", 108 # 100)]) "EUR" "USD" [("USD", 108 # 100)]).
  - discriminate.
  - reflexivity.
  - left. reflexivity.
  - reflexivity.
  - reflexivity.
Defined.

(** X29.  For an [exact] split the revision with selected members stores
    what the other revision, with the helper [calculateSplits], would store
    whenever that one accepts the request; it just checks neither the signs
    of the shares nor their total. *)
Theorem exact_creation_carries_over
    (calculateSplits : allocator) (req : addRequest) (userId : string)
    (group : option (list string)) (e : expense) (notified : list string) :
  r_splitType req = "exact" ->
  ViaCalculator.addExpense Helpers.calculateSplits req userId group = Created e notified ->
  exists details,
    r_splits req = Some details /\
    splits e = map stored (exactSplits details) /\
    Qabs (sharesOf e - amount e) <= 1 # 100 /\
    WithSelection.addExpense calculateSplits req userId group
    = Created e (filter (fun memberId => negb (String.eqb memberId userId))
                        (obj_keys details)).
Proof.
  intros Hty H. unfold ViaCalculator.addExpense in H. unfold WithSelection.addExpense.
  destruct (missingFields req); [discriminate|].
  destruct group as [members |]; [|discriminate].
  destruct (negb (includes members userId)); [discriminate|].
  rewrite Hty in *. cbn [String.eqb Ascii.eqb Bool.eqb isDetailed orb] in *.
  destruct (r_splits req) as [[| kv details] |]; try discriminate.
  destruct (firstNonMember members (obj_keys (kv :: details))); [discriminate|].
  destruct (Helpers.calculateSplits (r_amount req) "exact" members (kv :: details))
    as [err | ps] eqn:Ec; [discriminate|].
  injection H as <- _.
  unfold Helpers.calculateSplits in Ec.
  destruct (Qle_bool (r_amount req) 0); [discriminate|].
  destruct (Nat.eqb (List.length members) 0); [discriminate|].
  cbn [String.eqb Ascii.eqb Bool.eqb] in Ec.
  apply validateExactSplit_returned in Ec. destruct Ec as [-> [_ Hdev]].
  exists (kv :: details). split; [reflexivity|]. split; [reflexivity|].
  split.
  - rewrite sharesOf_stored. cbn [amount].
    assert (E : sumShares (exactSplits (kv :: details)) - r_amount req
                == sumValues (kv :: details) - r_amount req).
    { rewrite sumShares_Qsum, exactSplits_shares, sumValues_Qsum. reflexivity. }
    rewrite E. exact Hdev.
  - fold (exactSplits (kv :: details)). rewrite exactSplits_users. reflexivity.
Qed.

Lemma exact_creation_carries_over_witness :
  exists details,
    r_splits (mkAddRequest "dinner" 100 "g" "exact" (Some [("a", 70); ("b", 30)]) [])
    = Some details /\
    splits (mkExpense "a" 100 [mkSplitDoc "a" 70 false; mkSplitDoc "b" 30 false])
    = map stored (exactSplits details) /\
    Qabs (sharesOf (mkExpense "a" 100 [mkSplitDoc "a" 70 false; mkSplitDoc "b" 30 false])
          - amount (mkExpense "a" 100 [mkSplitDoc "a" 70 false; mkSplitDoc "b" 30 false]))
    <= 1 # 100 /\
    WithSelection.addExpense Inline.calculateSplits
      (mkAddRequest "dinner" 100 "g" "exact" (Some [("a", 70); ("b", 30)]) [])
      "a" (Some ["a"; "b"; "c"])
    = Created (mkExpense "a" 100 [mkSplitDoc "a" 70 false; mkSplitDoc "b" 30 false])
              (filter (fun memberId => negb (String.eqb memberId "a")) (obj_keys details)).
Proof.
  apply (exact_creation_carries_over Inline.calculateSplits
           (mkAddRequest "dinner" 100 "g" "exact" (Some [("a", 70); ("b", 30)]) [])
           "a" (Some ["a"; "b"; "c"])
           (mkExpense "a" 100 [mkSplitDoc "a" 70 false; mkSplitDoc "b" 30 false])
           ["b"; "c"]).
  - reflexivity.
  - reflexivity.
Defined.
